(** * Tolkien Gateway knowledge-graph pipeline: a shallow embedding

    The development follows the four pipeline stages of [parsers/]:
    - [Step1_parse_all_pages.py]: the infobox parser and key normalizer,
    - [Step2_rdf_generator.py]: the fact (triple) builder,
    - [Step3_shacl_generator.py]: the shape synthesizer,
    - [Step4_enrich_with_metw_and_csv.py]: the reconciliation engine.

    Python strings are modelled by [string] (ASCII range), an rdflib graph
    by a finite set of triples, Python dictionaries by insertion-ordered
    association lists, and [float] similarity scores by rationals. *)

From Stdlib Require Import String Ascii ZArith QArith Lqa List Bool DecimalString.
From stdpp Require Import gmap strings list.

Local Open Scope string_scope.
#[local] Set Warnings "-clear-no-such-hyp".

(** ** Python string primitives *)

Module PyStr.

Definition is_upper (c : ascii) : bool :=
  let n := nat_of_ascii c in (65 <=? n)%nat && (n <=? 90)%nat.

Definition is_lower (c : ascii) : bool :=
  let n := nat_of_ascii c in (97 <=? n)%nat && (n <=? 122)%nat.

Definition lower_char (c : ascii) : ascii :=
  if is_upper c then ascii_of_nat (nat_of_ascii c + 32) else c.

Definition upper_char (c : ascii) : ascii :=
  if is_lower c then ascii_of_nat (nat_of_ascii c - 32) else c.

(** [str.isspace] on the ASCII range: TAB, LF, VT, FF, CR, FS, GS, RS, US
    and the blank. *)
Definition is_space (c : ascii) : bool :=
  let n := nat_of_ascii c in
  ((9 <=? n)%nat && (n <=? 13)%nat) || ((28 <=? n)%nat && (n <=? 32)%nat).

Fixpoint map_chars (f : ascii -> ascii) (s : string) : string :=
  match s with
  | EmptyString => EmptyString
  | String c r => String (f c) (map_chars f r)
  end.

(** [s.lower()] *)
Definition lower (s : string) : string := map_chars lower_char s.

(** [s.lstrip()] *)
Fixpoint lstrip (s : string) : string :=
  match s with
  | EmptyString => EmptyString
  | String c r => if is_space c then lstrip r else s
  end.

(** [s.rstrip()] *)
Fixpoint rstrip (s : string) : string :=
  match s with
  | EmptyString => EmptyString
  | String c r =>
      match rstrip r with
      | EmptyString => if is_space c then EmptyString else String c EmptyString
      | r' => String c r'
      end
  end.

(** [s.strip()] *)
Definition strip (s : string) : string := rstrip (lstrip s).

(** [s.startswith(p)] *)
Fixpoint startswith (p s : string) : bool :=
  match p, s with
  | EmptyString, _ => true
  | String a p', String b s' => Ascii.eqb a b && startswith p' s'
  | String _ _, EmptyString => false
  end.

(** [s.replace(old, new)] for a non-empty [old]: occurrences are replaced
    left to right without overlap; [skip] counts the characters of a
    replaced occurrence that are still to be dropped. *)
Fixpoint replace_aux (old new : string) (s : string) (skip : nat) : string :=
  match s with
  | EmptyString => EmptyString
  | String c r =>
      match skip with
      | S k => replace_aux old new r k
      | O =>
          if startswith old s
          then new ++ replace_aux old new r (String.length old - 1)
          else String c (replace_aux old new r 0)
      end
  end.

Definition replace (old new : string) (s : string) : string :=
  match old with
  | EmptyString => s
  | _ => replace_aux old new s 0
  end.

(** [s.find(sub)]: index of the first occurrence. *)
Fixpoint find (sub s : string) : option nat :=
  if startswith sub s then Some 0%nat
  else match s with
       | EmptyString => None
       | String _ r => option_map S (find sub r)
       end.

(** Longest prefix of [s] whose characters satisfy [f], with its length. *)
Fixpoint span_len (f : ascii -> bool) (s : string) : nat :=
  match s with
  | EmptyString => 0
  | String c r => if f c then S (span_len f r) else 0
  end.

(** [s[:n]] and [s[n:]] *)
Fixpoint take (n : nat) (s : string) : string :=
  match n, s with
  | S k, String c r => String c (take k r)
  | _, _ => EmptyString
  end.

Fixpoint drop (n : nat) (s : string) : string :=
  match n, s with
  | S k, String _ r => drop k r
  | _, _ => s
  end.

(** [sub in s] *)
Fixpoint contains (sub s : string) : bool :=
  startswith sub s ||
  match s with
  | EmptyString => false
  | String _ r => contains sub r
  end.

(** [s.split(sep)] for a one-character separator; the accumulator [cur]
    holds the field being read. *)
Fixpoint split_aux (sep : ascii) (s : string) (cur : string) : list string :=
  match s with
  | EmptyString => [cur]
  | String c r =>
      if Ascii.eqb c sep then cur :: split_aux sep r EmptyString
      else split_aux sep r (cur ++ String c EmptyString)
  end.

Definition split (sep : ascii) (s : string) : list string :=
  split_aux sep s EmptyString.

(** [s.capitalize()]: first character upper-cased, the rest lower-cased. *)
Definition capitalize (s : string) : string :=
  match s with
  | EmptyString => EmptyString
  | String c r => String (upper_char c) (lower r)
  end.

(** [''.join(l)] *)
Definition join (l : list string) : string := fold_right String.append "" l.

(** Truthiness of a string: [bool(s)]. *)
Definition truthy (s : string) : bool := negb (String.eqb s "").

(** Every character of [s] satisfies [f]. *)
Fixpoint all_chars (f : ascii -> bool) (s : string) : bool :=
  match s with
  | EmptyString => true
  | String c r => f c && all_chars f r
  end.

(** Every whitespace character of [s] is a blank, and no two of them are
    adjacent. *)
Fixpoint single_spaced (s : string) : bool :=
  match s with
  | EmptyString => true
  | String c r =>
      (negb (is_space c) || Ascii.eqb c " ")
      && match r with
         | String d _ => negb (is_space c && is_space d)
         | EmptyString => true
         end
      && single_spaced r
  end.

End PyStr.

(** ** Insertion-ordered dictionaries (Python [dict] with string keys) *)

Module PyDict.

Section Dict.
Context {K V : Type} `{EqDecision K}.

(** [d.get(k)] / [d[k]] *)
Fixpoint get (k : K) (d : list (K * V)) : option V :=
  match d with
  | [] => None
  | (k', v) :: r => if decide (k = k') then Some v else get k r
  end.

(** [k in d] *)
Definition mem (k : K) (d : list (K * V)) : bool :=
  match get k d with Some _ => true | None => false end.

(** [d[k] = v]: an existing key keeps its position, a new key is appended. *)
Fixpoint set (k : K) (v : V) (d : list (K * V)) : list (K * V) :=
  match d with
  | [] => [(k, v)]
  | (k', v') :: r =>
      if decide (k = k') then (k', v) :: r else (k', v') :: set k v r
  end.

End Dict.

End PyDict.

(** ** RDF terms, triples and graphs (rdflib) *)

(** The Python value carried by a literal. *)
Inductive lexical : Type :=
  | LexStr (s : string)
  | LexInt (z : Z)
  | LexFloat (q : Q)
  | LexBool (b : bool).

(** [Literal(value, lang=..., datatype=...)] *)
Record literal : Type := Literal {
  lit_value : lexical;
  lit_lang : option string;
  lit_datatype : option string
}.

Inductive term : Type :=
  | URIRef (u : string)
  | BNode (n : nat)
  | Lit (l : literal).

#[global] Instance Q_eq_dec : EqDecision Q.
Proof. solve_decision. Defined.

#[global] Instance lexical_eq_dec : EqDecision lexical.
Proof. solve_decision. Defined.

#[global] Instance literal_eq_dec : EqDecision literal.
Proof. solve_decision. Defined.

#[global] Instance term_eq_dec : EqDecision term.
Proof. solve_decision. Defined.

#[global] Instance lexical_countable : Countable lexical.
Proof.
  refine (inj_countable'
    (fun x => match x with
              | LexStr s => inl s
              | LexInt z => inr (inl z)
              | LexFloat q => inr (inr (inl (Qnum q, Qden q)))
              | LexBool b => inr (inr (inr b))
              end)
    (fun y => match y with
              | inl s => LexStr s
              | inr (inl z) => LexInt z
              | inr (inr (inl (n, d))) => LexFloat (Qmake n d)
              | inr (inr (inr b)) => LexBool b
              end) _).
  by intros [s|z|[n d]|b].
Defined.

#[global] Instance literal_countable : Countable literal.
Proof.
  refine (inj_countable'
    (fun l => (lit_value l, lit_lang l, lit_datatype l))
    (fun y => match y with (v, g, d) => Literal v g d end) _).
  by intros [v g d].
Defined.

#[global] Instance term_countable : Countable term.
Proof.
  refine (inj_countable'
    (fun t => match t with
              | URIRef u => inl u
              | BNode n => inr (inl n)
              | Lit l => inr (inr l)
              end)
    (fun y => match y with
              | inl u => URIRef u
              | inr (inl n) => BNode n
              | inr (inr l) => Lit l
              end) _).
  by intros [u|n|l].
Defined.

Definition triple : Type := term * term * term.

(** An rdflib [Graph] is a set of triples: adding a triple that is already
    there changes nothing. *)
Abbreviation graph := (gset triple).

(** [graph.add((s, p, o))] *)
Definition graph_add (t : triple) (g : graph) : graph := g ∪ {[ t ]}.

(** [graph.objects(s, p)] *)
Definition objects (g : graph) (s p : term) : gset term :=
  set_omap (fun t : triple =>
    match t with
    | (s', p', o) => if decide (s' = s /\ p' = p) then Some o else None
    end) g.

(** [len(graph)] *)
Definition graph_len (g : graph) : nat := size g.


(** ** Step 1: the infobox parser ([InfoboxParser]) *)

Module Step1.

(** [self.key_normalizations] *)
Definition key_normalizations : list (string * string) :=
  [ ("birth_date", "birthDate"); ("birth_place", "birthPlace");
    ("death_date", "deathDate"); ("death_place", "deathPlace");
    ("real_name", "realName"); ("other_names", "otherNames");
    ("pronunciation", "pronunciation"); ("sail_date", "sailDate");
    ("sail_ship", "sailShip"); ("lifespan", "lifespan");
    ("realm", "realm"); ("title", "title"); ("titles", "titles");
    ("position", "position"); ("affiliation", "affiliation");
    ("language", "language"); ("height", "height");
    ("hair", "hair"); ("eyes", "eyes"); ("clothing", "clothing");
    ("weapons", "weapons"); ("steed", "steed"); ("gallery", "gallery");
    ("actor", "actor"); ("voice", "voice"); ("culture", "culture");
    ("gender", "gender"); ("race", "race"); ("spouse", "spouse");
    ("children", "children"); ("parentage", "parentage");
    ("siblings", "siblings"); ("physical_description", "physicalDescription");
    ("notable_for", "notableFor") ].

(** The first line of [normalize_key]:
    [key.strip().lower().replace(' ', '_')]. *)
Definition key_form (key : string) : string :=
  PyStr.replace " " "_" (PyStr.lower (PyStr.strip key)).

Definition normalize_key (key : string) : string :=
  let key := key_form key in
  match PyDict.get key key_normalizations with
  | Some v => v
  | None =>
      match PyStr.split "_" key with
      | p0 :: ((_ :: _) as rest) => p0 ++ PyStr.join (map PyStr.capitalize rest)
      | _ => key
      end
  end.

(** The character classes [[^\]|]] and [[^\]]] of the link pattern. *)
Definition not_close_or_bar (c : ascii) : bool :=
  negb (Ascii.eqb c "]") && negb (Ascii.eqb c "|").

Definition not_close (c : ascii) : bool := negb (Ascii.eqb c "]").

(** One match of [\[\[([^\]|]+)(?:\|[^\]]+)?\]\]] anchored at the start of
    [s]: the captured target and the length of the whole match. Both
    character classes are greedy and no shorter choice can be followed by
    the closing brackets, so the match is unique when it exists. *)
Definition match_link (s : string) : option (string * nat) :=
  if PyStr.startswith "[[" s then
    let r0 := PyStr.drop 2 s in
    let la := PyStr.span_len not_close_or_bar r0 in
    let r1 := PyStr.drop la r0 in
    if (la =? 0)%nat then None
    else if PyStr.startswith "]]" r1 then Some (PyStr.take la r0, 2 + la + 2)%nat
    else if PyStr.startswith "|" r1 then
      let r2 := PyStr.drop 1 r1 in
      let lb := PyStr.span_len not_close r2 in
      if (lb =? 0)%nat then None
      else if PyStr.startswith "]]" (PyStr.drop lb r2)
           then Some (PyStr.take la r0, 2 + la + 1 + lb + 2)%nat
           else None
    else None
  else None.

(** [re.findall(pattern, text)]: matches are found left to right and do
    not overlap. *)
Fixpoint findall_links (s : string) (skip : nat) : list string :=
  match s with
  | EmptyString => []
  | String _ r =>
      match skip with
      | S k => findall_links r k
      | O =>
          match match_link s with
          | Some (target, n) => target :: findall_links r (n - 1)
          | None => findall_links r 0
          end
      end
  end.

Definition extract_internal_links (text : string) : list string :=
  List.filter
    (fun link => negb (PyStr.contains ":" link && negb (PyStr.startswith "http" link)))
    (map PyStr.strip (findall_links text 0)).

Definition not_gt (c : ascii) : bool := negb (Ascii.eqb c ">").

(** [re.sub(r'<ref[^>]*>.*?</ref>', '', s, flags=re.DOTALL)]: length of the
    match anchored at the start of [s]. *)
Definition match_ref_pair (s : string) : option nat :=
  if PyStr.startswith "<ref" s then
    let r0 := PyStr.drop 4 s in
    let la := PyStr.span_len not_gt r0 in
    let r1 := PyStr.drop la r0 in
    if PyStr.startswith ">" r1 then
      match PyStr.find "</ref>" (PyStr.drop 1 r1) with
      | Some i => Some (4 + la + 1 + i + 6)%nat
      | None => None
      end
    else None
  else None.

(** [re.sub(r'<ref[^>]*/?>', '', s)]: length of the match anchored at the
    start of [s]. *)
Definition match_ref_tag (s : string) : option nat :=
  if PyStr.startswith "<ref" s then
    let r0 := PyStr.drop 4 s in
    let la := PyStr.span_len not_gt r0 in
    if PyStr.startswith ">" (PyStr.drop la r0) then Some (4 + la + 1)%nat
    else None
  else None.

(** [re.sub(pattern, '', s)] for a pattern given by its anchored matcher
    (every match is non-empty). *)
Fixpoint remove_matches (m : string -> option nat) (s : string) (skip : nat) : string :=
  match s with
  | EmptyString => EmptyString
  | String c r =>
      match skip with
      | S k => remove_matches m r k
      | O =>
          match m s with
          | Some n => remove_matches m r (n - 1)
          | None => String c (remove_matches m r 0)
          end
      end
  end.

(** [re.sub(r'\s+', ' ', s)] *)
Fixpoint collapse_spaces (s : string) (in_run : bool) : string :=
  match s with
  | EmptyString => EmptyString
  | String c r =>
      if PyStr.is_space c
      then if in_run then collapse_spaces r true
           else String " " (collapse_spaces r true)
      else String c (collapse_spaces r false)
  end.

(** [{'raw': ..., 'cleaned': ..., 'internal_links': ...}] *)
Record attribute_value : Type := AttributeValue {
  raw : string;
  cleaned : string;
  internal_links : list string
}.

(** A template as [mwparserfromhell] returns it: [str(template.name)] and,
    for each parameter, [str(param.name)] and [str(param.value)]. *)
Record template : Type := Template {
  tname : string;
  tparams : list (string * string)
}.

(** What [parse_infobox_template] returns. *)
Record infobox_result : Type := InfoboxResult {
  template_name : string;
  template_type : string;
  parameters : list (string * attribute_value)
}.

(** [entity['infobox']] *)
Record infobox : Type := Infobox {
  ib_template_name : string;
  ib_parameters : list (string * attribute_value)
}.

(** The normalized entity written by [parse_page]. *)
Record entity : Type := Entity {
  entity_id : string;
  page_id : option Z;
  title : string;
  etype : option string;
  e_infobox : option infobox;
  e_internal_links : list string;
  categories : list string;
  raw_wikitext_length : nat
}.

(** A record's attribute map is a dictionary: one entry per key. *)
Definition well_formed (e : entity) : Prop :=
  match e_infobox e with
  | Some ib => NoDup (map fst (ib_parameters ib))
  | None => True
  end.

#[global] Instance well_formed_dec (e : entity) : Decision (well_formed e).
Proof. unfold well_formed. destruct (e_infobox e); apply _. Defined.

Section Parser.

(** The [mwparserfromhell] library: [strip_code] of the parsed value,
    the templates and the wikilink titles of a parsed text. [None] stands
    for a raised exception. *)
Variable mw_strip_code : string -> option string.
Variable mw_filter_templates : string -> option (list template).
Variable mw_filter_wikilinks : string -> option (list string).

Definition clean_wikitext_value (value : string) : string :=
  match mw_strip_code value with
  | Some cleaned =>
      let cleaned := remove_matches match_ref_pair cleaned 0 in
      let cleaned := remove_matches match_ref_tag cleaned 0 in
      let cleaned := collapse_spaces cleaned false in
      PyStr.strip cleaned
  | None => PyStr.strip value
  end.

(** What the parameter loop guarantees of every attribute it keeps. *)
Definition kept (fv : string * attribute_value) : Prop :=
  raw (snd fv) <> "" /\
  (exists value, raw (snd fv) = PyStr.strip value) /\
  cleaned (snd fv) = clean_wikitext_value (raw (snd fv)) /\
  internal_links (snd fv) = extract_internal_links (raw (snd fv)).

(** The loop over [infobox_template.params]. *)
Fixpoint parse_params (ps : list (string * string))
    (params : list (string * attribute_value)) : list (string * attribute_value) :=
  match ps with
  | [] => params
  | (name, value) :: rest =>
      let key := PyStr.strip name in
      let value := PyStr.strip value in
      if negb (PyStr.truthy value) then parse_params rest params
      else
        parse_params rest
          (PyDict.set (normalize_key key)
             {| raw := value;
                cleaned := clean_wikitext_value value;
                internal_links := extract_internal_links value |} params)
  end.

Definition is_infobox (t : template) : bool :=
  PyStr.startswith "infobox" (PyStr.lower (PyStr.strip (tname t))).

Definition parse_infobox_template (wikitext : string) : option infobox_result :=
  match mw_filter_templates wikitext with
  | None => None
  | Some templates =>
      match List.find is_infobox templates with
      | None => None
      | Some infobox_template =>
          let template_name := PyStr.strip (tname infobox_template) in
          Some {| template_name := template_name;
                  template_type := PyStr.strip (PyStr.replace "Infobox " "" template_name);
                  parameters := parse_params (tparams infobox_template) [] |}
      end
  end.

(** [list(set(links))]: duplicates removed. *)
Definition extract_all_internal_links (wikitext : string) : list string :=
  match mw_filter_wikilinks wikitext with
  | None => []
  | Some titles =>
      remove_dups
        (List.filter
           (fun t => negb (PyStr.contains ":" t && negb (PyStr.startswith "http" t)))
           (map PyStr.strip titles))
  end.

(** [parse_page] from the point where the title and the wikitext have been
    read from the page payload: no wikitext yields no record. *)
Definition parse_page_text (title : string) (wikitext : string)
    (pageid : option Z) (cats : list string) : option entity :=
  if negb (PyStr.truthy wikitext) then None
  else
    let infobox := parse_infobox_template wikitext in
    let all_links := extract_all_internal_links wikitext in
    Some {| entity_id := title;
            page_id := pageid;
            title := title;
            etype := option_map template_type infobox;
            e_infobox :=
              option_map (fun ib => {| ib_template_name := template_name ib;
                                       ib_parameters := parameters ib |}) infobox;
            e_internal_links := all_links;
            categories := cats;
            raw_wikitext_length := String.length wikitext |}.

End Parser.

(** A character of a normalized key: neither a blank nor an underscore. *)
Definition key_char (c : ascii) : bool :=
  negb (Ascii.eqb " " c) && negb (Ascii.eqb "_" c).

(** What [extract_internal_links] guarantees of a link it returns: it is
    trimmed, holds neither a closing bracket nor a bar, and names no
    namespace unless it starts with [http]. *)
Definition plain_link (link : string) : Prop :=
  PyStr.strip link = link /\
  PyStr.contains "]" link = false /\
  PyStr.contains "|" link = false /\
  (PyStr.contains ":" link = true -> PyStr.startswith "http" link = true).

(** *** Sample records *)

(** A character record with a [gender] attribute. *)
Definition gendered_character : entity :=
  {| entity_id := "Frodo"; page_id := None; title := "Frodo";
     etype := Some "infobox character";
     e_infobox :=
       Some {| ib_template_name := "infobox character";
               ib_parameters :=
                 [("gender", {| raw := "male"; cleaned := "male";
                                internal_links := [] |})] |};
     e_internal_links := []; categories := [];
     raw_wikitext_length := 40 |}.

(** The same record under the tag Step 1 derives from the template name
    [Infobox character]. *)
Definition stripped_tag_character : entity :=
  {| entity_id := "Frodo"; page_id := None; title := "Frodo";
     etype := Some "character";
     e_infobox := e_infobox gendered_character;
     e_internal_links := []; categories := [];
     raw_wikitext_length := 40 |}.

(** *** A parser instance for plain text with comments *)

(** One HTML comment anchored at the start of [s]. *)
Definition match_comment (s : string) : option nat :=
  if PyStr.startswith "<!--" s then
    match PyStr.find "-->" (PyStr.drop 4 s) with
    | Some i => Some (4 + i + 3)%nat
    | None => None
    end
  else None.

(** [mwparserfromhell]'s [strip_code] on a value made of plain text and
    HTML comments: the comments are dropped, the text is kept. *)
Definition strip_html_comments (value : string) : option string :=
  Some (remove_matches match_comment value 0).

(** The page [{{Infobox character|notes=<!-- todo -->}}] and the one
    template [mwparserfromhell] finds in it. *)
Definition commented_page : string :=
  "{{Infobox character|notes=<!-- todo -->}}".

Definition commented_page_templates (wikitext : string) : option (list template) :=
  if String.eqb wikitext commented_page
  then Some [ {| tname := "Infobox character";
                 tparams := [("notes", "<!-- todo -->")] |} ]
  else Some [].

(** *** A character page as the wiki writes it *)




End Step1.

(** ** Vocabulary *)

Module Vocab.

Definition base_uri : string := "http://tolkiengateway.semanticweb.org/".

(** [Namespace(prefix)[name]] *)
Definition ns (prefix name : string) : term := URIRef (prefix ++ name).

Definition NS : string -> term := ns base_uri.
Definition RESOURCE : string -> term := ns (base_uri ++ "resource/").
Definition PAGE : string -> term := ns (base_uri ++ "page/").
Definition PROP : string -> term := ns (base_uri ++ "property/").
Definition SHAPE : string -> term := ns (base_uri ++ "shape/").
Definition SCHEMA : string -> term := ns "http://schema.org/".
Definition METW : string -> term := ns "http://metw.org/card/".
Definition LOTRCSV : string -> term := ns "http://lotrcsv.org/character/".
Definition RDF : string -> term := ns "http://www.w3.org/1999/02/22-rdf-syntax-ns#".
Definition RDFS : string -> term := ns "http://www.w3.org/2000/01/rdf-schema#".
Definition FOAF : string -> term := ns "http://xmlns.com/foaf/0.1/".
Definition DCTERMS : string -> term := ns "http://purl.org/dc/terms/".
Definition SH : string -> term := ns "http://www.w3.org/ns/shacl#".

Definition xsd (name : string) : string :=
  "http://www.w3.org/2001/XMLSchema#" ++ name.

(** [Literal(s)] *)
Definition plain (s : string) : term := Lit (Literal (LexStr s) None None).

(** [Literal(s, lang='en')] *)
Definition en (s : string) : term := Lit (Literal (LexStr s) (Some "en") None).

(** [Literal(n)] and [Literal(n, datatype=XSD.integer)] for a Python [int] *)
Definition int_lit (z : Z) : term :=
  Lit (Literal (LexInt z) None (Some (xsd "integer"))).

(** [Literal(x, datatype=XSD.float)] *)
Definition float_lit (q : Q) : term :=
  Lit (Literal (LexFloat q) None (Some (xsd "float"))).

End Vocab.

(** ** Step 2: the fact builder ([TolkienRDFGenerator]) *)

Module Step2.

Import Step1 Vocab.

(** [self.property_mappings] *)
Definition property_mappings : list (string * term) :=
  [ ("name", SCHEMA "name");
    ("birthDate", SCHEMA "birthDate");
    ("birthPlace", SCHEMA "birthPlace");
    ("deathDate", SCHEMA "deathDate");
    ("deathPlace", SCHEMA "deathPlace");
    ("gender", SCHEMA "gender");
    ("spouse", SCHEMA "spouse");
    ("children", SCHEMA "children");
    ("parent", SCHEMA "parent");
    ("parentage", SCHEMA "parent");
    ("siblings", SCHEMA "sibling");
    ("occupation", SCHEMA "hasOccupation");
    ("affiliation", SCHEMA "affiliation");
    ("image", SCHEMA "image");
    ("description", SCHEMA "description");
    ("height", SCHEMA "height");
    ("nationality", SCHEMA "nationality");
    ("race", PROP "race");
    ("titles", PROP "title");
    ("position", PROP "position");
    ("location", PROP "location");
    ("language", PROP "language");
    ("weapon", PROP "weapon");
    ("weapons", PROP "weapon");
    ("hair", PROP "hairColor");
    ("eyes", PROP "eyeColor");
    ("clothing", PROP "clothing");
    ("house", PROP "house");
    ("heritage", PROP "heritage");
    ("otherNames", SCHEMA "alternateName");
    ("realName", SCHEMA "alternateName") ].

Definition create_uri (name : string) (uri_type : string) : term :=
  let clean_name := PyStr.replace " " "_" name in
  if String.eqb uri_type "resource" then RESOURCE clean_name
  else if String.eqb uri_type "page" then PAGE clean_name
  else NS clean_name.

Definition type_mappings : list (string * term) :=
  [ ("character", SCHEMA "Person");
    ("infobox character", SCHEMA "Person");
    ("place", SCHEMA "Place");
    ("location", SCHEMA "Place");
    ("artifact", SCHEMA "Thing");
    ("item", SCHEMA "Thing");
    ("event", SCHEMA "Event");
    ("organization", SCHEMA "Organization") ].

Definition determine_class (entity_type : option string) : term :=
  match entity_type with
  | Some ty =>
      if PyStr.truthy ty then
        let entity_type_lower := PyStr.lower ty in
        match List.find (fun kv => PyStr.contains (fst kv) entity_type_lower)
                type_mappings with
        | Some (_, schema_class) => schema_class
        | None => SCHEMA "Thing"
        end
      else SCHEMA "Thing"
  | None => SCHEMA "Thing"
  end.

Definition add_basic_triples (e : entity) (resource_uri page_uri : term)
    (g : graph) : graph :=
  let title := title e in
  let schema_class := determine_class (etype e) in
  let g := graph_add (resource_uri, RDF "type", schema_class) g in
  let g := graph_add (resource_uri, RDFS "label", en title) g in
  let g := graph_add (resource_uri, SCHEMA "name", en title) g in
  let g := graph_add (page_uri, FOAF "primaryTopic", resource_uri) g in
  let g := graph_add (resource_uri, FOAF "isPrimaryTopicOf", page_uri) g in
  let g := graph_add (page_uri, RDF "type", SCHEMA "WebPage") g in
  graph_add (page_uri, DCTERMS "title", plain title) g.

(** Python's [int(s)] on a string: surrounding whitespace, an optional
    sign, decimal digits, single underscores between digits. *)
Definition is_digit (c : ascii) : bool :=
  let n := nat_of_ascii c in (48 <=? n)%nat && (n <=? 57)%nat.

Fixpoint int_digits (s : string) (acc : Z) (prev_digit : bool) : option Z :=
  match s with
  | EmptyString => if prev_digit then Some acc else None
  | String c r =>
      if is_digit c
      then int_digits r (10 * acc + Z.of_nat (nat_of_ascii c - 48)) true
      else if Ascii.eqb c "_" && prev_digit then int_digits r acc false
      else None
  end.

Definition py_int (s : string) : option Z :=
  match PyStr.strip s with
  | String "-" r => option_map Z.opp (int_digits r 0 false)
  | String "+" r => int_digits r 0 false
  | r => int_digits r 0 false
  end.

Definition create_typed_literal (value field : string) : term :=
  let f := PyStr.lower field in
  if PyStr.contains "date" f || PyStr.contains "birth" f || PyStr.contains "death" f
  then en value
  else if String.eqb f "age" || String.eqb f "height" then
    match py_int value with
    | Some z => int_lit z
    | None => en value
    end
  else if String.eqb f "gender" then
    let gender_normalized := PyStr.strip value in
    if String.eqb (PyStr.lower gender_normalized) "male" then plain "Male"
    else if String.eqb (PyStr.lower gender_normalized) "female" then plain "Female"
    else plain "Unknown"
  else en value.

(** [self.property_mappings.get(field, self.PROP[field])] *)
Definition field_property (field : string) : term :=
  match PyDict.get field property_mappings with
  | Some p => p
  | None => PROP field
  end.

(** The body of the loop of [add_infobox_triples] for one parameter. The
    value is the three-key dictionary Step 1 writes, so [if not value_data]
    never fires. *)
Definition add_infobox_field (resource_uri : term) (field : string)
    (value_data : attribute_value) (g : graph) : graph :=
  let cleaned_value := cleaned value_data in
  let internal_links := internal_links value_data in
  if negb (PyStr.truthy cleaned_value) || String.eqb (PyStr.strip cleaned_value) ""
  then g
  else
    let prop := field_property field in
    match internal_links with
    | _ :: _ =>
        fold_left
          (fun g link => graph_add (resource_uri, prop, create_uri link "resource") g)
          internal_links g
    | [] =>
        graph_add (resource_uri, prop, create_typed_literal cleaned_value field) g
    end.

Definition add_infobox_triples (e : entity) (resource_uri : term) (g : graph) : graph :=
  match e_infobox e with
  | None => g
  | Some infobox =>
      fold_left
        (fun g fv => add_infobox_field resource_uri (fst fv) (snd fv) g)
        (ib_parameters infobox) g
  end.

Definition process_entity (e : entity) (g : graph) : graph :=
  let entity_id := entity_id e in
  if negb (PyStr.truthy entity_id) then g
  else
    let resource_uri := create_uri entity_id "resource" in
    let page_uri := create_uri entity_id "page" in
    let g := add_basic_triples e resource_uri page_uri g in
    add_infobox_triples e resource_uri g.

(** [generate_from_file] once the entity list has been loaded: the
    generator starts from an empty graph. *)
Definition generate (entities : list entity) : graph :=
  fold_left (fun g e => process_entity e g) entities ∅.

(** *** Reading the builder's output *)

Definition is_literal (t : term) : bool :=
  match t with Lit _ => true | _ => false end.

Definition is_reference (t : term) : bool :=
  match t with URIRef _ => true | _ => false end.

(** The three gender literals of a trimmed, lowercased value. *)
Definition gender_of (value : string) : string :=
  let v := PyStr.lower (PyStr.strip value) in
  if String.eqb v "male" then "Male"
  else if String.eqb v "female" then "Female"
  else "Unknown".

(** The facts one attribute contributes when its cleaned value is not
    blank. *)
Definition attribute_facts (resource_uri : term) (field : string)
    (value_data : attribute_value) : graph :=
  match internal_links value_data with
  | [] =>
      {[ (resource_uri, field_property field,
          create_typed_literal (cleaned value_data) field) ]}
  | links =>
      list_to_set
        (map (fun link => (resource_uri, field_property field,
                           create_uri link "resource")) links)
  end.

(** The facts one record contributes: [process_entity] on an empty graph. *)
Definition entity_facts (e : entity) : graph := process_entity e ∅.

(** The seven facts [add_basic_triples] writes for a record. *)
Definition basic_facts (e : entity) : list triple :=
  let resource_uri := create_uri (entity_id e) "resource" in
  let page_uri := create_uri (entity_id e) "page" in
  [ (resource_uri, RDF "type", determine_class (etype e));
    (resource_uri, RDFS "label", en (title e));
    (resource_uri, SCHEMA "name", en (title e));
    (page_uri, FOAF "primaryTopic", resource_uri);
    (resource_uri, FOAF "isPrimaryTopicOf", page_uri);
    (page_uri, RDF "type", SCHEMA "WebPage");
    (page_uri, DCTERMS "title", plain (title e)) ].

(** The five classes of [type_mappings] and the default. *)
Definition schema_classes : list term :=
  [ SCHEMA "Person"; SCHEMA "Place"; SCHEMA "Thing"; SCHEMA "Event";
    SCHEMA "Organization" ].

End Step2.

(** ** Step 3: the shape synthesizer ([SHACLShapeGenerator]) *)

Module Step3.

Import Step1 Vocab.

(** The generator's mutable fields; [next_bnode] numbers the blank nodes
    that [BNode()] creates. *)
Record generator : Type := Generator {
  sgraph : graph;
  property_usage : list (option string * list (string * nat));
  property_datatypes : list (string * gset string);
  next_bnode : nat
}.

(** [SHACLShapeGenerator()] *)
Definition init : generator :=
  {| sgraph := ∅; property_usage := []; property_datatypes := []; next_bnode := 0 |}.

Definition infer_datatype (value field : string) : string :=
  let f := PyStr.lower field in
  if PyStr.contains "date" f then "xsd:string"
  else if String.eqb f "age" || String.eqb f "height" then
    match Step2.py_int value with
    | Some _ => "xsd:integer"
    | None => "xsd:string"
    end
  else if String.eqb f "gender" then "xsd:string"
  else "xsd:string".

(** [self.property_usage[entity_type][field] += 1] on nested
    [defaultdict]s. *)
Definition usage_incr (entity_type : option string) (field : string)
    (usage : list (option string * list (string * nat)))
    : list (option string * list (string * nat)) :=
  let inner := default [] (PyDict.get entity_type usage) in
  let n := default 0 (PyDict.get field inner) in
  PyDict.set entity_type (PyDict.set field (n + 1) inner) usage.

(** [self.property_datatypes[field].add(dt)] *)
Definition datatypes_add (field dt : string)
    (dts : list (string * gset string)) : list (string * gset string) :=
  let cur := default ∅ (PyDict.get field dts) in
  PyDict.set field (cur ∪ {[ dt ]}) dts.

(** The body of the inner loop of [analyze_entities]; as in Step 2, the
    value is never an empty dictionary. *)
Definition analyze_field (entity_type : option string) (gen : generator)
    (fv : string * attribute_value) : generator :=
  let (field, value_data) := fv in
  let usage := usage_incr entity_type field (property_usage gen) in
  let dts :=
    if PyStr.truthy (cleaned value_data)
    then datatypes_add field (infer_datatype (cleaned value_data) field)
           (property_datatypes gen)
    else property_datatypes gen in
  {| sgraph := sgraph gen; property_usage := usage;
     property_datatypes := dts; next_bnode := next_bnode gen |}.

Definition analyze_entity (gen : generator) (e : entity) : generator :=
  match e_infobox e with
  | None => gen
  | Some infobox => fold_left (analyze_field (etype e)) (ib_parameters infobox) gen
  end.

Definition analyze_entities (entities : list entity) (gen : generator) : generator :=
  fold_left analyze_entity entities gen.

(** [self.graph.add(t)] *)
Definition add (t : triple) (gen : generator) : generator :=
  {| sgraph := graph_add t (sgraph gen); property_usage := property_usage gen;
     property_datatypes := property_datatypes gen; next_bnode := next_bnode gen |}.

(** [BNode()] *)
Definition fresh (gen : generator) : term * generator :=
  (BNode (next_bnode gen),
   {| sgraph := sgraph gen; property_usage := property_usage gen;
      property_datatypes := property_datatypes gen;
      next_bnode := S (next_bnode gen) |}).

(** [Collection(graph, list_node)] followed by [collection += items]: the
    RDF list that starts at [node]; every item after the first sits on a
    new blank node. *)
Fixpoint collection_append (node : term) (items : list term) (gen : generator)
    : generator :=
  match items with
  | [] => add (node, RDF "rest", RDF "nil") gen
  | [x] => add (node, RDF "rest", RDF "nil") (add (node, RDF "first", x) gen)
  | x :: rest =>
      let gen := add (node, RDF "first", x) gen in
      let (nxt, gen) := fresh gen in
      let gen := add (node, RDF "rest", nxt) gen in
      collection_append nxt rest gen
  end.

Definition gender_values : list term :=
  [plain "Male"; plain "Female"; plain "Unknown"].

Definition create_gender_list (gen : generator) : term * generator :=
  let (list_node, gen) := fresh gen in
  (list_node, collection_append list_node gender_values gen).

(** [char_props.get(field, 0)] *)
Definition usage_count (char_props : list (string * nat)) (field : string) : nat :=
  default 0 (PyDict.get field char_props).

(** The property constraints of [create_character_shape], one block of
    the source each. *)
Definition name_constraint_block (shape_uri : term) (gen : generator) : generator :=
  let (name_constraint, gen) := fresh gen in
  let gen := add (name_constraint, SH "path", SCHEMA "name") gen in
  let gen := add (name_constraint, SH "minCount", int_lit 1) gen in
  let gen := add (name_constraint, SH "nodeKind", SH "Literal") gen in
  add (shape_uri, SH "property", name_constraint) gen.

Definition gender_constraint_block (shape_uri : term) (gen : generator) : generator :=
  let (gender_constraint, gen) := fresh gen in
  let gen := add (gender_constraint, SH "path", SCHEMA "gender") gen in
  let gen := add (gender_constraint, SH "datatype", URIRef (xsd "string")) gen in
  let (list_node, gen) := create_gender_list gen in
  let gen := add (gender_constraint, SH "in", list_node) gen in
  add (shape_uri, SH "property", gender_constraint) gen.

Definition race_constraint_block (shape_uri : term) (gen : generator) : generator :=
  let (race_constraint, gen) := fresh gen in
  let gen := add (race_constraint, SH "path", PROP "race") gen in
  let gen := add (race_constraint, SH "nodeKind", SH "IRIOrLiteral") gen in
  add (shape_uri, SH "property", race_constraint) gen.

Definition birth_constraint_block (shape_uri : term) (gen : generator) : generator :=
  let (birth_constraint, gen) := fresh gen in
  let gen := add (birth_constraint, SH "path", SCHEMA "birthPlace") gen in
  let gen := add (birth_constraint, SH "nodeKind", SH "IRIOrLiteral") gen in
  add (shape_uri, SH "property", birth_constraint) gen.

(** [threshold = total_characters * 0.8] is computed and never read. *)
Definition create_character_shape (total_characters : nat) (gen : generator)
    : term * generator :=
  let shape_uri := SHAPE "CharacterShape" in
  let gen := add (shape_uri, RDF "type", SH "NodeShape") gen in
  let gen := add (shape_uri, SH "targetClass", SCHEMA "Person") gen in
  let gen := add (shape_uri, RDFS "label", plain "Character Shape") gen in
  let gen := add (shape_uri, RDFS "comment",
                  plain "Validation shape for Tolkien Gateway characters") gen in
  let char_props :=
    default [] (PyDict.get (Some "infobox character") (property_usage gen)) in
  let gen := name_constraint_block shape_uri gen in
  let gen :=
    if (100 <? usage_count char_props "gender")%nat
    then gender_constraint_block shape_uri gen else gen in
  let gen :=
    if (100 <? usage_count char_props "race")%nat
    then race_constraint_block shape_uri gen else gen in
  let gen :=
    if (50 <? usage_count char_props "birthPlace")%nat
    then birth_constraint_block shape_uri gen else gen in
  (shape_uri, gen).

Definition create_place_shape (gen : generator) : term * generator :=
  let shape_uri := SHAPE "PlaceShape" in
  let gen := add (shape_uri, RDF "type", SH "NodeShape") gen in
  let gen := add (shape_uri, SH "targetClass", SCHEMA "Place") gen in
  let gen := add (shape_uri, RDFS "label", plain "Place Shape") gen in
  let (name_constraint, gen) := fresh gen in
  let gen := add (name_constraint, SH "path", SCHEMA "name") gen in
  let gen := add (name_constraint, SH "minCount", int_lit 1) gen in
  let gen := add (name_constraint, SH "nodeKind", SH "Literal") gen in
  (shape_uri, add (shape_uri, SH "property", name_constraint) gen).

Definition create_thing_shape (gen : generator) : term * generator :=
  let shape_uri := SHAPE "ThingShape" in
  let gen := add (shape_uri, RDF "type", SH "NodeShape") gen in
  let gen := add (shape_uri, SH "targetClass", SCHEMA "Thing") gen in
  let gen := add (shape_uri, RDFS "label", plain "Thing Shape") gen in
  let (name_constraint, gen) := fresh gen in
  let gen := add (name_constraint, SH "path", SCHEMA "name") gen in
  let gen := add (name_constraint, SH "minCount", int_lit 1) gen in
  (shape_uri, add (shape_uri, SH "property", name_constraint) gen).

Definition is_character (e : entity) : bool :=
  bool_decide (etype e = Some "infobox character").

Definition generate_shapes (entities : list entity) (gen : generator) : generator :=
  let gen := analyze_entities entities gen in
  let character_count := length (List.filter is_character entities) in
  let gen := snd (create_character_shape character_count gen) in
  let gen := snd (create_place_shape gen) in
  snd (create_thing_shape gen).

(** *** Reading a shape graph *)




(** [self.property_usage[entity_type][field]], 0 when absent. *)
Definition usage (entity_type : option string) (field : string)
    (u : list (option string * list (string * nat))) : nat :=
  usage_count (default [] (PyDict.get entity_type u)) field.

(** The infobox of the record carries the attribute [field]. *)
Definition has_field (field : string) (e : entity) : bool :=
  match e_infobox e with
  | Some ib => PyDict.mem field (ib_parameters ib)
  | None => false
  end.

(** The number of records whose class tag is exactly ['infobox character'],
    the key [create_character_shape] reads, and whose infobox carries the
    attribute [field]. Records under the tag ['character'] are not among
    them. *)
Definition observed_count (field : string) (entities : list entity) : nat :=
  length (List.filter (fun e => is_character e && has_field field e) entities).

(** The shape [shape] of [g] is a node shape that targets [cls] and asks
    for at least one [schema:name]. *)
Definition requires_name (g : graph) (shape cls : term) : Prop :=
  (shape, RDF "type", SH "NodeShape") ∈ g /\
  (shape, SH "targetClass", cls) ∈ g /\
  exists c, (shape, SH "property", c) ∈ g /\
    (c, SH "path", SCHEMA "name") ∈ g /\
    (c, SH "minCount", int_lit 1) ∈ g.

(** The character shape of [g] has a constraint on [path] that accepts
    IRIs and literals. *)
Definition has_path_constraint (g : graph) (path : term) : Prop :=
  exists c,
    (SHAPE "CharacterShape", SH "property", c) ∈ g /\
    (c, SH "path", path) ∈ g /\
    (c, SH "nodeKind", SH "IRIOrLiteral") ∈ g.

(** No constraint of [g] has the path [path]. *)
Definition no_path (path : term) (g : graph) : Prop :=
  forall c, (c, SH "path", path) ∉ g.

(** The number of records of type [ty] whose infobox carries [field]. *)
Definition typed_count (ty : option string) (field : string)
    (entities : list entity) : nat :=
  length (List.filter (fun e => bool_decide (etype e = ty) && has_field field e)
            entities).

(** The datatypes [infer_datatype] can record for [field]. *)
Definition datatype_of_field (field dt : string) : Prop :=
  dt = "xsd:string" \/
  (dt = "xsd:integer" /\
   (PyStr.lower field = "age" \/ PyStr.lower field = "height")).

End Step3.

(** ** JSON values and Python exceptions *)

#[local] Unset Elimination Schemes.
Inductive json : Type :=
  | JNull
  | JBool (b : bool)
  | JInt (z : Z)
  | JFloat (q : Q)
  | JStr (s : string)
  | JArr (l : list json)
  | JObj (kv : list (string * json)).
#[local] Set Elimination Schemes.

(** Truthiness of a loaded JSON value: [bool(v)]. *)
Definition json_truthy (v : json) : bool :=
  match v with
  | JNull => false
  | JBool b => b
  | JInt z => negb (z =? 0)%Z
  | JFloat q => negb (Qeq_bool q 0)
  | JStr s => PyStr.truthy s
  | JArr l => match l with [] => false | _ => true end
  | JObj kv => match kv with [] => false | _ => true end
  end.

(** A computation that returns a value or raises. *)
Inductive result (A : Type) : Type :=
  | Ok (a : A)
  | Raise (exn : string).

Arguments Ok {A} a.
Arguments Raise {A} exn.

#[global] Instance result_ret : MRet result := fun A a => Ok a.

#[global] Instance result_bind : MBind result := fun A B k r =>
  match r with
  | Ok a => k a
  | Raise e => Raise e
  end.

(** [str(n)] for a natural number. *)
Definition str_nat (n : nat) : string := NilZero.string_of_uint (Nat.to_uint n).

(** [str(z)] for an integer. *)
Definition str_Z (z : Z) : string := NilZero.string_of_int (Z.to_int z).

(** Strict comparison of scores. *)
Definition Qlt_bool (x y : Q) : bool := negb (Qle_bool y x).

(** ** Step 4: the reconciliation engine ([CombinedEnricher]) *)

Module Step4.

Import Vocab.

(** [self.stats] *)
Record metw_stats : Type := MetwStats {
  total_cards : nat;
  linked_cards : nat;
  metw_triples_added : nat
}.

Record csv_stats : Type := CsvStats {
  total_characters : nat;
  exact_matches : nat;
  fuzzy_matches : nat;
  no_matches : nat;
  csv_triples_added : nat;
  enriched_fields : list (string * nat)
}.

(** The enricher's mutable fields, and the lines printed so far. *)
Record enricher : Type := Enricher {
  kg : graph;
  entity_index : list (string * term);
  metw : metw_stats;
  csv : csv_stats;
  output : list string
}.

Definition initial_metw : metw_stats :=
  {| total_cards := 0; linked_cards := 0; metw_triples_added := 0 |}.

Definition initial_csv : csv_stats :=
  {| total_characters := 0; exact_matches := 0; fuzzy_matches := 0;
     no_matches := 0; csv_triples_added := 0;
     enriched_fields :=
       [ ("birth", 0); ("death", 0); ("gender", 0); ("hair", 0);
         ("height", 0); ("race", 0); ("realm", 0); ("spouse", 0) ] |}.

Definition with_kg (g : graph) (st : enricher) : enricher :=
  {| kg := g; entity_index := entity_index st; metw := metw st;
     csv := csv st; output := output st |}.

Definition with_metw (m : metw_stats) (st : enricher) : enricher :=
  {| kg := kg st; entity_index := entity_index st; metw := m;
     csv := csv st; output := output st |}.

Definition with_csv (c : csv_stats) (st : enricher) : enricher :=
  {| kg := kg st; entity_index := entity_index st; metw := metw st;
     csv := c; output := output st |}.

(** [print(line)] *)
Definition say (out : list string) (line : string) : list string :=
  app out [line].

Definition print (line : string) (st : enricher) : enricher :=
  {| kg := kg st; entity_index := entity_index st; metw := metw st;
     csv := csv st; output := say (output st) line |}.

(** [self.graph.add(t)] *)
Definition add (t : triple) (st : enricher) : enricher :=
  with_kg (graph_add t (kg st)) st.

(** [self.stats['csv']['enriched_fields'][field] += 1] *)
Definition count_enriched (field : string) (st : enricher) : enricher :=
  let c := csv st in
  let n := default 0 (PyDict.get field (enriched_fields c)) in
  with_csv
    {| total_characters := total_characters c; exact_matches := exact_matches c;
       fuzzy_matches := fuzzy_matches c; no_matches := no_matches c;
       csv_triples_added := csv_triples_added c;
       enriched_fields := PyDict.set field (n + 1) (enriched_fields c) |} st.

(** Truthiness of an rdflib term. *)
Definition term_truthy (t : term) : bool :=
  match t with
  | URIRef u => PyStr.truthy u
  | BNode _ => true
  | Lit l =>
      match lit_value l with
      | LexStr s => PyStr.truthy s
      | LexInt z => negb (z =? 0)%Z
      | LexFloat q => negb (Qeq_bool q 0)
      | LexBool b => b
      end
  end.

Definition clean_value (value : option string) : option string :=
  match value with
  | None => None
  | Some value =>
      if negb (PyStr.truthy value) || negb (PyStr.truthy (PyStr.strip value))
      then None
      else
        let cleaned := PyStr.strip value in
        if bool_decide (cleaned ∈ [","; "-"; ""; "None"; "none"]) then None
        else Some cleaned
  end.

Section Enricher.

(** [difflib.SequenceMatcher(None, a, b).ratio()] *)
Variable ratio : string -> string -> Q.

(** [str(x)] of a [float], of a blank node and of a JSON value that is not
    a string. *)
Variable float_str : Q -> string.
Variable bnode_str : nat -> string.
Variable json_repr : json -> string.

(** [str(t)] of an rdflib term. *)
Definition term_str (t : term) : string :=
  match t with
  | URIRef u => u
  | BNode n => bnode_str n
  | Lit l =>
      match lit_value l with
      | LexStr s => s
      | LexInt z => str_Z z
      | LexFloat q => float_str q
      | LexBool b => if b then "true" else "false"
      end
  end.

(** The rows [(?entity, ?name)] of the query of [_build_entity_index]. *)
Definition name_rows (g : graph) : list (term * term) :=
  omap (fun t : triple =>
          match t with
          | (s, p, o) => if decide (p = SCHEMA "name") then Some (s, o) else None
          end) (elements g).

Definition index_row (index : list (string * term)) (row : term * term)
    : list (string * term) :=
  let (entity_uri, name_term) := row in
  let name := PyStr.lower (term_str name_term) in
  let index := PyDict.set name entity_uri index in
  let index := PyDict.set (PyStr.replace " " "" name) entity_uri index in
  let normalized :=
    PyStr.replace "." "" (PyStr.replace "_" "" (PyStr.replace "-" "" name)) in
  PyDict.set normalized entity_uri index.

Definition build_entity_index (g : graph) : list (string * term) :=
  fold_left index_row (name_rows g) [].

Definition similarity_score (str1 str2 : string) : Q :=
  ratio (PyStr.lower str1) (PyStr.lower str2).

(** One step of the fuzzy loop of [find_best_match]. *)
Definition fuzzy_step (name : string) (threshold : Q)
    (best : option term * Q) (entry : string * term) : option term * Q :=
  let (best_match, best_score) := best in
  let (entity_name, entity_uri) := entry in
  let score := similarity_score name entity_name in
  if Qlt_bool best_score score && Qle_bool threshold score
  then (Some entity_uri, score)
  else (best_match, best_score).

Definition find_best_match (index : list (string * term)) (name : string)
    (threshold : Q) : option term * Q :=
  let name_lower := PyStr.lower name in
  match PyDict.get name_lower index with
  | Some uri => (Some uri, 1%Q)
  | None =>
      let name_no_spaces := PyStr.replace " " "" name_lower in
      match PyDict.get name_no_spaces index with
      | Some uri => (Some uri, 1%Q)
      | None =>
          match fold_left (fuzzy_step name threshold) index (None, 0%Q) with
          | (Some best_match, best_score) =>
              if term_truthy best_match then (Some best_match, best_score)
              else (None, 0%Q)
          | (None, _) => (None, 0%Q)
          end
      end
  end.

(** *** CSV enrichment *)

(** The pattern of every attribute block of [add_csv_character_triples]:
    [if value and not list(self.graph.objects(entity_uri, pred))], then
    the block's additions and its counter. *)
Definition fill_gap (field : string) (value : option string)
    (entity_uri pred : term) (emit : string -> enricher -> enricher)
    (st : enricher) : enricher :=
  match value with
  | Some v =>
      if PyStr.truthy v && bool_decide (objects (kg st) entity_uri pred = ∅)
      then count_enriched field (emit v st)
      else st
  | None => st
  end.

Definition provenance : term := en "LOTR Characters CSV Dataset".

Definition add_birth (entity_uri : term) (csv_data : list (string * string)) :=
  fill_gap "birth" (clean_value (PyDict.get "birth" csv_data))
    entity_uri (SCHEMA "birthDate")
    (fun birth => add (entity_uri, SCHEMA "birthDate", en birth)).

Definition add_death (entity_uri : term) (csv_data : list (string * string)) :=
  fill_gap "death" (clean_value (PyDict.get "death" csv_data))
    entity_uri (SCHEMA "deathDate")
    (fun death => add (entity_uri, SCHEMA "deathDate", en death)).

Definition add_gender (entity_uri : term) (csv_data : list (string * string)) :=
  fill_gap "gender" (clean_value (PyDict.get "gender" csv_data))
    entity_uri (SCHEMA "gender")
    (fun gender => add (entity_uri, SCHEMA "gender", en gender)).

Definition add_hair (entity_uri : term) (csv_data : list (string * string)) :=
  fill_gap "hair" (clean_value (PyDict.get "hair" csv_data))
    entity_uri (PROP "hairColor")
    (fun hair => add (entity_uri, PROP "hairColor", en hair)).

Definition add_height (entity_uri : term) (csv_data : list (string * string)) :=
  fill_gap "height" (clean_value (PyDict.get "height" csv_data))
    entity_uri (SCHEMA "height")
    (fun height => add (entity_uri, SCHEMA "height", en height)).

(** [[r.strip() for r in value.split(',')]] *)
Definition comma_tokens (value : string) : list string :=
  map PyStr.strip (PyStr.split "," value).

Definition add_race (entity_uri : term) (csv_data : list (string * string)) :=
  fill_gap "race" (clean_value (PyDict.get "race" csv_data))
    entity_uri (PROP "race")
    (fun race st =>
       fold_left
         (fun st single_race =>
            if PyStr.truthy single_race
            then add (entity_uri, PROP "race", en single_race) st
            else st)
         (comma_tokens race) st).

Definition add_realm (entity_uri : term) (csv_data : list (string * string)) :=
  fill_gap "realm" (clean_value (PyDict.get "realm" csv_data))
    entity_uri (PROP "realm")
    (fun realm st =>
       fold_left
         (fun st single_realm =>
            if PyStr.truthy single_realm then
              let realm_uri := RESOURCE (PyStr.replace " " "_" single_realm) in
              let st := add (entity_uri, PROP "realm", realm_uri) st in
              add (entity_uri, PROP "realmName", en single_realm) st
            else st)
         (comma_tokens realm) st).

Definition add_spouse (entity_uri : term) (csv_data : list (string * string)) :=
  fill_gap "spouse" (clean_value (PyDict.get "spouse" csv_data))
    entity_uri (SCHEMA "spouse")
    (fun spouse st =>
       match fst (find_best_match (entity_index st) spouse (9 # 10)) with
       | Some m =>
           if term_truthy m then add (entity_uri, SCHEMA "spouse", m) st
           else add (entity_uri, SCHEMA "spouse",
                     RESOURCE (PyStr.replace " " "_" spouse)) st
       | None =>
           add (entity_uri, SCHEMA "spouse",
                RESOURCE (PyStr.replace " " "_" spouse)) st
       end).

(** Returns the number of triples added and the new state. *)
Definition add_csv_character_triples (entity_uri : term)
    (csv_data : list (string * string)) (match_score : Q) (st : enricher)
    : nat * enricher :=
  let triples_before := graph_len (kg st) in
  let st := add (entity_uri, SCHEMA "isBasedOn", provenance) st in
  let st :=
    if Qlt_bool match_score 1
    then add (entity_uri, PROP "csvMatchScore", float_lit match_score) st
    else st in
  let st := add_birth entity_uri csv_data st in
  let st := add_death entity_uri csv_data st in
  let st := add_gender entity_uri csv_data st in
  let st := add_hair entity_uri csv_data st in
  let st := add_height entity_uri csv_data st in
  let st := add_race entity_uri csv_data st in
  let st := add_realm entity_uri csv_data st in
  let st := add_spouse entity_uri csv_data st in
  let st := add (entity_uri, SCHEMA "isBasedOn", provenance) st in
  (graph_len (kg st) - triples_before, st).

(** *** Reading the engine *)

(** The single-valued CSV attributes and their predicates. *)
Definition single_valued : list (string * term) :=
  [ ("birth", SCHEMA "birthDate"); ("death", SCHEMA "deathDate");
    ("gender", SCHEMA "gender"); ("hair", PROP "hairColor");
    ("height", SCHEMA "height") ].

(** The common shape of the five single-valued blocks. *)
Definition add_single (field : string) (pred : term) (entity_uri : term)
    (csv_data : list (string * string)) : enricher -> enricher :=
  fill_gap field (clean_value (PyDict.get field csv_data)) entity_uri pred
    (fun v => add (entity_uri, pred, en v)).

(** A step that keeps the index, only grows the graph, and only with
    facts about [entity_uri] under one of [preds]. *)
Definition touches (entity_uri : term) (preds : list term)
    (f : enricher -> enricher) : Prop :=
  forall st,
    entity_index (f st) = entity_index st /\
    kg st ⊆ kg (f st) /\
    forall s p o, (s, p, o) ∈ kg (f st) -> (s, p, o) ∉ kg st ->
      s = entity_uri /\ p ∈ preds.

(** What the fuzzy loop of [find_best_match] holds after the entries
    [seen]: either nothing was accepted, and no entry seen has a positive
    score that reaches the threshold, or the best entry is one of [seen],
    its score reaches the threshold and no entry seen scores higher. *)
Definition best_so_far (name : string) (threshold : Q)
    (seen : list (string * term)) (best : option term * Q) : Prop :=
  match best with
  | (None, best_score) =>
      best_score = 0%Q /\
      forall k u, In (k, u) seen ->
        ~ (0 < similarity_score name k /\ threshold <= similarity_score name k)%Q
  | (Some best_match, best_score) =>
      exists k, In (k, best_match) seen /\
        best_score = similarity_score name k /\
        (threshold <= best_score)%Q /\ (0 < best_score)%Q /\
        forall k' u', In (k', u') seen -> (similarity_score name k' <= best_score)%Q
  end.

(** The file system and the loaders: whether a path exists,
    [list(csv.DictReader(f))], [json.load(f)] and
    [Graph().parse(path, format='turtle')]. *)
Variable file_exists : string -> bool.
Variable read_csv : string -> result (list (list (string * string))).
Variable load_json : string -> result json.
Variable parse_turtle : string -> result graph.

Definition nl : string := String (ascii_of_nat 10) "".

Fixpoint repeat_str (s : string) (n : nat) : string :=
  match n with
  | O => ""
  | S k => s ++ repeat_str s k
  end.

(** ['='*60] *)
Definition rule : string := repeat_str "=" 60.

(** The body of the loop of [enrich_with_csv] for row number [i] of
    [total]. A row holds strings: a field that [csv.DictReader] leaves at
    [None] (a row shorter than the header) is an absent key here, which is
    what every [.get] of the code makes of it, except for the name, where
    [None.strip()] raises. A run with such a row does not return, and no
    row of the model stands for it: what is stated of a run is stated of
    a run that returns. *)
Definition csv_row (total : nat) (threshold : Q) (i : nat)
    (char_data : list (string * string)) (st : enricher) : enricher :=
  let name := PyStr.strip (default "" (PyDict.get "name" char_data)) in
  if negb (PyStr.truthy name) then st
  else
    let st :=
      if ((i + 1) mod 50 =? 0)%nat || (i + 1 =? total)%nat
      then print ("  Processing " ++ str_nat (i + 1) ++ "/" ++ str_nat total
                  ++ ": " ++ name) st
      else st in
    match find_best_match (entity_index st) name threshold with
    | (None, _) =>
        let c := csv st in
        with_csv
          {| total_characters := total_characters c;
             exact_matches := exact_matches c;
             fuzzy_matches := fuzzy_matches c;
             no_matches := no_matches c + 1;
             csv_triples_added := csv_triples_added c;
             enriched_fields := enriched_fields c |} st
    | (Some entity_uri, match_score) =>
        let c := csv st in
        let exact := Qeq_bool match_score 1 in
        let st :=
          with_csv
            {| total_characters := total_characters c;
               exact_matches := if exact then exact_matches c + 1 else exact_matches c;
               fuzzy_matches := if exact then fuzzy_matches c else fuzzy_matches c + 1;
               no_matches := no_matches c;
               csv_triples_added := csv_triples_added c;
               enriched_fields := enriched_fields c |} st in
        let (num_triples, st) :=
          add_csv_character_triples entity_uri char_data match_score st in
        let c := csv st in
        with_csv
          {| total_characters := total_characters c;
             exact_matches := exact_matches c;
             fuzzy_matches := fuzzy_matches c;
             no_matches := no_matches c;
             csv_triples_added := csv_triples_added c + num_triples;
             enriched_fields := enriched_fields c |} st
    end.

Fixpoint csv_loop (total : nat) (threshold : Q) (i : nat)
    (characters : list (list (string * string))) (st : enricher) : enricher :=
  match characters with
  | [] => st
  | char_data :: rest =>
      csv_loop total threshold (S i) rest (csv_row total threshold i char_data st)
  end.

Definition enrich_with_csv (csv_file : string) (fuzzy_threshold : Q)
    (st : enricher) : result enricher :=
  if negb (file_exists csv_file) then
    let st := print (nl ++ "WARNING: CSV file not found at " ++ csv_file) st in
    Ok (print "Skipping CSV enrichment..." st)
  else
    let st := print (nl ++ rule) st in
    let st := print "CSV CHARACTER ENRICHMENT" st in
    let st := print rule st in
    let st := print ("Loading characters from " ++ csv_file ++ "...") st in
    characters ← read_csv csv_file;
    let c := csv st in
    let st :=
      with_csv
        {| total_characters := length characters;
           exact_matches := exact_matches c;
           fuzzy_matches := fuzzy_matches c;
           no_matches := no_matches c;
           csv_triples_added := csv_triples_added c;
           enriched_fields := enriched_fields c |} st in
    let st := print ("Found " ++ str_nat (length characters) ++ " characters") st in
    let st := print (nl ++ "Matching and enriching (threshold="
                     ++ float_str fuzzy_threshold ++ ")...") st in
    let st := csv_loop (length characters) fuzzy_threshold 0 characters st in
    let st := print (nl ++ "✓ CSV enrichment complete!") st in
    let st := print ("  Exact matches: " ++ str_nat (exact_matches (csv st))) st in
    let st := print ("  Fuzzy matches: " ++ str_nat (fuzzy_matches (csv st))) st in
    let st := print ("  No matches: " ++ str_nat (no_matches (csv st))) st in
    Ok (print ("  Triples added: " ++ str_nat (csv_triples_added (csv st))) st).

(** *** METW card enrichment *)

(** [str(v)] of a loaded JSON value. *)
Definition py_str (v : json) : string :=
  match v with
  | JStr s => s
  | _ => json_repr v
  end.

(** [d.get(k, dflt)] *)
Definition json_get (k : string) (d : list (string * json)) (dflt : json) : json :=
  default dflt (PyDict.get k d).

(** The cards of the nested structure [{"AS": {"cards": {...}}, ...}]. *)
Fixpoint collect_set_cards (sets : list (string * json)) (all_cards : list json)
    : result (list json) :=
  match sets with
  | [] => Ok all_cards
  | (_, set_data) :: rest =>
      match set_data with
      | JObj sd =>
          match PyDict.get "cards" sd with
          | Some (JObj cards) => collect_set_cards rest (all_cards ++ map snd cards)
          | Some _ => Raise "AttributeError"
          | None => collect_set_cards rest all_cards
          end
      | _ => collect_set_cards rest all_cards
      end
  end.

(** [all_cards] as [enrich_with_metw] computes it from the loaded data. *)
Definition all_cards_of (cards_data : json) : result json :=
  match cards_data with
  | JObj kv =>
      all_cards ← collect_set_cards kv [];
      match all_cards with
      | [] => Ok (json_get "cards" kv (json_get "data" kv (JArr [])))
      | _ => Ok (JArr all_cards)
      end
  | _ => Ok cards_data
  end.

(** [len(cards)] and the items [enumerate(cards)] runs over. *)
Definition chars_of (s : string) : list json :=
  map (fun c => JStr (String c "")) (list_ascii_of_string s).

Definition iter_cards (cards : json) : result (list json) :=
  match cards with
  | JArr l => Ok l
  | JObj kv => Ok (map (fun e => JStr (fst e)) kv)
  | JStr s => Ok (chars_of s)
  | _ => Raise "TypeError"
  end.

(** [Literal(value)] for a Python number. *)
Definition number_lit (v : json) : option term :=
  match v with
  | JInt z => Some (int_lit z)
  | JFloat q => Some (Lit (Literal (LexFloat q) None (Some (xsd "double"))))
  | JBool b => Some (Lit (Literal (LexBool b) None (Some (xsd "boolean"))))
  | _ => None
  end.

(** The body of the loop over [card.items()]. *)
Definition add_card_property (card_uri : term) (st : enricher)
    (kv : string * json) : enricher :=
  let (key, value) := kv in
  if negb (bool_decide (key ∈ ["name"; "id"; "type"; "alignment"]))
     && json_truthy value then
    let prop_uri := METW ("card_" ++ key) in
    let value :=
      match value with
      | JObj o => json_get "en" o (JStr (py_str value))
      | _ => value
      end in
    match number_lit value with
    | Some l => add (card_uri, prop_uri, l) st
    | None => add (card_uri, prop_uri, en (py_str value)) st
    end
  else st.

(** The body of the loop of [enrich_with_metw] for card number [i]. *)
Definition metw_card (threshold : Q) (i : nat) (card : json) (st : enricher)
    : result enricher :=
  let st :=
    if ((i + 1) mod 50 =? 0)%nat
    then print ("  Linked " ++ str_nat (i + 1) ++ " cards...") st
    else st in
  match card with
  | JObj fields =>
      let card_name_obj := json_get "name" fields (JStr "") in
      let card_name :=
        match card_name_obj with
        | JObj names =>
            json_get "en" names (json_get "es" names (json_get "fr" names (JStr "")))
        | _ => card_name_obj
        end in
      let card_name := PyStr.strip (py_str card_name) in
      if negb (PyStr.truthy card_name) then Ok st
      else
        match fst (find_best_match (entity_index st) card_name threshold) with
        | None => Ok st
        | Some entity_uri =>
            let m := metw st in
            let st :=
              with_metw
                {| total_cards := total_cards m;
                   linked_cards := linked_cards m + 1;
                   metw_triples_added := metw_triples_added m |} st in
            let card_id :=
              json_get "id" fields (JStr (PyStr.replace " " "_" card_name)) in
            let card_uri := METW (py_str card_id) in
            let st := add (card_uri, RDF "type", SCHEMA "Thing") st in
            let st := add (card_uri, RDFS "label", en card_name) st in
            let st := add (entity_uri, SCHEMA "subjectOf", card_uri) st in
            let st := add (entity_uri, PROP "hasCard", card_uri) st in
            let st :=
              match PyDict.get "type" fields with
              | Some card_type =>
                  let card_type :=
                    match card_type with
                    | JObj o => json_get "en" o (JStr (py_str card_type))
                    | _ => card_type
                    end in
                  add (card_uri, SCHEMA "additionalType", en (py_str card_type)) st
              | None => st
              end in
            let st :=
              match PyDict.get "alignment" fields with
              | Some alignment =>
                  add (card_uri, SCHEMA "additionalProperty",
                       en ("alignment: " ++ py_str alignment)) st
              | None => st
              end in
            Ok (fold_left (add_card_property card_uri) fields st)
        end
  | _ => Raise "AttributeError"
  end.

Fixpoint metw_loop (threshold : Q) (i : nat) (cards : list json) (st : enricher)
    : result enricher :=
  match cards with
  | [] => Ok st
  | card :: rest =>
      st ← metw_card threshold i card st;
      metw_loop threshold (S i) rest st
  end.

Definition enrich_with_metw (cards_file : string) (fuzzy_threshold : Q)
    (st : enricher) : result enricher :=
  if negb (file_exists cards_file) then
    let st := print (nl ++ "WARNING: METW cards file not found at " ++ cards_file) st in
    Ok (print "Skipping METW enrichment..." st)
  else
    let st := print (nl ++ rule) st in
    let st := print "METW CARD ENRICHMENT" st in
    let st := print rule st in
    let st := print ("Loading cards from " ++ cards_file ++ "...") st in
    cards_data ← load_json cards_file;
    cards ← all_cards_of cards_data;
    items ← iter_cards cards;
    let st :=
      with_metw
        {| total_cards := length items;
           linked_cards := linked_cards (metw st);
           metw_triples_added := metw_triples_added (metw st) |} st in
    let st := print ("Found " ++ str_nat (length items) ++ " cards") st in
    let triples_before := graph_len (kg st) in
    st ← metw_loop fuzzy_threshold 0 items st;
    let st :=
      with_metw
        {| total_cards := total_cards (metw st);
           linked_cards := linked_cards (metw st);
           metw_triples_added := graph_len (kg st) - triples_before |} st in
    let st := print (nl ++ "✓ METW enrichment complete!") st in
    let st := print ("  Linked cards: " ++ str_nat (linked_cards (metw st))) st in
    Ok (print ("  Triples added: " ++ str_nat (metw_triples_added (metw st))) st).

(** *** The pipeline of [main] *)

(** [CombinedEnricher(kg_file)]; [out] holds the lines printed before. *)
Definition init (kg_file : string) (out : list string) : result enricher :=
  let out := say out ("Loading Knowledge Graph from " ++ kg_file ++ "...") in
  g ← parse_turtle kg_file;
  let out := say out ("Loaded " ++ str_nat (graph_len g) ++ " existing triples") in
  let index := build_entity_index g in
  let out := say out ("Built entity index with " ++ str_nat (length index)
                      ++ " entries") in
  Ok {| kg := g; entity_index := index; metw := initial_metw;
        csv := initial_csv; output := out |}.

(** [save_graph]: the new state and the file it writes. *)
Definition save_graph (output_file : string) (st : enricher)
    : enricher * (string * graph) :=
  let st := print (nl ++ "Saving enriched Knowledge Graph to " ++ output_file
                   ++ "...") st in
  (print ("✓ Saved " ++ str_nat (graph_len (kg st)) ++ " triples") st,
   (output_file, kg st)).

Definition print_summary (st : enricher) : enricher :=
  let m := metw st in
  let c := csv st in
  let st := print (nl ++ rule) st in
  let st := print "COMBINED ENRICHMENT SUMMARY" st in
  let st := print rule st in
  let st := print (nl ++ "METW Cards:") st in
  let st := print ("  Total cards: " ++ str_nat (total_cards m)) st in
  let st := print ("  Linked cards: " ++ str_nat (linked_cards m)) st in
  let st := print ("  Triples added: " ++ str_nat (metw_triples_added m)) st in
  let st := print (nl ++ "CSV Characters:") st in
  let st := print ("  Total characters: " ++ str_nat (total_characters c)) st in
  let st := print ("  Exact matches: " ++ str_nat (exact_matches c)) st in
  let st := print ("  Fuzzy matches: " ++ str_nat (fuzzy_matches c)) st in
  let st := print ("  No matches: " ++ str_nat (no_matches c)) st in
  let st := print ("  Triples added: " ++ str_nat (csv_triples_added c)) st in
  let total_enrichments := linked_cards m + exact_matches c + fuzzy_matches c in
  let total_triples := metw_triples_added m + csv_triples_added c in
  let st := print (nl ++ "Total:") st in
  let st := print ("  Entities enriched: " ++ str_nat total_enrichments) st in
  print ("  Triples added: " ++ str_nat total_triples) st.

Definition kg_file : string := "data/rdf/tolkien_kg.ttl".
Definition cards_file : string := "data/external/cards.json".
Definition csv_file : string := "data/external/lotr_characters.csv".
Definition output_file : string := "data/rdf/tolkien_kg_enriched.ttl".

(** How [main] ends: it stops when the base graph is missing, or it runs
    every stage and writes the enriched graph. *)
Inductive outcome : Type :=
  | Aborted (out : list string)
  | Completed (st : enricher) (written : string * graph).

Definition main : result outcome :=
  let out := [rule; "STEP 4: COMBINED ENRICHMENT (METW + CSV)"; rule] in
  if negb (file_exists kg_file) then
    Ok (Aborted (say (say out (nl ++ "ERROR: Base KG file not found: " ++ kg_file))
                     "Run Step 2 (RDF generation) first!"))
  else
    let out := say out (nl ++ "Initializing combined enricher...") in
    st ← init kg_file out;
    st ← enrich_with_metw cards_file (85 # 100) st;
    st ← enrich_with_csv csv_file (85 # 100) st;
    let (st, written) := save_graph output_file st in
    let st := print_summary st in
    let st := print (nl ++ rule) st in
    let st := print "✓ STEP 4 COMPLETE!" st in
    let st := print rule st in
    let st := print ("Enriched KG: " ++ output_file) st in
    let st := print (nl ++ "This file now contains:") st in
    let st := print "  ✓ Base Tolkien Gateway wiki data" st in
    let st := print "  ✓ METW card game enrichments" st in
    let st := print "  ✓ LOTR CSV character enrichments" st in
    let st := print (nl ++ "Next step:") st in
    let st := print "  → python parsers/Step5_add_multilingual_labels.py" st in
    Ok (Completed (print rule st) written).

End Enricher.

(** *** Reading a whole row and a whole run *)

(** The predicates [add_csv_character_triples] writes under. *)
Definition csv_predicates : list term :=
  [ SCHEMA "isBasedOn"; PROP "csvMatchScore"; SCHEMA "birthDate";
    SCHEMA "deathDate"; SCHEMA "gender"; PROP "hairColor"; SCHEMA "height";
    PROP "race"; PROP "realm"; PROP "realmName"; SCHEMA "spouse" ].

(** From [st] to [st'] the index is kept, the graph only grows, and every
    new fact is about one of [subjects] under one of [preds]. *)
Definition grown (subjects : term -> Prop) (preds : list term)
    (st st' : enricher) : Prop :=
  entity_index st' = entity_index st /\
  kg st ⊆ kg st' /\
  forall s p o, (s, p, o) ∈ kg st' -> (s, p, o) ∉ kg st ->
    subjects s /\ p ∈ preds.

(** The entities an index can return. *)
Definition indexed (index : list (string * term)) (s : term) : Prop :=
  exists k, In (k, s) index.

(** The rows [enrich_with_csv] does not skip: those with a name. *)
Definition named_row (char_data : list (string * string)) : bool :=
  PyStr.truthy (PyStr.strip (default "" (PyDict.get "name" char_data))).

(** Rows accounted for by the three match counters. *)
Definition accounted (c : csv_stats) : nat :=
  exact_matches c + fuzzy_matches c + no_matches c.

(** The non-empty tokens of a comma-separated value. *)
Definition value_tokens (value : string) : list string :=
  List.filter PyStr.truthy (comma_tokens value).

(** The object of the spouse fact: the matched entity, or a new resource
    named after the raw value. *)
Definition spouse_target (ratio : string -> string -> Q)
    (index : list (string * term)) (spouse : string) : term :=
  match fst (find_best_match ratio index spouse (9 # 10)) with
  | Some m =>
      if term_truthy m then m else RESOURCE (PyStr.replace " " "_" spouse)
  | None => RESOURCE (PyStr.replace " " "_" spouse)
  end.

(** The row counters of the CSV statistics. *)
Definition match_counters (st : enricher) : nat * nat * nat * nat :=
  (total_characters (csv st), exact_matches (csv st), fuzzy_matches (csv st),
   no_matches (csv st)).

(** The fuzzy loop of [find_best_match], with the place of the best entry:
    every entry before it scores strictly lower, every entry after it
    scores at most as high. *)
Definition first_best (ratio : string -> string -> Q) (name : string)
    (threshold : Q) (seen : list (string * term)) (best : option term * Q)
    : Prop :=
  match best with
  | (None, best_score) =>
      best_score = 0%Q /\
      forall k u, In (k, u) seen ->
        ~ (0 < similarity_score ratio name k
           /\ threshold <= similarity_score ratio name k)%Q
  | (Some best_match, best_score) =>
      exists before k after,
        seen = (before ++ (k, best_match) :: after)%list /\
        best_score = similarity_score ratio name k /\
        (threshold <= best_score)%Q /\ (0 < best_score)%Q /\
        (forall k' u', In (k', u') before ->
           (similarity_score ratio name k' < best_score)%Q) /\
        (forall k' u', In (k', u') after ->
           (similarity_score ratio name k' <= best_score)%Q)
  end.

(** The placeholder values [clean_value] treats as absent. *)
Definition placeholders : list string := [","; "-"; ""; "None"; "none"].

(** The name [enrich_with_metw] reads off a card: the English, Spanish or
    French form of a multilingual name, else the name itself, as text and
    trimmed. *)
Definition card_name_of (json_repr : json -> string)
    (fields : list (string * json)) : string :=
  let py_str := fun v => match v with JStr s => s | _ => json_repr v end in
  let card_name_obj := default (JStr "") (PyDict.get "name" fields) in
  let card_name :=
    match card_name_obj with
    | JObj names =>
        default (default (default (JStr "") (PyDict.get "fr" names))
                   (PyDict.get "es" names)) (PyDict.get "en" names)
    | _ => card_name_obj
    end in
  PyStr.strip (py_str card_name).

(** The card's URI: its [id], or its name with underscores for blanks. *)
Definition card_uri_of (json_repr : json -> string)
    (fields : list (string * json)) : term :=
  let py_str := fun v => match v with JStr s => s | _ => json_repr v end in
  METW (py_str (default (JStr (PyStr.replace " " "_" (card_name_of json_repr fields)))
                  (PyDict.get "id" fields))).

(** The facts the card enrichment may add: facts about a card, and the two
    links from an indexed entity to a card. *)
Definition card_fact (index : list (string * term)) (t : triple) : Prop :=
  let '(s, p, o) := t in
  (exists x, s = METW x) \/
  (indexed index s /\ p ∈ [SCHEMA "subjectOf"; PROP "hasCard"] /\
   exists x, o = METW x).

(** What one card, and a whole run over the cards, may do to the engine. *)
Definition card_step (bound : nat) (st st' : enricher) : Prop :=
  entity_index st' = entity_index st /\ csv st' = csv st /\
  kg st ⊆ kg st' /\
  (forall t, t ∈ kg st' -> t ∉ kg st -> card_fact (entity_index st) t) /\
  total_cards (metw st') = total_cards (metw st) /\
  linked_cards (metw st) <= linked_cards (metw st') /\
  linked_cards (metw st') <= linked_cards (metw st) + bound.

(** [s] carries a [schema:name] in [g]. *)
Definition named_in (g : graph) (s : term) : Prop :=
  exists o, (s, SCHEMA "name", o) ∈ g.

(** The predicates of the two links from an entity to a card. *)
Definition card_link_predicates : list term :=
  [ SCHEMA "subjectOf"; PROP "hasCard" ].

(** The three keys [_build_entity_index] registers for a name: the
    lowercased name, that name without blanks, and that name without
    hyphens, underscores and dots. *)
Definition name_keys (float_str : Q -> string) (bnode_str : nat -> string)
    (name_term : term) : list string :=
  let name := PyStr.lower (term_str float_str bnode_str name_term) in
  [ name; PyStr.replace " " "" name;
    PyStr.replace "." "" (PyStr.replace "_" "" (PyStr.replace "-" "" name)) ].

(** *** Sample data *)

(** A similarity that tells equal strings from different ones, as
    [SequenceMatcher.ratio] does at its two ends. *)
Definition exact_ratio (a b : string) : Q :=
  if String.eqb a b then 1%Q else 0%Q.

Definition frodo : term := RESOURCE "Frodo_Baggins".

(** An enricher whose graph knows Frodo's name and birth date. *)
Definition frodo_enricher : enricher :=
  {| kg := {[ (frodo, SCHEMA "birthDate", en "TA 2968") ]};
     entity_index := [("frodo baggins", frodo); ("frodobaggins", frodo)];
     metw := initial_metw; csv := initial_csv; output := [] |}.

(** A CSV row with a conflicting birth date, and one with a height only. *)
Definition frodo_birth_row : list (string * string) :=
  [("name", "Frodo Baggins"); ("birth", "22 September ,TA 2968")].

Definition frodo_height_row : list (string * string) :=
  [("name", "Frodo Baggins"); ("birth", ""); ("death", ""); ("gender", "");
   ("hair", ""); ("height", "4ft"); ("race", ""); ("realm", "");
   ("spouse", "")].

(** A graph that knows Frodo's name, and a card that bears it. *)
Definition frodo_graph : graph :=
  {[ (frodo, SCHEMA "name", en "Frodo Baggins") ]}.

Definition frodo_card : json :=
  JObj [("name", JStr "Frodo Baggins"); ("id", JStr "frodo-1")].

(** A similarity under which ["frodo"] is close to every key. *)
Definition frodo_ratio (a b : string) : Q :=
  if String.eqb a "frodo" then 9 # 10 else 0.

(** A file system that holds the base graph only. *)
Definition only_base_graph (path : string) : bool := String.eqb path kg_file.

End Step4.

(** ** Step 1: the batch run ([parse_all_pages], [create_entity_index]) *)

Module Batch.

Import Step1.

(** [stats] of [parse_all_pages]; a failed page is listed under the
    value of its [title] key. *)
Record statistics : Type := Statistics {
  total_pages : nat;
  successful : nat;
  failed : nat;
  with_infobox : nat;
  without_infobox : nat;
  infobox_types : list (option string * nat);
  failed_pages : list json
}.

(** One entry of the entity index. *)
Record index_entry : Type := IndexEntry {
  ie_entity_id : string;
  ie_title : string;
  ie_page_id : option Z
}.

(** [pages_list] as [parse_all_pages] takes it from the loaded data. *)
Definition pages_list_of (pages_data : json) : json :=
  match pages_data with
  | JObj kv =>
      match PyDict.get "pages" kv with
      | Some pages => pages
      | None => JArr [pages_data]
      end
  | _ => pages_data
  end.

(** [len(pages_list)] and the items [enumerate(pages_list)] runs over. *)
Definition iter_pages (pages_list : json) : result (list json) :=
  match pages_list with
  | JArr l => Ok l
  | JObj kv => Ok (map (fun e => JStr (fst e)) kv)
  | JStr s => Ok (map (fun c => JStr (String c "")) (list_ascii_of_string s))
  | _ => Raise "TypeError"
  end.

(** [stats['infobox_types'][infobox_type] += 1] on a [defaultdict(int)]. *)
Definition count_type (ty : option string) (types : list (option string * nat))
    : list (option string * nat) :=
  PyDict.set ty (default 0 (PyDict.get ty types) + 1) types.

(** [entity.get('infobox')] is truthy. *)
Definition has_infobox (e : entity) : bool :=
  match e_infobox e with Some _ => true | None => false end.

Definition initial_statistics (n : nat) : statistics :=
  {| total_pages := n; successful := 0; failed := 0; with_infobox := 0;
     without_infobox := 0; infobox_types := []; failed_pages := [] |}.

Definition count_failed (title : json) (stats : statistics) : statistics :=
  {| total_pages := total_pages stats; successful := successful stats;
     failed := failed stats + 1; with_infobox := with_infobox stats;
     without_infobox := without_infobox stats;
     infobox_types := infobox_types stats;
     failed_pages := (failed_pages stats ++ [title])%list |}.

Definition count_successful (entity : entity) (stats : statistics) : statistics :=
  if has_infobox entity then
    {| total_pages := total_pages stats; successful := successful stats + 1;
       failed := failed stats; with_infobox := with_infobox stats + 1;
       without_infobox := without_infobox stats;
       infobox_types := count_type (etype entity) (infobox_types stats);
       failed_pages := failed_pages stats |}
  else
    {| total_pages := total_pages stats; successful := successful stats + 1;
       failed := failed stats; with_infobox := with_infobox stats;
       without_infobox := without_infobox stats + 1;
       infobox_types := infobox_types stats;
       failed_pages := failed_pages stats |}.

Section Run.

(** [parser.parse_page(page_data)]: a record, [None], or an exception. *)
Variable parse_page : json -> result (option entity).

(** [json.load] of the file at a path. *)
Variable load_json : string -> result json.

(** The body of the loop of [parse_all_pages] for page number [i]: reading
    the title of a page that is not a JSON object raises outside the
    [try]; every exception of [parse_page] is caught and counted. *)
Definition page_step (i : nat) (page_data : json)
    (acc : statistics * list entity) : result (statistics * list entity) :=
  let (stats, normalized_entities) := acc in
  match page_data with
  | JObj kv =>
      let title := default (JStr ("Unknown_" ++ str_nat i)) (PyDict.get "title" kv) in
      match parse_page page_data with
      | Ok (Some entity) =>
          Ok (count_successful entity stats, (normalized_entities ++ [entity])%list)
      | Ok None => Ok (count_failed title stats, normalized_entities)
      | Raise _ => Ok (count_failed title stats, normalized_entities)
      end
  | _ => Raise "AttributeError"
  end.

Fixpoint pages_loop (i : nat) (pages : list json)
    (acc : statistics * list entity) : result (statistics * list entity) :=
  match pages with
  | [] => Ok acc
  | page_data :: rest =>
      acc ← page_step i page_data acc;
      pages_loop (S i) rest acc
  end.

(** [parse_all_pages]: the statistics it returns and the records it
    writes to the output file. *)
Definition parse_all_pages (input_file : string)
    : result (statistics * list entity) :=
  pages_data ← load_json input_file;
  pages ← iter_pages (pages_list_of pages_data);
  pages_loop 0 pages (initial_statistics (length pages), []).

End Run.

(** The body of the loop of [create_entity_index]. *)
Definition index_entity (index : list (option string * list index_entry))
    (e : entity) : list (option string * list index_entry) :=
  let entity_type := etype e in
  PyDict.set entity_type
    (default [] (PyDict.get entity_type index)
     ++ [ {| ie_entity_id := entity_id e; ie_title := title e;
             ie_page_id := page_id e |} ])%list
    index.

(** [create_entity_index]: the index it writes. *)
Definition create_entity_index (normalized_entities : list entity)
    : list (option string * list index_entry) :=
  fold_left index_entity normalized_entities [].

(** The entry of a record, and the records of a type. *)
Definition entry_of (e : entity) : index_entry :=
  {| ie_entity_id := entity_id e; ie_title := title e; ie_page_id := page_id e |}.

Definition of_type (ty : option string) (e : entity) : bool :=
  bool_decide (etype e = ty).

(** What the statistics say of the records emitted after [n] pages. *)
Definition consistent (parse_page : json -> result (option entity)) (n : nat)
    (acc : statistics * list entity) : Prop :=
  let (stats, entities) := acc in
  successful stats + failed stats = n /\
  with_infobox stats + without_infobox stats = successful stats /\
  length entities = successful stats /\
  length (failed_pages stats) = failed stats /\
  with_infobox stats = length (List.filter has_infobox entities) /\
  list_sum (map snd (infobox_types stats)) = with_infobox stats /\
  (forall ty,
     default 0 (PyDict.get ty (infobox_types stats))
     = length (List.filter (fun e => has_infobox e && of_type ty e) entities)) /\
  Forall (fun e => exists page, parse_page page = Ok (Some e)) entities.

(** A page that is a JSON object. *)
Definition is_object (page : json) : Prop := exists kv, page = JObj kv.

End Batch.

(** * Properties *)

(** ** Dictionaries *)

Section DictFacts.
Context {K V : Type} `{EqDecision K}.
Implicit Types (k : K) (v : V) (d : list (K * V)).

Lemma get_set_eq k v d : PyDict.get k (PyDict.set k v d) = Some v.
Proof.
  induction d as [|[k' v'] r IH]; simpl.
  - by rewrite decide_True.
  - destruct (decide (k = k')) as [->|Hne]; simpl.
    + by rewrite decide_True.
    + by rewrite decide_False.
Qed.

Lemma get_set_ne k k' v d :
  k <> k' -> PyDict.get k' (PyDict.set k v d) = PyDict.get k' d.
Proof.
  intros Hne. induction d as [|[k0 v0] r IH]; simpl.
  - by rewrite decide_False.
  - destruct (decide (k = k0)) as [->|Hne0]; simpl.
    + by rewrite !(decide_False (P := k' = k0)).
    + by rewrite IH.
Qed.

Lemma get_Some_In k v d : PyDict.get k d = Some v -> In (k, v) d.
Proof.
  induction d as [|[k' v'] r IH]; simpl; [done|].
  destruct (decide (k = k')) as [->|Hne].
  - intros [= ->]. by left.
  - intros H'. right. by apply IH.
Qed.

(** Writing a key keeps the property that every entry satisfies [P]. *)
Lemma set_Forall (P : K * V -> Prop) k v d :
  P (k, v) -> Forall P d -> Forall P (PyDict.set k v d).
Proof.
  intros Hkv. induction 1 as [|[k0 v0] r H0 Hr IH]; simpl.
  - by constructor.
  - destruct (decide (k = k0)) as [->|Hne]; constructor; auto.
Qed.

(** A dictionary keeps one entry per key. *)
Lemma set_keys k v d x :
  x ∈ map fst (PyDict.set k v d) -> x = k \/ x ∈ map fst d.
Proof.
  induction d as [|[k0 v0] r IH]; simpl.
  - rewrite list_elem_of_singleton. tauto.
  - destruct (decide (k = k0)) as [->|Hne]; simpl; [tauto|].
    rewrite !elem_of_cons. intros [->|Hx]; [tauto|].
    destruct (IH Hx); tauto.
Qed.

Lemma set_NoDup k v d :
  NoDup (map fst d) -> NoDup (map fst (PyDict.set k v d)).
Proof.
  induction d as [|[k0 v0] r IH]; simpl.
  - intros _. apply NoDup_singleton.
  - rewrite NoDup_cons. intros [Hhd Htl].
    destruct (decide (k = k0)) as [->|Hne]; simpl; rewrite NoDup_cons.
    + done.
    + split; [|by apply IH].
      intros [->|Hx]%set_keys; done.
Qed.

End DictFacts.

(** ** Graphs *)

Lemma elem_of_objects (g : graph) (s p o : term) :
  o ∈ objects g s p <-> (s, p, o) ∈ g.
Proof.
  unfold objects. rewrite elem_of_set_omap. split.
  - intros [[[s' p'] o'] [Hin Hf]].
    destruct (decide (s' = s /\ p' = p)) as [[-> ->]|]; [|done].
    by injection Hf as ->.
  - intros Hin. exists (s, p, o). split; [done|].
    by rewrite decide_True.
Qed.

Lemma objects_add_same (g : graph) (s p o : term) :
  objects (graph_add (s, p, o) g) s p = objects g s p ∪ {[ o ]}.
Proof.
  apply set_eq. intros x. rewrite elem_of_union, !elem_of_objects.
  unfold graph_add. set_solver.
Qed.

Lemma objects_add_other (g : graph) (s p s' p' o' : term) :
  ~ (s' = s /\ p' = p) ->
  objects (graph_add (s', p', o') g) s p = objects g s p.
Proof.
  intros Hne. apply set_eq. intros x. rewrite !elem_of_objects.
  unfold graph_add. rewrite elem_of_union, elem_of_singleton.
  split; [|tauto]. intros [?|[= <- <- <-]]; [done|]. by destruct Hne.
Qed.

(** Adding a list of triples one by one. *)
Lemma fold_graph_add {A : Type} (f : A -> triple) (l : list A) (g : graph) :
  fold_left (fun g x => graph_add (f x) g) l g = g ∪ list_to_set (map f l).
Proof.
  revert g. induction l as [|x l IH]; intros g; simpl.
  - set_solver.
  - rewrite IH. unfold graph_add. set_solver.
Qed.

(** ** Step 1: the key normalizer *)

Section KeyNormalizer.
Import Step1.

(** C6 (as stated, refuted). The raw key ["parentage"] is already in
    normal form, the override table holds ["parentage"] for it, and
    [normalize_key] returns ["parentage"], which is not ["parent"]. *)
Lemma normalize_key_parentage_not_parent :
  key_form "parentage" = "parentage" /\
  PyDict.get "parentage" key_normalizations = Some "parentage" /\
  normalize_key "parentage" <> "parent".
Proof. by vm_compute. Qed.

(** C6 (amended). The override table maps ["birth_date"] to ["birthDate"]
    and ["parentage"] to itself: every raw key whose lowercased, trimmed,
    space-to-underscore form is ["parentage"] is normalized to
    ["parentage"]. The two names meet only in the fact builder, whose
    property table sends both ["parent"] and ["parentage"] to
    [schema:parent]. *)
Theorem normalize_key_parentage (key : string) :
  key_form key = "parentage" ->
  normalize_key key = "parentage" /\
  PyDict.get "birth_date" key_normalizations = Some "birthDate" /\
  PyDict.get "parentage" key_normalizations = Some "parentage" /\
  Step2.field_property "parentage" = Vocab.SCHEMA "parent" /\
  Step2.field_property "parent" = Vocab.SCHEMA "parent".
Proof.
  intros Hform. split; [|by vm_compute].
  unfold normalize_key. by rewrite Hform.
Qed.

Lemma normalize_key_parentage_witness :
  key_form " Parentage " = "parentage" /\
  normalize_key " Parentage " = "parentage".
Proof.
  split; [reflexivity|].
  apply (normalize_key_parentage " Parentage "). reflexivity.
Defined.

(** The other entry the claim names: a raw key of form ["birth_date"]. *)
Lemma normalize_key_birth_date (key : string) :
  key_form key = "birth_date" -> normalize_key key = "birthDate".
Proof. intros Hform. unfold normalize_key. by rewrite Hform. Qed.

End KeyNormalizer.

(** ** Step 2: the fact builder *)

Section FactBuilder.
Import Step1 Step2 Vocab.

(** C3 (as stated, refuted). ["female"] is none of ["male"], ["MALE"],
    ["Male "], yet it is normalized to ["Female"], not to ["Unknown"]. *)
Lemma gender_female_not_unknown :
  create_typed_literal "female" "gender" = plain "Female" /\
  create_typed_literal "female" "gender" <> plain "Unknown".
Proof. by vm_compute. Qed.

(** C3 (amended). For the attribute named ["gender"] the literal carries
    no language tag and no datatype, and its text is ["Male"] when the
    trimmed value is ["male"] up to case (so for ["male"], ["MALE"] and
    ["Male "]), ["Female"] when it is ["female"] up to case, and
    ["Unknown"] for every other value. *)
Theorem gender_literal_normalized (value : string) :
  create_typed_literal value "gender"
    = Lit {| lit_value := LexStr (gender_of value);
             lit_lang := None; lit_datatype := None |} /\
  gender_of "male" = "Male" /\
  gender_of "MALE" = "Male" /\
  gender_of "Male " = "Male" /\
  gender_of "female" = "Female" /\
  (gender_of value = "Male" \/ gender_of value = "Female"
   \/ gender_of value = "Unknown").
Proof.
  split; [|repeat split; try reflexivity].
  - unfold create_typed_literal, gender_of.
    change (PyStr.lower "gender") with "gender". cbn [PyStr.contains].
    change (PyStr.contains "date" "gender") with false.
    change (PyStr.contains "birth" "gender") with false.
    change (PyStr.contains "death" "gender") with false.
    change (String.eqb "gender" "age") with false.
    change (String.eqb "gender" "height") with false.
    change (String.eqb "gender" "gender") with true.
    cbn [orb]. by repeat case_match.
  - unfold gender_of. repeat case_match; auto.
Qed.

(** The blank test of [add_infobox_triples]. *)
Lemma blank_test (c : string) :
  negb (PyStr.truthy c) || String.eqb (PyStr.strip c) "" = true
  <-> PyStr.strip c = "".
Proof.
  rewrite orb_true_iff, String.eqb_eq. split; [|tauto].
  intros [Hc|Hc]; [|done].
  unfold PyStr.truthy in Hc. rewrite negb_involutive in Hc.
  apply String.eqb_eq in Hc. by subst c.
Qed.

(** C10. An attribute whose cleaned value is empty or made of whitespace
    only leaves the graph as it is: no literal fact and no reference
    fact, whatever its list of links. *)
Theorem blank_attribute_emits_nothing
    (resource_uri : term) (field : string) (value_data : attribute_value)
    (g : graph) :
  PyStr.strip (cleaned value_data) = "" ->
  add_infobox_field resource_uri field value_data g = g.
Proof.
  intros Hblank%blank_test. unfold add_infobox_field. by rewrite Hblank.
Qed.

Lemma blank_attribute_emits_nothing_witness :
  add_infobox_field (RESOURCE "Frodo") "race"
    {| raw := "<!-- [[Hobbit]] -->"; cleaned := "  ";
       internal_links := ["Hobbit"] |} ∅ = ∅.
Proof.
  apply (blank_attribute_emits_nothing (RESOURCE "Frodo") "race"
           {| raw := "<!-- [[Hobbit]] -->"; cleaned := "  ";
              internal_links := ["Hobbit"] |} ∅).
  reflexivity.
Defined.

(** The whole loop skips blank attributes: they can be removed from the
    record without changing the facts. *)
Lemma add_infobox_triples_skips_blank
    (resource_uri : term) (ps : list (string * attribute_value)) (g : graph) :
  fold_left (fun g fv => add_infobox_field resource_uri (fst fv) (snd fv) g) ps g
  = fold_left (fun g fv => add_infobox_field resource_uri (fst fv) (snd fv) g)
      (List.filter
         (fun fv => negb (String.eqb (PyStr.strip (cleaned (snd fv))) "")) ps) g.
Proof.
  revert g. induction ps as [|[f vd] ps IH]; intros g; simpl; [done|].
  destruct (String.eqb (PyStr.strip (cleaned vd)) "") eqn:E; simpl.
  - apply String.eqb_eq, blank_test in E.
    unfold add_infobox_field at 2. rewrite E. apply IH.
  - apply IH.
Qed.

Lemma create_uri_is_reference (name uri_type : string) :
  is_reference (create_uri name uri_type) = true.
Proof. unfold create_uri. by repeat case_match. Qed.

Lemma create_typed_literal_is_literal (value field : string) :
  is_literal (create_typed_literal value field) = true.
Proof. unfold create_typed_literal. by repeat case_match. Qed.

(** C4 (as stated, refuted). An attribute with the link [Hobbit] and an
    empty cleaned value (an infobox value that is one HTML comment around
    a link) yields no fact at all: the reference fact the claim asks for
    is not emitted. *)
Lemma linked_blank_attribute_emits_no_reference :
  extract_internal_links "<!-- [[Hobbit]] -->" = ["Hobbit"] /\
  (RESOURCE "Frodo", PROP "race", RESOURCE "Hobbit")
    ∉ add_infobox_field (RESOURCE "Frodo") "race"
        {| raw := "<!-- [[Hobbit]] -->"; cleaned := "";
           internal_links := ["Hobbit"] |} ∅.
Proof. split; [reflexivity|]. vm_compute. set_solver. Qed.

(** C4 (amended). For an attribute whose cleaned value is not blank: when
    its list of links is not empty, the builder adds exactly one reference
    fact per linked entity under the attribute's predicate and no literal
    fact; when the list is empty it adds exactly one literal fact. Every
    new fact with a literal object therefore comes from an attribute
    without links. *)
Theorem links_exclude_literal
    (resource_uri : term) (field : string) (value_data : attribute_value)
    (g : graph) :
  PyStr.strip (cleaned value_data) <> "" ->
  let g' := add_infobox_field resource_uri field value_data g in
  g' = g ∪ attribute_facts resource_uri field value_data /\
  (internal_links value_data <> [] ->
     (forall link, link ∈ internal_links value_data ->
        (resource_uri, field_property field, create_uri link "resource") ∈ g') /\
     (forall t, t ∈ g' -> t ∉ g ->
        is_reference t.2 = true /\
        exists link, link ∈ internal_links value_data /\
          t = (resource_uri, field_property field, create_uri link "resource"))) /\
  (internal_links value_data = [] ->
     g' = g ∪ {[ (resource_uri, field_property field,
                  create_typed_literal (cleaned value_data) field) ]}) /\
  (forall t, t ∈ g' -> t ∉ g -> is_literal t.2 = true ->
     internal_links value_data = []).
Proof.
  intros Hnb g'.
  assert (Hg' : g' = g ∪ attribute_facts resource_uri field value_data).
  { subst g'. unfold add_infobox_field, attribute_facts.
    destruct (negb _ || _) eqn:E; [by apply blank_test in E|].
    destruct (internal_links value_data) as [|l ls]; [done|].
    apply (fold_graph_add
             (fun link => (resource_uri, field_property field,
                           create_uri link "resource"))). }
  assert (Hnew : forall t, t ∈ g' -> t ∉ g -> internal_links value_data <> [] ->
            exists link, link ∈ internal_links value_data /\
              t = (resource_uri, field_property field, create_uri link "resource")).
  { intros t Ht Hng Hl. rewrite Hg' in Ht.
    apply elem_of_union in Ht as [Ht|Ht]; [done|].
    unfold attribute_facts in Ht.
    destruct (internal_links value_data) as [|l ls] eqn:El; [done|].
    apply elem_of_list_to_set, list_elem_of_fmap in Ht as (link & -> & Hin).
    by exists link. }
  split; [done|]. split; [|split].
  - intros Hl. split.
    + intros link Hin. rewrite Hg'. apply elem_of_union_r.
      unfold attribute_facts.
      destruct (internal_links value_data) as [|l ls] eqn:El; [done|].
      apply elem_of_list_to_set, list_elem_of_fmap. by exists link.
    + intros t Ht Hng. destruct (Hnew t Ht Hng Hl) as (link & Hin & ->).
      split; [apply create_uri_is_reference|by exists link].
  - intros Hl. rewrite Hg'. unfold attribute_facts. by rewrite Hl.
  - intros t Ht Hng Hlit.
    destruct (internal_links value_data) as [|l ls] eqn:El; [done|].
    destruct (Hnew t Ht Hng) as (link & _ & ->); [done|].
    simpl in Hlit. unfold create_uri in Hlit. by repeat case_match.
Qed.

End FactBuilder.

(** ** Step 1: the infobox parser *)

Section ParserFacts.
Import Step1.

Variable mw_strip_code : string -> option string.
Variable mw_filter_templates : string -> option (list template).
Variable mw_filter_wikilinks : string -> option (list string).

Lemma parse_params_kept (ps : list (string * string))
    (params : list (string * attribute_value)) :
  Forall (kept mw_strip_code) params ->
  Forall (kept mw_strip_code) (parse_params mw_strip_code ps params).
Proof.
  revert params. induction ps as [|[name value] ps IH]; intros params Hp; simpl.
  - done.
  - destruct (PyStr.truthy (PyStr.strip value)) eqn:E; simpl; [|by apply IH].
    apply IH, set_Forall; [|done].
    repeat split; simpl; eauto.
    intros Hempty. rewrite Hempty in E. discriminate E.
Qed.

Lemma parse_infobox_template_kept (wikitext : string) (res : infobox_result) :
  parse_infobox_template mw_strip_code mw_filter_templates wikitext = Some res ->
  Forall (kept mw_strip_code) (parameters res).
Proof.
  unfold parse_infobox_template.
  destruct (mw_filter_templates wikitext) as [ts|]; [|done].
  destruct (List.find is_infobox ts) as [t|]; [|done].
  intros [= <-]. simpl. by apply parse_params_kept.
Qed.

(** C5 (amended). Every attribute of an emitted record has a non-empty
    trimmed raw value: parameters whose raw value is empty after trimming
    are dropped before the record is produced. The cleaned text is
    whatever the cleaning of that raw value yields; it is not tested. *)
Theorem record_attributes_have_raw_text
    (title wikitext : string) (pageid : option Z) (cats : list string)
    (e : entity) (ib : infobox) (field : string) (v : attribute_value) :
  parse_page_text mw_strip_code mw_filter_templates mw_filter_wikilinks
    title wikitext pageid cats = Some e ->
  e_infobox e = Some ib ->
  In (field, v) (ib_parameters ib) ->
  raw v <> "" /\
  (exists value, raw v = PyStr.strip value) /\
  cleaned v = clean_wikitext_value mw_strip_code (raw v) /\
  internal_links v = extract_internal_links (raw v).
Proof.
  unfold parse_page_text. destruct (negb (PyStr.truthy wikitext)); [done|].
  intros [= <-]. simpl.
  destruct (parse_infobox_template _ _ wikitext) as [res|] eqn:Hres; [|done].
  intros [= <-]. simpl. intros Hin.
  apply parse_infobox_template_kept in Hres.
  rewrite Forall_forall in Hres. apply list_elem_of_In in Hin.
  exact (Hres (field, v) Hin).
Qed.

End ParserFacts.

Section ParserExamples.
Import Step1.

(** C5 (as stated, refuted). The infobox parameter [notes=<!-- todo -->]
    has a non-empty raw value and an empty cleaned text; the record of
    the page keeps it, with the empty string as its cleaned value. *)
Lemma empty_cleaned_attribute_is_kept :
  option_map e_infobox
    (parse_page_text strip_html_comments commented_page_templates
       (fun _ => Some []) "Notes" commented_page None [])
  = Some (Some {| ib_template_name := "Infobox character";
                  ib_parameters :=
                    [("notes", {| raw := "<!-- todo -->"; cleaned := "";
                                  internal_links := [] |})] |}).
Proof. reflexivity. Qed.

Lemma record_attributes_have_raw_text_witness :
  raw {| raw := "<!-- todo -->"; cleaned := ""; internal_links := [] |} <> "" /\
  cleaned {| raw := "<!-- todo -->"; cleaned := ""; internal_links := [] |}
    = clean_wikitext_value strip_html_comments "<!-- todo -->".
Proof.
  pose proof
    (record_attributes_have_raw_text strip_html_comments
       commented_page_templates (fun _ => Some [])
       "Notes" commented_page None []
       {| entity_id := "Notes"; page_id := None; title := "Notes";
          etype := Some "character";
          e_infobox :=
            Some {| ib_template_name := "Infobox character";
                    ib_parameters :=
                      [("notes", {| raw := "<!-- todo -->"; cleaned := "";
                                    internal_links := [] |})] |};
          e_internal_links := []; categories := [];
          raw_wikitext_length := 41 |}
       {| ib_template_name := "Infobox character";
          ib_parameters :=
            [("notes", {| raw := "<!-- todo -->"; cleaned := "";
                          internal_links := [] |})] |}
       "notes"
       {| raw := "<!-- todo -->"; cleaned := ""; internal_links := [] |}
       eq_refl eq_refl (or_introl eq_refl)) as (H1 & _ & H3 & _).
  exact (conj H1 H3).
Defined.

End ParserExamples.

Section FactBuilderExamples.
Import Step1 Step2 Vocab.

Lemma links_exclude_literal_witness :
  add_infobox_field (RESOURCE "Frodo") "race"
    {| raw := "[[Hobbit]]"; cleaned := "Hobbit"; internal_links := ["Hobbit"] |} ∅
  = ∅ ∪ attribute_facts (RESOURCE "Frodo") "race"
          {| raw := "[[Hobbit]]"; cleaned := "Hobbit"; internal_links := ["Hobbit"] |}.
Proof.
  refine (proj1 (links_exclude_literal (RESOURCE "Frodo") "race"
            {| raw := "[[Hobbit]]"; cleaned := "Hobbit";
               internal_links := ["Hobbit"] |} ∅ _)).
  simpl. discriminate.
Defined.

End FactBuilderExamples.

(** ** Step 3: the shape synthesizer *)

Section ShapeFacts.
Import Step1 Step3 Vocab.

Lemma usage_incr_same ty f u : usage ty f (usage_incr ty f u) = usage ty f u + 1.
Proof.
  unfold usage, usage_incr, usage_count.
  rewrite get_set_eq. simpl. by rewrite get_set_eq.
Qed.

Lemma usage_incr_other ty f ty' f' u :
  (ty', f') <> (ty, f) -> usage ty' f' (usage_incr ty f u) = usage ty' f' u.
Proof.
  intros Hne. unfold usage, usage_incr, usage_count.
  destruct (decide (ty = ty')) as [<-|Hty].
  - rewrite get_set_eq. simpl. rewrite get_set_ne; [done|congruence].
  - by rewrite get_set_ne.
Qed.

(** Entries of an attribute map under the key [f]. *)
Lemma count_key_NoDup (f : string) (ps : list (string * attribute_value)) :
  NoDup (map fst ps) ->
  length (List.filter (fun kv => bool_decide (fst kv = f)) ps)
  = if PyDict.mem f ps then 1 else 0.
Proof.
  unfold PyDict.mem. induction ps as [|[k v] ps IH]; simpl; [done|].
  rewrite NoDup_cons. intros [Hk Hnd]. specialize (IH Hnd).
  destruct (decide (f = k)) as [->|Hne].
  - rewrite bool_decide_true by done. simpl. f_equal.
    destruct (PyDict.get k ps) eqn:E; [|done].
    apply get_Some_In, list_elem_of_In in E. destruct Hk.
    apply list_elem_of_fmap. by exists (k, a).
  - rewrite bool_decide_false by congruence. exact IH.
Qed.

Lemma analyze_field_graph ty gen fv :
  sgraph (analyze_field ty gen fv) = sgraph gen /\
  next_bnode (analyze_field ty gen fv) = next_bnode gen.
Proof. by destruct fv. Qed.

Lemma analyze_fields_usage ty ty0 f0 ps gen :
  sgraph (fold_left (analyze_field ty) ps gen) = sgraph gen /\
  next_bnode (fold_left (analyze_field ty) ps gen) = next_bnode gen /\
  usage ty0 f0 (property_usage (fold_left (analyze_field ty) ps gen))
  = usage ty0 f0 (property_usage gen)
    + if decide (ty = ty0)
      then length (List.filter (fun kv => bool_decide (fst kv = f0)) ps)
      else 0.
Proof.
  revert gen.
  induction ps as [|[f vd] ps IH]; intros gen; cbn [fold_left List.filter].
  - repeat split. destruct (decide (ty = ty0)); simpl; lia.
  - destruct (IH (analyze_field ty gen (f, vd))) as (Hg & Hn & Hu).
    rewrite Hg, Hn, Hu. clear.
    repeat split. cbn [analyze_field property_usage fst].
    destruct (decide (ty = ty0)) as [->|Hty].
    + destruct (decide (f = f0)) as [->|Hf].
      * rewrite bool_decide_true by done. rewrite usage_incr_same. simpl. lia.
      * rewrite bool_decide_false by done.
        rewrite usage_incr_other; [done|congruence].
    + rewrite usage_incr_other; [done|congruence].
Qed.

(** The usage table counts records: after the analysis, the entry for the
    class ['infobox character'] and an attribute is the number of
    character records that carry the attribute. *)
Lemma analyze_entities_usage (f0 : string) (entities : list entity) (gen : generator) :
  Forall well_formed entities ->
  sgraph (analyze_entities entities gen) = sgraph gen /\
  next_bnode (analyze_entities entities gen) = next_bnode gen /\
  usage (Some "infobox character") f0 (property_usage (analyze_entities entities gen))
  = usage (Some "infobox character") f0 (property_usage gen)
    + observed_count f0 entities.
Proof.
  intros Hwf. revert gen. unfold analyze_entities.
  induction Hwf as [|e es He Hes IH]; intros gen; cbn [fold_left].
  - repeat split. unfold observed_count. simpl. lia.
  - destruct (IH (analyze_entity gen e)) as (Hg & Hn & Hu).
    rewrite Hg, Hn, Hu. clear IH Hg Hn Hu.
    unfold analyze_entity, observed_count, has_field, is_character.
    unfold well_formed in He. cbn [List.filter].
    destruct (e_infobox e) as [ib|] eqn:Eib.
    + destruct (analyze_fields_usage (etype e) (Some "infobox character") f0
                  (ib_parameters ib) gen) as (Hg & Hn & Hu).
      repeat split; [done..|]. rewrite Hu.
      rewrite count_key_NoDup by done.
      destruct (decide (etype e = Some "infobox character")) as [Hc|Hc].
      * rewrite bool_decide_true by done. simpl.
        destruct (PyDict.mem f0 (ib_parameters ib)); simpl; lia.
      * rewrite bool_decide_false by done. simpl. lia.
    + repeat split. rewrite andb_false_r. lia.
Qed.



(** Unfolding the shape blocks down to unions of singletons. *)
Ltac shape_graph :=
  cbv [create_thing_shape create_place_shape create_gender_list
       name_constraint_block gender_constraint_block race_constraint_block
       birth_constraint_block collection_append gender_values add fresh
       sgraph next_bnode property_usage property_datatypes snd fst graph_add].

Ltac in_graph :=
  repeat first
    [ apply elem_of_union_r, elem_of_singleton; reflexivity
    | apply elem_of_union_l ].

Ltac grows :=
  intros; shape_graph; repeat apply union_subseteq_l'; reflexivity.

















End ShapeFacts.

Section ShapeExamples.
Import Step1 Step3 Vocab.



(** Step 3 counts under the tag ['infobox character'] only: records
    tagged ['character'] do not enter the count. *)
Example stripped_tag_not_counted :
  observed_count "gender" (replicate 101 stripped_tag_character) = 0.
Proof. vm_compute. reflexivity. Qed.

End ShapeExamples.

(** ** Step 4: matching *)

Section MatchingFacts.
Import Step4 Vocab.

Variable ratio : string -> string -> Q.

#[local] Abbreviation score := (similarity_score ratio).

Lemma Qlt_bool_iff (x y : Q) : Qlt_bool x y = true <-> (x < y)%Q.
Proof.
  unfold Qlt_bool. rewrite negb_true_iff. split.
  - intros H. apply Qnot_le_lt. intros Hle.
    apply Qle_bool_iff in Hle. congruence.
  - intros H. destruct (Qle_bool y x) eqn:E; [|done].
    apply Qle_bool_iff in E. lra.
Qed.

(** One step of the fuzzy loop keeps [best_so_far]. *)
Lemma fuzzy_step_best (name : string) (threshold : Q)
    (seen : list (string * term)) (best : option term * Q)
    (entry : string * term) :
  best_so_far ratio name threshold seen best ->
  best_so_far ratio name threshold (seen ++ [entry])
    (fuzzy_step ratio name threshold best entry).
Proof.
  destruct best as [best_match best_score], entry as [key uri].
  unfold fuzzy_step.
  destruct (Qlt_bool best_score (score name key)
            && Qle_bool threshold (score name key)) eqn:Etest.
  - apply andb_true_iff in Etest as [Hlt%Qlt_bool_iff Hthr%Qle_bool_iff].
    intros Hbest. exists key. split; [apply in_or_app; right; by left|].
    split; [done|]. split; [done|].
    assert (Hseen : forall k' u', In (k', u') seen ->
              (score name k' <= score name key)%Q).
    { intros k' u' Hin. destruct best_match as [m|]; simpl in Hbest.
      - destruct Hbest as (k0 & _ & _ & _ & _ & Hmax).
        specialize (Hmax k' u' Hin). lra.
      - destruct Hbest as [-> Hnone].
        destruct (Qlt_le_dec (score name key) (score name k')) as [Hgt|]; [|done].
        destruct (Hnone k' u' Hin). split; lra. }
    split.
    + destruct best_match as [m|]; simpl in Hbest.
      * destruct Hbest as (k0 & _ & _ & _ & Hpos & _). lra.
      * destruct Hbest as [-> _]. done.
    + intros k' u' [Hin|[[= <- <-]|[]]]%in_app_or; [by eapply Hseen|lra].
  - apply andb_false_iff in Etest.
    assert (Hkey : ~ ((best_score < score name key)%Q
                      /\ (threshold <= score name key)%Q)).
    { intros [H1%Qlt_bool_iff H2%Qle_bool_iff]. destruct Etest; congruence. }
    destruct best_match as [m|]; simpl.
    + intros (k0 & Hin & Hs & Hthr & Hpos & Hmax). exists k0.
      split; [apply in_or_app; by left|]. repeat split; try done.
      intros k' u' [Hin'|[[= <- <-]|[]]]%in_app_or; [by eapply Hmax|].
      destruct (Qlt_le_dec best_score (score name key)) as [Hgt|]; [|done].
      destruct Hkey. split; lra.
    + intros [-> Hnone]. split; [done|].
      intros k u [Hin|[[= <- <-]|[]]]%in_app_or; [by eapply Hnone|].
      intros [H1 H2]. by destruct Hkey.
Qed.

Lemma fuzzy_loop_best (name : string) (threshold : Q)
    (index seen : list (string * term)) (best : option term * Q) :
  best_so_far ratio name threshold seen best ->
  best_so_far ratio name threshold (seen ++ index)
    (fold_left (fuzzy_step ratio name threshold) index best).
Proof.
  revert seen best. induction index as [|entry index IH]; intros seen best Hbest.
  - by rewrite app_nil_r.
  - simpl. replace (seen ++ entry :: index)%list
      with ((seen ++ [entry]) ++ index)%list by (by rewrite <- app_assoc).
    by apply IH, fuzzy_step_best.
Qed.

(** A row that finds no match is counted and leaves the graph alone. *)
Lemma csv_row_no_match (total : nat) (threshold : Q) (i : nat)
    (char_data : list (string * string)) (st : enricher) :
  let row_name := PyStr.strip (default "" (PyDict.get "name" char_data)) in
  PyStr.truthy row_name = true ->
  fst (find_best_match ratio (entity_index st) row_name threshold) = None ->
  kg (csv_row ratio total threshold i char_data st) = kg st /\
  no_matches (csv (csv_row ratio total threshold i char_data st))
    = no_matches (csv st) + 1.
Proof.
  intros row_name Hname Hnone. unfold csv_row.
  fold row_name. rewrite Hname. cbn [negb].
  destruct ((_ =? 0)%nat || _);
    [change (entity_index (print _ st)) with (entity_index st)|];
    by destruct (find_best_match ratio (entity_index st) row_name threshold)
      as [[m|] sc].
Qed.

(** C2. [find_best_match] tries, in this order: the lowercased name as an
    index key (confidence 1); the lowercased name without spaces as an
    index key (confidence 1); the fuzzy search. The fuzzy search returns
    either no match, [(None, 0)], or an index entry whose similarity to
    the name is the highest over all index keys and reaches the threshold;
    it returns no match when no key reaches the threshold, and it does
    return a match when some key with a positive score reaches it (the
    entities of the index being non-empty identifiers). A CSV row without
    a match is counted and skipped: the graph stays as it is. *)
Theorem find_best_match_priority
    (index : list (string * term)) (name : string) (threshold : Q) :
  let name_lower := PyStr.lower name in
  let name_no_spaces := PyStr.replace " " "" name_lower in
  let result := find_best_match ratio index name threshold in
  (forall uri, PyDict.get name_lower index = Some uri ->
     result = (Some uri, 1%Q)) /\
  (PyDict.get name_lower index = None ->
   forall uri, PyDict.get name_no_spaces index = Some uri ->
     result = (Some uri, 1%Q)) /\
  (PyDict.get name_lower index = None ->
   PyDict.get name_no_spaces index = None ->
   (result = (None, 0%Q) \/
    exists key uri,
      In (key, uri) index /\ result = (Some uri, score name key) /\
      (threshold <= score name key)%Q /\
      forall key' uri', In (key', uri') index ->
        (score name key' <= score name key)%Q) /\
   ((forall key uri, In (key, uri) index -> (score name key < threshold)%Q) ->
    result = (None, 0%Q)) /\
   (forall key uri, In (key, uri) index ->
      (threshold <= score name key)%Q -> (0 < score name key)%Q ->
      (forall key' uri', In (key', uri') index -> term_truthy uri' = true) ->
      exists uri', fst result = Some uri')) /\
  (forall (total i : nat) (char_data : list (string * string)) (st : enricher),
     let row_name := PyStr.strip (default "" (PyDict.get "name" char_data)) in
     PyStr.truthy row_name = true ->
     fst (find_best_match ratio (entity_index st) row_name threshold) = None ->
     kg (csv_row ratio total threshold i char_data st) = kg st /\
     no_matches (csv (csv_row ratio total threshold i char_data st))
       = no_matches (csv st) + 1).
Proof.
  intros name_lower name_no_spaces result.
  split; [|split; [|split; [|intros; by apply csv_row_no_match]]];
    subst result; unfold find_best_match;
    fold name_lower; fold name_no_spaces.
  - by intros uri ->.
  - by intros -> uri ->.
  - intros -> ->.
    pose proof (fuzzy_loop_best name threshold index [] (None, 0%Q)) as Hbest.
    simpl in Hbest.
    destruct (fold_left (fuzzy_step ratio name threshold) index (None, 0%Q))
      as [[best_match|] best_score].
    + destruct Hbest as (k & Hin & -> & Hthr & Hpos & Hmax); [by split|].
      split; [|split].
      * destruct (term_truthy best_match); [|by left].
        right. by exists k, best_match.
      * intros Hlow. specialize (Hlow k best_match Hin). lra.
      * intros key uri Hkey _ _ Htruthy.
        rewrite (Htruthy k best_match Hin). by exists best_match.
    + destruct Hbest as [_ Hnone]; [by split|].
      split; [by left|]. split; [done|].
      intros key uri Hkey Hthr Hpos _. destruct (Hnone key uri Hkey). by split.
Qed.

End MatchingFacts.

(** ** Step 4: the CSV merge *)

Section CsvFacts.
Import Step4 Vocab.

Variable ratio : string -> string -> Q.

Implicit Types (st : enricher) (e s p o : term) (preds : list term).

Lemma kg_add (t : triple) st : kg (add t st) = kg st ∪ {[ t ]}.
Proof. reflexivity. Qed.

Lemma touches_frame e preds f st s p :
  touches e preds f -> p ∉ preds ->
  objects (kg (f st)) s p = objects (kg st) s p.
Proof.
  intros Hf Hp. destruct (Hf st) as (_ & Hsub & Hnew).
  apply set_eq. intros o. rewrite !elem_of_objects. split.
  - intros Hin. destruct (decide ((s, p, o) ∈ kg st)) as [|Hnin]; [done|].
    destruct (Hnew s p o Hin Hnin) as [_ Hpreds]. by destruct Hp.
  - apply Hsub.
Qed.

Lemma touches_weaken e preds preds' f :
  preds ⊆ preds' -> touches e preds f -> touches e preds' f.
Proof.
  intros Hsub Hf st. destruct (Hf st) as (Hi & Hg & Hnew).
  split; [done|]. split; [done|].
  intros s p o Hin Hnin. destruct (Hnew s p o Hin Hnin). split; [done|].
  by apply Hsub.
Qed.

Lemma touches_id e preds : touches e preds (fun st => st).
Proof. intros st. split; [done|]. split; [done|]. by intros s p o Hin []. Qed.

Lemma touches_comp e preds f g :
  touches e preds f -> touches e preds g -> touches e preds (fun st => g (f st)).
Proof.
  intros Hf Hg st.
  destruct (Hf st) as (Hfi & Hfg & Hfnew), (Hg (f st)) as (Hgi & Hgg & Hgnew).
  split; [congruence|]. split; [by etrans|].
  intros s p o Hin Hnin.
  destruct (decide ((s, p, o) ∈ kg (f st)));
    [by apply (Hfnew s p o)|by apply (Hgnew s p o)].
Qed.

Lemma touches_add e p o : touches e [p] (add (e, p, o)).
Proof.
  intros st. rewrite kg_add. split; [done|]. split; [apply union_subseteq_l|].
  intros s' p' o' Hin Hnin.
  apply elem_of_union in Hin as [Hin|Hin%elem_of_singleton]; [done|].
  injection Hin as -> -> ->. split; [done|]. apply list_elem_of_here.
Qed.

Lemma touches_add_in e p o preds :
  p ∈ preds -> touches e preds (add (e, p, o)).
Proof.
  intros Hp. apply (touches_weaken e [p]); [|exact (touches_add e p o)].
  intros x ->%list_elem_of_singleton. done.
Qed.

Lemma touches_count e preds field f :
  touches e preds f -> touches e preds (fun st => count_enriched field (f st)).
Proof. intros Hf st. exact (Hf st). Qed.

Lemma touches_fold {A : Type} e preds (step : enricher -> A -> enricher)
    (l : list A) :
  (forall x, touches e preds (fun st => step st x)) ->
  touches e preds (fun st => fold_left step l st).
Proof.
  intros Hstep. induction l as [|x l IH]; simpl; [apply touches_id|].
  exact (touches_comp e preds (fun st => step st x)
           (fun st => fold_left step l st) (Hstep x) IH).
Qed.

Lemma touches_fill_gap e preds field value pred emit :
  (forall v, touches e preds (emit v)) ->
  touches e preds (fill_gap field value e pred emit).
Proof.
  intros Hemit st. unfold fill_gap. destruct value as [v|]; [|apply touches_id].
  destruct (PyStr.truthy v && _); [|apply touches_id].
  exact (touches_count e preds field (emit v) (Hemit v) st).
Qed.

Lemma add_single_touches field pred e row :
  touches e [pred] (add_single field pred e row).
Proof. apply touches_fill_gap. intros v. apply touches_add. Qed.

Lemma add_race_touches e row : touches e [PROP "race"] (add_race e row).
Proof.
  apply touches_fill_gap. intros race.
  apply (touches_fold e [PROP "race"]). intros token st.
  destruct (PyStr.truthy token); [apply touches_add|apply touches_id].
Qed.

Lemma add_realm_touches e row :
  touches e [PROP "realm"; PROP "realmName"] (add_realm e row).
Proof.
  apply touches_fill_gap. intros realm.
  apply (touches_fold e [PROP "realm"; PROP "realmName"]). intros token st.
  destruct (PyStr.truthy token); [|apply touches_id].
  apply (touches_comp e _ (add (e, PROP "realm", _)) (add (e, PROP "realmName", _)));
    apply touches_add_in.
  - apply list_elem_of_here.
  - apply list_elem_of_further, list_elem_of_here.
Qed.

Lemma add_spouse_touches e row :
  touches e [SCHEMA "spouse"] (add_spouse ratio e row).
Proof.
  apply touches_fill_gap. intros spouse st.
  destruct (fst (find_best_match ratio (entity_index st) spouse (9 # 10)))
    as [m|]; [destruct (term_truthy m)|]; apply touches_add.
Qed.

(** [clean_value] never returns an empty string. *)
Lemma clean_value_truthy (value : option string) (v : string) :
  clean_value value = Some v -> PyStr.truthy v = true.
Proof.
  unfold clean_value. destruct value as [x|]; [|done].
  destruct (negb (PyStr.truthy x) || _); [done|].
  destruct (bool_decide _) eqn:E; [done|]. intros [= <-].
  apply bool_decide_eq_false in E. unfold PyStr.truthy.
  destruct (String.eqb (PyStr.strip x) "") eqn:E'; [|done].
  apply String.eqb_eq in E'. rewrite E' in E. destruct E.
  repeat constructor.
Qed.

(** The facts under its own predicate after a single-valued block. *)
Lemma add_single_objects field pred e row st s :
  objects (kg (add_single field pred e row st)) s pred
  = if decide (s = e /\ objects (kg st) e pred = ∅)
    then match clean_value (PyDict.get field row) with
         | Some v => {[ en v ]}
         | None => ∅
         end
    else objects (kg st) s pred.
Proof.
  unfold add_single, fill_gap.
  destruct (clean_value (PyDict.get field row)) as [v|] eqn:Ev.
  - rewrite (clean_value_truthy _ _ Ev). cbn [andb].
    destruct (decide (objects (kg st) e pred = ∅)) as [Hempty|Hne].
    + rewrite bool_decide_true by done.
      change (kg (count_enriched field (add (e, pred, en v) st)))
        with (graph_add (e, pred, en v) (kg st)).
      destruct (decide (s = e)) as [->|Hs].
      * rewrite decide_True by done. rewrite objects_add_same, Hempty.
        by rewrite (left_id_L ∅ (∪)).
      * rewrite decide_False by tauto. apply objects_add_other.
        intros [He _]. by destruct Hs.
    + rewrite bool_decide_false by done. by rewrite decide_False by tauto.
  - destruct (decide (s = e /\ objects (kg st) e pred = ∅)) as [[-> ->]|]; done.
Qed.

(** Frame rules: a block leaves the facts under other predicates alone. *)
Lemma frame_add e p o st s pred :
  pred <> p -> objects (kg (add (e, p, o) st)) s pred = objects (kg st) s pred.
Proof.
  intros Hne. rewrite kg_add. apply (objects_add_other (kg st)).
  intros [_ Hp]. by destruct Hne.
Qed.

Lemma frame_single field p e row st s pred :
  pred <> p ->
  objects (kg (add_single field p e row st)) s pred = objects (kg st) s pred.
Proof.
  intros Hne. apply (touches_frame e [p]); [apply add_single_touches|].
  by intros ->%list_elem_of_singleton.
Qed.

Lemma frame_race e row st s pred :
  pred <> PROP "race" ->
  objects (kg (add_race e row st)) s pred = objects (kg st) s pred.
Proof.
  intros Hne. apply (touches_frame e [PROP "race"]); [apply add_race_touches|].
  by intros ->%list_elem_of_singleton.
Qed.

Lemma frame_realm e row st s pred :
  pred <> PROP "realm" -> pred <> PROP "realmName" ->
  objects (kg (add_realm e row st)) s pred = objects (kg st) s pred.
Proof.
  intros Hne1 Hne2.
  apply (touches_frame e [PROP "realm"; PROP "realmName"]);
    [apply add_realm_touches|].
  intros [->| ->%list_elem_of_singleton]%elem_of_cons; done.
Qed.

Lemma frame_spouse e row st s pred :
  pred <> SCHEMA "spouse" ->
  objects (kg (add_spouse ratio e row st)) s pred = objects (kg st) s pred.
Proof.
  intros Hne. apply (touches_frame e [SCHEMA "spouse"]); [apply add_spouse_touches|].
  by intros ->%list_elem_of_singleton.
Qed.

Lemma objects_add e p o st s pred :
  objects (kg (add (e, p, o) st)) s pred
  = if decide (e = s /\ p = pred) then objects (kg st) s pred ∪ {[ o ]}
    else objects (kg st) s pred.
Proof.
  change (kg (add (e, p, o) st)) with (graph_add (e, p, o) (kg st)).
  destruct (decide (e = s /\ p = pred)) as [[-> ->]|Hne].
  - apply objects_add_same.
  - by apply objects_add_other.
Qed.

(** Two different predicates of the vocabulary. *)
Ltac neq := let H := fresh in intros H; vm_compute in H; discriminate H.

Ltac csv_frames :=
  repeat first
    [ rewrite frame_add by neq
    | rewrite frame_single by neq
    | rewrite frame_race by neq
    | rewrite frame_realm by neq
    | rewrite frame_spouse by neq
    | rewrite add_single_objects ].

Ltac csv_blocks :=
  unfold add_csv_character_triples; cbn [snd];
  change (add_birth ?e ?r) with (add_single "birth" (SCHEMA "birthDate") e r);
  change (add_death ?e ?r) with (add_single "death" (SCHEMA "deathDate") e r);
  change (add_gender ?e ?r) with (add_single "gender" (SCHEMA "gender") e r);
  change (add_hair ?e ?r) with (add_single "hair" (PROP "hairColor") e r);
  change (add_height ?e ?r) with (add_single "height" (SCHEMA "height") e r).

(** The facts of a single-valued attribute after one matched row: the
    row's value when the entity had none, the old facts otherwise. *)
Lemma csv_single_valued_objects field pred e row score st s :
  In (field, pred) single_valued ->
  objects (kg (snd (add_csv_character_triples ratio e row score st))) s pred
  = if decide (s = e /\ objects (kg st) e pred = ∅)
    then match clean_value (PyDict.get field row) with
         | Some v => {[ en v ]}
         | None => ∅
         end
    else objects (kg st) s pred.
Proof.
  intros Hin. csv_blocks.
  destruct Hin as [[= <- <-]|[[= <- <-]|[[= <- <-]|[[= <- <-]|[[= <- <-]|[]]]]]];
    destruct (Qlt_bool score 1); csv_frames; reflexivity.
Qed.

(** The match-confidence facts after one matched row. *)
Lemma csv_match_score_objects e row score st s :
  objects (kg (snd (add_csv_character_triples ratio e row score st))) s
    (PROP "csvMatchScore")
  = if Qlt_bool score 1
    then objects (kg (add (e, PROP "csvMatchScore", float_lit score) st)) s
           (PROP "csvMatchScore")
    else objects (kg st) s (PROP "csvMatchScore").
Proof.
  csv_blocks. destruct (Qlt_bool score 1); csv_frames.
  - rewrite !(objects_add e (PROP "csvMatchScore")).
    rewrite frame_add by neq. reflexivity.
  - reflexivity.
Qed.

(** One row of the run keeps the facts of a single-valued attribute that
    an entity already has. *)
Lemma csv_row_preserves field pred total threshold i row st s :
  In (field, pred) single_valued ->
  objects (kg st) s pred <> ∅ ->
  objects (kg (csv_row ratio total threshold i row st)) s pred
  = objects (kg st) s pred.
Proof.
  intros Hin Hne. unfold csv_row.
  set (name := PyStr.strip (default "" (PyDict.get "name" row))).
  destruct (negb (PyStr.truthy name)); [done|].
  set (st_p := if ((i + 1) mod 50 =? 0)%nat || (i + 1 =? total)%nat
               then print _ st else st).
  assert (Hkg : kg st_p = kg st).
  { subst st_p. by destruct (((i + 1) mod 50 =? 0)%nat || (i + 1 =? total)%nat). }
  destruct (find_best_match ratio (entity_index st_p) name threshold)
    as [[e|] score]; [|by rewrite <- Hkg].
  set (st_m := with_csv _ st_p).
  pose proof (csv_single_valued_objects field pred e row score st_m s Hin) as Hobj.
  destruct (add_csv_character_triples ratio e row score st_m) as [n st'].
  cbn [snd] in Hobj. change (kg (with_csv _ st')) with (kg st').
  rewrite Hobj. change (kg st_m) with (kg st_p). rewrite Hkg.
  destruct (decide (s = e /\ objects (kg st) e pred = ∅)) as [[-> Hempty]|];
    done.
Qed.

Lemma csv_loop_preserves field pred total threshold rows i st s :
  In (field, pred) single_valued ->
  objects (kg st) s pred <> ∅ ->
  objects (kg (csv_loop ratio total threshold i rows st)) s pred
  = objects (kg st) s pred.
Proof.
  intros Hin. revert i st.
  induction rows as [|row rows IH]; intros i st Hne; simpl; [done|].
  pose proof (csv_row_preserves field pred total threshold i row st s Hin Hne)
    as Hrow.
  rewrite IH; [done|]. by rewrite Hrow.
Qed.

Section CsvRun.

Variable float_str : Q -> string.
Variable file_exists : string -> bool.
Variable read_csv : string -> result (list (list (string * string))).

Lemma enrich_with_csv_preserves field pred csv_file threshold st st' s :
  In (field, pred) single_valued ->
  enrich_with_csv ratio float_str file_exists read_csv csv_file threshold st
    = Ok st' ->
  objects (kg st) s pred <> ∅ ->
  objects (kg st') s pred = objects (kg st) s pred.
Proof.
  intros Hin. unfold enrich_with_csv.
  destruct (negb (file_exists csv_file)).
  - by intros [= <-].
  - destruct (read_csv csv_file) as [rows|exn]; [|done].
    cbn [mbind result_bind]. intros [= <-] Hne.
    cbn [kg print].
    etrans; [apply (csv_loop_preserves field pred); [done|exact Hne]|].
    reflexivity.
Qed.

(** C1. For each single-valued CSV attribute (birth, death, gender, hair,
    height) and its predicate, one matched row adds a fact under that
    predicate only to the matched entity, only when that entity has no
    fact under the predicate, and then the fact is the row's cleaned
    value; an entity that has facts under the predicate keeps exactly
    those, through one row and through a whole run of [enrich_with_csv].
    With [("birth", schema:birthDate)] this is the first-write-wins case
    of a conflicting birth date. *)
Theorem csv_first_write_wins
    (field : string) (pred e : term) (row : list (string * string))
    (score : Q) (st : enricher) :
  In (field, pred) single_valued ->
  let st' := snd (add_csv_character_triples ratio e row score st) in
  (forall s o, (s, pred, o) ∈ kg st' -> (s, pred, o) ∉ kg st ->
     s = e /\ objects (kg st) e pred = ∅ /\
     exists v, clean_value (PyDict.get field row) = Some v /\ o = en v) /\
  (forall s, objects (kg st) s pred <> ∅ ->
     objects (kg st') s pred = objects (kg st) s pred) /\
  (forall csv_file threshold st0 st1 s,
     enrich_with_csv ratio float_str file_exists read_csv csv_file threshold st0
       = Ok st1 ->
     objects (kg st0) s pred <> ∅ ->
     objects (kg st1) s pred = objects (kg st0) s pred).
Proof.
  intros Hin st'.
  assert (Hobj := fun s => csv_single_valued_objects field pred e row score st s Hin).
  fold st' in Hobj. split; [|split].
  - intros s o Hnew Hold. apply elem_of_objects in Hnew. rewrite Hobj in Hnew.
    destruct (decide (s = e /\ objects (kg st) e pred = ∅)) as [[-> Hempty]|].
    + split; [done|]. split; [done|].
      destruct (clean_value (PyDict.get field row)) as [v|].
      * apply elem_of_singleton in Hnew. by exists v.
      * by apply elem_of_empty in Hnew.
    + by apply elem_of_objects in Hnew.
  - intros s Hne. rewrite Hobj.
    destruct (decide (s = e /\ objects (kg st) e pred = ∅)) as [[-> Hempty]|];
      done.
  - intros csv_file threshold st0 st1 s Hrun Hne.
    by apply (enrich_with_csv_preserves field pred csv_file threshold st0 st1 s).
Qed.

End CsvRun.

(** A row whose only usable attribute is a height adds the provenance
    fact and the height fact, nothing else. *)
Lemma csv_height_only e row score st :
  (score == 1)%Q ->
  clean_value (PyDict.get "height" row) = Some "4ft" ->
  (forall f, In f ["birth"; "death"; "gender"; "hair"; "race"; "realm"; "spouse"] ->
     clean_value (PyDict.get f row) = None) ->
  objects (kg st) e (SCHEMA "height") = ∅ ->
  kg (snd (add_csv_character_triples ratio e row score st))
  = kg st ∪ {[ (e, SCHEMA "isBasedOn", provenance) ]}
          ∪ {[ (e, SCHEMA "height", en "4ft") ]}.
Proof.
  intros Hscore Hheight Hnone Hempty.
  unfold add_csv_character_triples. cbn [snd].
  assert (Hlt : Qlt_bool score 1 = false).
  { destruct (Qlt_bool score 1) eqn:E; [|done]. apply Qlt_bool_iff in E. lra. }
  rewrite Hlt.
  unfold add_birth, add_death, add_gender, add_hair, add_height, add_race,
    add_realm, add_spouse.
  rewrite Hheight, !Hnone by (simpl; tauto).
  cbn [fill_gap]. change (PyStr.truthy "4ft") with true. cbn [andb].
  rewrite frame_add by neq. rewrite bool_decide_true by done.
  rewrite !kg_add.
  change (kg (count_enriched _ ?x)) with (kg x). rewrite !kg_add.
  generalize (e, SCHEMA "isBasedOn", provenance) (e, SCHEMA "height", en "4ft").
  intros t1 t2. set_solver.
Qed.

(** C7. A row matched with confidence 1 adds no match-confidence fact, to
    any subject; a row matched with a confidence below 1 gives the matched
    entity the fact carrying that confidence, and adds no other
    match-confidence fact. In the scenario of a row whose only usable
    attribute is [height = "4ft"], matched at confidence 1 with an entity
    that has no height fact, the graph gains the provenance fact and one
    height literal, so the entity has exactly one height fact and no new
    match-confidence fact. *)
Theorem csv_match_score
    (e : term) (row : list (string * string)) (score : Q) (st : enricher) :
  let st' := snd (add_csv_character_triples ratio e row score st) in
  let match_score := PROP "csvMatchScore" in
  ((score == 1)%Q ->
     forall s, objects (kg st') s match_score = objects (kg st) s match_score) /\
  ((score < 1)%Q ->
     (e, match_score, float_lit score) ∈ kg st' /\
     forall s, objects (kg st') s match_score
               = objects (kg st) s match_score
                 ∪ (if decide (s = e) then {[ float_lit score ]} else ∅)) /\
  ((score == 1)%Q ->
   clean_value (PyDict.get "height" row) = Some "4ft" ->
   (forall f, In f ["birth"; "death"; "gender"; "hair"; "race"; "realm"; "spouse"] ->
      clean_value (PyDict.get f row) = None) ->
   objects (kg st) e (SCHEMA "height") = ∅ ->
   kg st' = kg st ∪ {[ (e, SCHEMA "isBasedOn", provenance) ]}
                  ∪ {[ (e, SCHEMA "height", en "4ft") ]} /\
   objects (kg st') e (SCHEMA "height") = {[ en "4ft" ]} /\
   objects (kg st') e match_score = objects (kg st) e match_score).
Proof.
  intros st' match_score.
  assert (Hobj := fun s => csv_match_score_objects e row score st s).
  fold st' match_score in Hobj.
  assert (Hexact : (score == 1)%Q ->
            forall s, objects (kg st') s match_score = objects (kg st) s match_score).
  { intros Hscore s. rewrite Hobj.
    destruct (Qlt_bool score 1) eqn:E; [|done]. apply Qlt_bool_iff in E. lra. }
  split; [done|]. split.
  - intros Hlt%Qlt_bool_iff.
    assert (Hs : forall s, objects (kg st') s match_score
              = objects (kg st) s match_score
                ∪ (if decide (s = e) then {[ float_lit score ]} else ∅)).
    { intros s. rewrite Hobj, Hlt, objects_add.
      destruct (decide (s = e)) as [->|Hs].
      - by rewrite decide_True.
      - rewrite decide_False by (intros [? _]; congruence).
        by rewrite (right_id_L ∅ (∪)). }
    split; [|done]. apply elem_of_objects. rewrite Hs.
    rewrite decide_True by done. apply elem_of_union_r. by apply elem_of_singleton.
  - intros Hscore Hheight Hnone Hempty. split; [|split].
    + by apply csv_height_only.
    + pose proof (csv_single_valued_objects "height" (SCHEMA "height") e row
                    score st e) as Hh.
      fold st' in Hh. rewrite Hh by (simpl; tauto).
      by rewrite decide_True, Hheight by done.
    + by apply Hexact.
Qed.

End CsvFacts.

(** ** Step 4: missing datasets *)

Section MissingFiles.
Import Step4 Vocab.

Variable ratio : string -> string -> Q.
Variable float_str : Q -> string.
Variable bnode_str : nat -> string.
Variable json_repr : json -> string.
Variable file_exists : string -> bool.
Variable read_csv : string -> result (list (list (string * string))).
Variable load_json : string -> result json.
Variable parse_turtle : string -> result graph.

(** C9. When the dataset file is absent, [enrich_with_metw] and
    [enrich_with_csv] return normally after printing their two warning
    lines: the graph, the index and the statistics are those of the
    caller. With the base graph present and both datasets absent, [main]
    runs to its end and writes the graph it loaded. *)
Theorem missing_dataset_is_skipped
    (path : string) (threshold : Q) (st : enricher) :
  file_exists path = false ->
  (exists st',
     enrich_with_metw ratio json_repr file_exists load_json path threshold st
       = Ok st' /\
     kg st' = kg st /\ entity_index st' = entity_index st /\
     metw st' = metw st /\ csv st' = csv st /\
     output st'
     = say (say (output st) (nl ++ "WARNING: METW cards file not found at " ++ path))
           "Skipping METW enrichment...") /\
  (exists st',
     enrich_with_csv ratio float_str file_exists read_csv path threshold st
       = Ok st' /\
     kg st' = kg st /\ entity_index st' = entity_index st /\
     metw st' = metw st /\ csv st' = csv st /\
     output st'
     = say (say (output st) (nl ++ "WARNING: CSV file not found at " ++ path))
           "Skipping CSV enrichment...") /\
  (forall g : graph,
     file_exists kg_file = true ->
     file_exists cards_file = false ->
     file_exists csv_file = false ->
     parse_turtle kg_file = Ok g ->
     exists st',
       main ratio float_str bnode_str json_repr file_exists read_csv load_json
            parse_turtle
       = Ok (Completed st' (output_file, g)) /\
       kg st' = g).
Proof.
  intros Hmissing. split; [|split].
  - unfold enrich_with_metw. rewrite Hmissing. cbn [negb].
    eexists. split; [reflexivity|]. by repeat split.
  - unfold enrich_with_csv. rewrite Hmissing. cbn [negb].
    eexists. split; [reflexivity|]. by repeat split.
  - intros g Hkg Hcards Hcsv Hparse.
    unfold main, init, enrich_with_metw, enrich_with_csv.
    rewrite Hkg, Hparse. cbn [negb mbind result_bind].
    rewrite Hcards. cbn [negb mbind result_bind]. rewrite Hcsv.
    cbn [negb mbind result_bind save_graph].
    eexists. split; reflexivity.
Qed.

End MissingFiles.

(** ** Step 4 on sample data *)

Section EnricherExamples.
Import Step4 Vocab.

Example find_exact :
  find_best_match exact_ratio (entity_index frodo_enricher) "Frodo Baggins" (85 # 100)
  = (Some frodo, 1%Q).
Proof. reflexivity. Qed.

Example find_without_spaces :
  find_best_match exact_ratio [("frodobaggins", frodo)] "Frodo Baggins" (85 # 100)
  = (Some frodo, 1%Q).
Proof. reflexivity. Qed.

Example find_nothing :
  find_best_match exact_ratio (entity_index frodo_enricher) "Samwise" (85 # 100)
  = (None, 0%Q).
Proof. reflexivity. Qed.

(** With a threshold of 0 a key of similarity 0 is still no match. *)
Example find_nothing_at_zero :
  find_best_match exact_ratio (entity_index frodo_enricher) "Samwise" 0
  = (None, 0%Q).
Proof. reflexivity. Qed.

Lemma find_best_match_priority_witness :
  find_best_match exact_ratio (entity_index frodo_enricher) "Frodo Baggins" (85 # 100)
  = (Some frodo, 1%Q).
Proof.
  apply (proj1 (find_best_match_priority exact_ratio
                  (entity_index frodo_enricher) "Frodo Baggins" (85 # 100))).
  reflexivity.
Defined.

Lemma frodo_has_birth_date :
  objects (kg frodo_enricher) frodo (SCHEMA "birthDate") <> ∅.
Proof.
  intros Hempty.
  assert (Hin : en "TA 2968" ∈ objects (kg frodo_enricher) frodo (SCHEMA "birthDate")).
  { apply elem_of_objects. unfold frodo_enricher. cbn [kg].
    apply elem_of_singleton. reflexivity. }
  rewrite Hempty in Hin. by apply elem_of_empty in Hin.
Defined.

Lemma csv_first_write_wins_witness :
  In ("birth", SCHEMA "birthDate") single_valued /\
  objects
    (kg (snd (add_csv_character_triples exact_ratio frodo frodo_birth_row 1
                frodo_enricher)))
    frodo (SCHEMA "birthDate")
  = objects (kg frodo_enricher) frodo (SCHEMA "birthDate").
Proof.
  assert (Hin : In ("birth", SCHEMA "birthDate") single_valued) by (by left).
  split; [exact Hin|].
  apply (proj1 (proj2 (csv_first_write_wins exact_ratio (fun _ => "")
                         (fun _ => false) (fun _ => Raise "missing")
                         "birth" (SCHEMA "birthDate") frodo frodo_birth_row 1
                         frodo_enricher Hin))).
  exact frodo_has_birth_date.
Defined.

Lemma frodo_has_no_height :
  objects (kg frodo_enricher) frodo (SCHEMA "height") = ∅.
Proof.
  apply set_eq. intros x. rewrite elem_of_objects.
  unfold frodo_enricher. cbn [kg]. rewrite elem_of_singleton. split.
  - intros Heq. vm_compute in Heq. discriminate Heq.
  - intros Hin. by apply elem_of_empty in Hin.
Defined.

Lemma csv_match_score_witness :
  kg (snd (add_csv_character_triples exact_ratio frodo frodo_height_row 1
             frodo_enricher))
  = kg frodo_enricher ∪ {[ (frodo, SCHEMA "isBasedOn", provenance) ]}
                      ∪ {[ (frodo, SCHEMA "height", en "4ft") ]}.
Proof.
  refine (proj1 (proj2 (proj2 (csv_match_score exact_ratio frodo
                                 frodo_height_row 1 frodo_enricher))
                   _ _ _ frodo_has_no_height)).
  - reflexivity.
  - reflexivity.
  - intros f Hf. simpl in Hf.
    destruct Hf as [<-|[<-|[<-|[<-|[<-|[<-|[<-|[]]]]]]]]; reflexivity.
Defined.

Lemma missing_dataset_is_skipped_witness :
  (fun _ : string => false) cards_file = false /\
  exists st',
    enrich_with_metw exact_ratio (fun _ => "") (fun _ => false)
      (fun _ => Raise "missing") cards_file (85 # 100) frodo_enricher = Ok st' /\
    kg st' = kg frodo_enricher.
Proof.
  split; [reflexivity|].
  destruct (missing_dataset_is_skipped exact_ratio (fun _ => "") (fun _ => "")
              (fun _ => "") (fun _ => false) (fun _ => Raise "missing")
              (fun _ => Raise "missing") (fun _ => Raise "missing")
              cards_file (85 # 100) frodo_enricher eq_refl)
    as [(st' & Hrun & Hkg & _) _].
  exists st'. by split.
Defined.

End EnricherExamples.

(** * Further properties *)

(** ** Step 4: what a CSV run writes *)

Section CsvRunFacts.
Import Step4 Vocab.

Variable ratio : string -> string -> Q.

Implicit Types (st : enricher) (e s p o : term) (preds : list term).

Lemma grown_refl subjects preds st : grown subjects preds st st.
Proof. split; [done|]. split; [done|]. by intros s p o Hin []. Qed.

Lemma grown_trans subjects preds st1 st2 st3 :
  grown subjects preds st1 st2 -> grown subjects preds st2 st3 ->
  grown subjects preds st1 st3.
Proof.
  intros (Hi1 & Hg1 & Hn1) (Hi2 & Hg2 & Hn2).
  split; [congruence|]. split; [by etrans|].
  intros s p o Hin Hnin.
  destruct (decide ((s, p, o) ∈ kg st2));
    [by apply (Hn1 s p o)|by apply (Hn2 s p o)].
Qed.

Lemma grown_subjects (subjects subjects' : term -> Prop) preds st st' :
  (forall s, subjects s -> subjects' s) ->
  grown subjects preds st st' -> grown subjects' preds st st'.
Proof.
  intros Hsub (Hi & Hg & Hn). split; [done|]. split; [done|].
  intros s p o Hin Hnin. destruct (Hn s p o Hin Hnin). split; [|done].
  by apply Hsub.
Qed.

Lemma touches_grown e preds all_preds f st :
  touches e preds f -> (forall p, p ∈ preds -> p ∈ all_preds) ->
  grown (eq e) all_preds st (f st).
Proof.
  intros Hf Hsub. destruct (Hf st) as (Hi & Hg & Hn).
  split; [done|]. split; [done|].
  intros s p o Hin Hnin. destruct (Hn s p o Hin Hnin) as [-> Hp].
  split; [done|]. by apply Hsub.
Qed.

(** A predicate of a block is one of the CSV predicates. *)
Ltac csv_pred :=
  let p := fresh "p" in
  let Hp := fresh "Hp" in
  intros p Hp;
  repeat (apply elem_of_cons in Hp as [->|Hp]);
  [ refine (bool_decide_unpack _ _); vm_compute; exact I ..
  | by apply elem_of_nil in Hp ].

Lemma add_csv_grown e row score st :
  grown (eq e) csv_predicates st
    (snd (add_csv_character_triples ratio e row score st)).
Proof.
  assert (Hstep : forall preds f st0 st1,
            touches e preds f -> (forall p, p ∈ preds -> p ∈ csv_predicates) ->
            grown (eq e) csv_predicates st0 st1 ->
            grown (eq e) csv_predicates st0 (f st1)).
  { intros preds f st0 st1 Hf Hsub Hg. eapply grown_trans; [exact Hg|].
    by apply (touches_grown e preds). }
  unfold add_csv_character_triples. cbn [snd].
  apply (Hstep [SCHEMA "isBasedOn"] (add (e, SCHEMA "isBasedOn", provenance)));
    [apply touches_add|csv_pred|].
  apply (Hstep [SCHEMA "spouse"] (add_spouse ratio e row));
    [apply add_spouse_touches|csv_pred|].
  apply (Hstep [PROP "realm"; PROP "realmName"] (add_realm e row));
    [apply add_realm_touches|csv_pred|].
  apply (Hstep [PROP "race"] (add_race e row));
    [apply add_race_touches|csv_pred|].
  apply (Hstep [SCHEMA "height"] (add_height e row));
    [apply (add_single_touches "height")|csv_pred|].
  apply (Hstep [PROP "hairColor"] (add_hair e row));
    [apply (add_single_touches "hair")|csv_pred|].
  apply (Hstep [SCHEMA "gender"] (add_gender e row));
    [apply (add_single_touches "gender")|csv_pred|].
  apply (Hstep [SCHEMA "deathDate"] (add_death e row));
    [apply (add_single_touches "death")|csv_pred|].
  apply (Hstep [SCHEMA "birthDate"] (add_birth e row));
    [apply (add_single_touches "birth")|csv_pred|].
  destruct (Qlt_bool score 1).
  - apply (Hstep [PROP "csvMatchScore"]
             (add (e, PROP "csvMatchScore", float_lit score)));
      [apply touches_add|csv_pred|].
    apply (Hstep [SCHEMA "isBasedOn"] (add (e, SCHEMA "isBasedOn", provenance)));
      [apply touches_add|csv_pred|apply grown_refl].
  - apply (Hstep [SCHEMA "isBasedOn"] (add (e, SCHEMA "isBasedOn", provenance)));
      [apply touches_add|csv_pred|apply grown_refl].
Qed.

(** Whatever [find_best_match] returns comes from the index. *)
Lemma find_best_match_indexed index name threshold m sc :
  find_best_match ratio index name threshold = (Some m, sc) ->
  indexed index m.
Proof.
  unfold find_best_match.
  destruct (PyDict.get (PyStr.lower name) index) as [u|] eqn:E1.
  { intros Heq. assert (u = m) as <- by congruence.
    eexists. by apply get_Some_In in E1. }
  destruct (PyDict.get (PyStr.replace " " "" (PyStr.lower name)) index)
    as [u|] eqn:E2.
  { intros Heq. assert (u = m) as <- by congruence.
    eexists. by apply get_Some_In in E2. }
  pose proof (fuzzy_loop_best ratio name threshold index [] (None, 0%Q)) as Hbest.
  destruct (fold_left _ index _) as [[best|] bs]; cbn beta iota;
    [|intros Heq; discriminate Heq].
  destruct Hbest as (k & Hin & _); [by split|].
  destruct (term_truthy best); [|intros Heq; discriminate Heq]. intros Heq.
  assert (best = m) as <- by congruence. by exists k.
Qed.

Lemma csv_row_grown total threshold i row st :
  grown (indexed (entity_index st)) csv_predicates st
    (csv_row ratio total threshold i row st).
Proof.
  unfold csv_row.
  set (name := PyStr.strip (default "" (PyDict.get "name" row))).
  destruct (negb (PyStr.truthy name)); [apply grown_refl|].
  set (st_p := if ((i + 1) mod 50 =? 0)%nat || (i + 1 =? total)%nat
               then print _ st else st).
  assert (Hp : kg st_p = kg st /\ entity_index st_p = entity_index st).
  { subst st_p. by destruct (((i + 1) mod 50 =? 0)%nat || (i + 1 =? total)%nat). }
  destruct Hp as [Hkg Hidx].
  destruct (find_best_match ratio (entity_index st_p) name threshold)
    as [[e|] score] eqn:Ematch.
  - apply find_best_match_indexed in Ematch. rewrite Hidx in Ematch.
    set (st_m := with_csv _ st_p).
    pose proof (add_csv_grown e row score st_m) as Hg.
    destruct (add_csv_character_triples ratio e row score st_m) as [n st'].
    cbn [snd] in Hg. destruct Hg as (Hi & Hsub & Hnew).
    change (kg st_m) with (kg st_p) in *.
    change (entity_index st_m) with (entity_index st_p) in *.
    rewrite Hkg in *. rewrite Hidx in *.
    split; [exact Hi|]. split; [exact Hsub|].
    intros s p o Hin Hnin. destruct (Hnew s p o Hin Hnin) as [<- Hp].
    by split.
  - split; [exact Hidx|]. split; [by rewrite <- Hkg|].
    intros s p o Hin Hnin. change (kg (with_csv _ st_p)) with (kg st_p) in Hin.
    rewrite Hkg in Hin. done.
Qed.

Lemma csv_loop_grown total threshold rows i st :
  grown (indexed (entity_index st)) csv_predicates st
    (csv_loop ratio total threshold i rows st).
Proof.
  revert i st. induction rows as [|row rows IH]; intros i st; simpl.
  - apply grown_refl.
  - pose proof (csv_row_grown total threshold i row st) as Hrow.
    eapply grown_trans; [exact Hrow|].
    destruct Hrow as (Hidx & _). rewrite <- Hidx. apply IH.
Qed.

Section CsvRun.

Variable float_str : Q -> string.
Variable file_exists : string -> bool.
Variable read_csv : string -> result (list (list (string * string))).

(** X1. A run of [enrich_with_csv] that returns keeps the entity index,
    only adds facts, and every fact it adds has an entity of the index as
    its subject and one of the eleven CSV predicates as its predicate: the
    run never writes about a subject that the index does not hold. *)
Theorem enrich_with_csv_writes_indexed
    (csv_file : string) (threshold : Q) (st st' : enricher) :
  enrich_with_csv ratio float_str file_exists read_csv csv_file threshold st
    = Ok st' ->
  entity_index st' = entity_index st /\
  kg st ⊆ kg st' /\
  forall s p o, (s, p, o) ∈ kg st' -> (s, p, o) ∉ kg st ->
    (exists k, In (k, s) (entity_index st)) /\ p ∈ csv_predicates.
Proof.
  unfold enrich_with_csv. destruct (negb (file_exists csv_file)).
  - intros [= <-]. apply (grown_refl (indexed (entity_index st)) csv_predicates st).
  - destruct (read_csv csv_file) as [rows|exn]; [|done].
    cbn [mbind result_bind]. intros [= <-].
    exact (csv_loop_grown (length rows) threshold rows 0 _).
Qed.

End CsvRun.

(** [len(self.graph) - triples_before] counts the facts that are new. *)
Lemma size_difference (g g' : graph) : g ⊆ g' -> size g' - size g = size (g' ∖ g).
Proof.
  intros Hsub. rewrite (union_difference_L g g' Hsub) at 1.
  rewrite size_union by set_solver. lia.
Qed.

(** X2. One matched row: [add_csv_character_triples] keeps the index, only
    adds facts, all of them about the matched entity and under a CSV
    predicate; the provenance fact is there afterwards whatever the row
    holds; and the number it returns is the number of facts that were not
    in the graph before (a fact already present is not counted). *)
Theorem csv_row_writes_matched_entity
    (e : term) (row : list (string * string)) (score : Q) (st : enricher) :
  let result := add_csv_character_triples ratio e row score st in
  entity_index (snd result) = entity_index st /\
  kg st ⊆ kg (snd result) /\
  (e, SCHEMA "isBasedOn", provenance) ∈ kg (snd result) /\
  (forall s p o, (s, p, o) ∈ kg (snd result) -> (s, p, o) ∉ kg st ->
     s = e /\ p ∈ csv_predicates) /\
  fst result = size (kg (snd result) ∖ kg st).
Proof.
  intros result.
  destruct (add_csv_grown e row score st) as (Hidx & Hsub & Hnew).
  fold result in Hidx, Hsub, Hnew.
  split; [done|]. split; [done|]. split; [|split].
  - subst result. unfold add_csv_character_triples. cbn [snd].
    rewrite kg_add. apply elem_of_union_r. by apply elem_of_singleton.
  - intros s p o Hin Hnin. by destruct (Hnew s p o Hin Hnin) as [<- Hp].
  - rewrite <- (size_difference _ _ Hsub). reflexivity.
Qed.

(** The blocks of a row leave the row counters alone. *)
Lemma fill_gap_counters field value e pred emit st :
  (forall v st0, match_counters (emit v st0) = match_counters st0) ->
  match_counters (fill_gap field value e pred emit st) = match_counters st.
Proof.
  intros Hemit. unfold fill_gap. destruct value as [v|]; [|done].
  destruct (PyStr.truthy v && _); [|done].
  exact (Hemit v st).
Qed.

Lemma fold_counters {A : Type} (step : enricher -> A -> enricher)
    (l : list A) st :
  (forall st0 x, match_counters (step st0 x) = match_counters st0) ->
  match_counters (fold_left step l st) = match_counters st.
Proof.
  intros Hstep. revert st. induction l as [|x l IH]; intros st; simpl; [done|].
  by rewrite IH, Hstep.
Qed.

Lemma add_csv_counters e row score st :
  match_counters (snd (add_csv_character_triples ratio e row score st))
  = match_counters st.
Proof.
  unfold add_csv_character_triples. cbn [snd].
  change (match_counters (add ?t ?x)) with (match_counters x).
  unfold add_spouse. rewrite fill_gap_counters;
    [|intros v st0; by repeat case_match].
  unfold add_realm. rewrite fill_gap_counters;
    [|intros v st0; apply fold_counters; intros st1 x; by case_match].
  unfold add_race. rewrite fill_gap_counters;
    [|intros v st0; apply fold_counters; intros st1 x; by case_match].
  unfold add_height, add_hair, add_gender, add_death, add_birth.
  rewrite !fill_gap_counters by done.
  by destruct (Qlt_bool score 1).
Qed.

Lemma csv_row_accounted total threshold i row st :
  total_characters (csv (csv_row ratio total threshold i row st))
  = total_characters (csv st) /\
  accounted (csv (csv_row ratio total threshold i row st))
  = accounted (csv st) + (if named_row row then 1 else 0).
Proof.
  unfold csv_row, named_row.
  set (name := PyStr.strip (default "" (PyDict.get "name" row))).
  destruct (PyStr.truthy name); cbn [negb]; [|split; [done|lia]].
  set (st_p := if ((i + 1) mod 50 =? 0)%nat || (i + 1 =? total)%nat
               then print _ st else st).
  assert (Hp : csv st_p = csv st).
  { subst st_p. by destruct (((i + 1) mod 50 =? 0)%nat || (i + 1 =? total)%nat). }
  destruct (find_best_match ratio (entity_index st_p) name threshold)
    as [[e|] score].
  - set (st_m := with_csv _ st_p).
    pose proof (add_csv_counters e row score st_m) as Hc.
    destruct (add_csv_character_triples ratio e row score st_m) as [n st'].
    cbn [snd] in Hc. unfold match_counters in Hc.
    injection Hc as Ht He Hf Hn. subst st_m.
    cbn [csv with_csv total_characters exact_matches fuzzy_matches no_matches]
      in Ht, He, Hf, Hn.
    unfold accounted.
    cbn [csv with_csv total_characters exact_matches fuzzy_matches no_matches].
    rewrite Ht, He, Hf, Hn, Hp. split; [done|].
    destruct (Qeq_bool score 1); lia.
  - unfold accounted.
    cbn [csv with_csv total_characters exact_matches fuzzy_matches no_matches].
    rewrite Hp. split; [done|]. lia.
Qed.

Lemma csv_loop_accounted total threshold rows i st :
  total_characters (csv (csv_loop ratio total threshold i rows st))
  = total_characters (csv st) /\
  accounted (csv (csv_loop ratio total threshold i rows st))
  = accounted (csv st) + length (List.filter named_row rows).
Proof.
  revert i st. induction rows as [|row rows IH]; intros i st; simpl.
  - split; [done|lia].
  - destruct (IH (S i) (csv_row ratio total threshold i row st)) as [Ht Ha].
    destruct (csv_row_accounted total threshold i row st) as [Ht' Ha'].
    rewrite Ht, Ha, Ht', Ha'. split; [done|].
    destruct (named_row row); simpl; lia.
Qed.

Section CsvAccounting.

Variable float_str : Q -> string.
Variable file_exists : string -> bool.
Variable read_csv : string -> result (list (list (string * string))).

(** X3. The row counters of a run that returns. When the CSV file
    exists and loads and [enrich_with_csv] returns, it has recorded the
    number of rows, and every row with a non-empty name is counted once
    and only once among the exact, fuzzy and missing matches: the three
    counters grow together by the number of such rows. *)
Theorem enrich_with_csv_accounts_rows
    (csv_file : string) (threshold : Q) (st st' : enricher)
    (rows : list (list (string * string))) :
  file_exists csv_file = true ->
  read_csv csv_file = Ok rows ->
  enrich_with_csv ratio float_str file_exists read_csv csv_file threshold st
    = Ok st' ->
  total_characters (csv st') = length rows /\
  accounted (csv st') = accounted (csv st) + length (List.filter named_row rows).
Proof.
  intros Hexists Hread. unfold enrich_with_csv.
  rewrite Hexists, Hread. cbn [negb mbind result_bind].
  intros [= <-]. cbn [csv print].
  match goal with
  | |- context [csv_loop ratio ?t ?thr ?i ?rs ?s] =>
      destruct (csv_loop_accounted t thr rs i s) as [Ht Ha]
  end.
  rewrite Ht, Ha. done.
Qed.

End CsvAccounting.

(** *** Multi-valued attributes and the spouse *)

Ltac differ := let H := fresh in intros H; vm_compute in H; discriminate H.

Lemma objects_union (g g' : graph) s p :
  objects (g ∪ g') s p = objects g s p ∪ objects g' s p.
Proof.
  apply set_eq. intros o.
  rewrite elem_of_union, !elem_of_objects, elem_of_union. done.
Qed.

Lemma objects_list {A : Type} (f : A -> term) (l : list A) e p s p' :
  objects (list_to_set (map (fun x => (e, p, f x)) l)) s p'
  = if decide (s = e /\ p' = p) then list_to_set (map f l) else ∅.
Proof.
  apply set_eq. intros o. rewrite elem_of_objects, elem_of_list_to_set.
  rewrite list_elem_of_fmap.
  destruct (decide (s = e /\ p' = p)) as [[-> ->]|Hne].
  - rewrite elem_of_list_to_set, list_elem_of_fmap. split.
    + intros (x & [= ->] & Hx). by exists x.
    + intros (x & -> & Hx). by exists x.
  - rewrite elem_of_empty. split; [|done].
    intros (x & [= -> -> _] & _). by destruct Hne.
Qed.

(** The loop over the tokens of a race. *)
Lemma race_tokens_kg e (tokens : list string) st :
  kg (fold_left
        (fun st single_race =>
           if PyStr.truthy single_race
           then add (e, PROP "race", en single_race) st else st)
        tokens st)
  = kg st ∪ list_to_set
              (map (fun t => (e, PROP "race", en t))
                 (List.filter PyStr.truthy tokens)).
Proof.
  revert st. induction tokens as [|t tokens IH]; intros st; simpl.
  - by rewrite (right_id_L ∅ (∪)).
  - rewrite IH. destruct (PyStr.truthy t); [|done].
    rewrite kg_add. simpl. set_solver.
Qed.

(** The loop over the tokens of a realm. *)
Lemma realm_tokens_kg e (tokens : list string) st :
  kg (fold_left
        (fun st single_realm =>
           if PyStr.truthy single_realm then
             let realm_uri := RESOURCE (PyStr.replace " " "_" single_realm) in
             let st := add (e, PROP "realm", realm_uri) st in
             add (e, PROP "realmName", en single_realm) st
           else st)
        tokens st)
  = kg st
    ∪ list_to_set
        (map (fun t => (e, PROP "realm", RESOURCE (PyStr.replace " " "_" t)))
           (List.filter PyStr.truthy tokens))
    ∪ list_to_set
        (map (fun t => (e, PROP "realmName", en t))
           (List.filter PyStr.truthy tokens)).
Proof.
  revert st. induction tokens as [|t tokens IH]; intros st; simpl.
  - by rewrite !(right_id_L ∅ (∪)).
  - rewrite IH. destruct (PyStr.truthy t); [|done].
    rewrite !kg_add. simpl. set_solver.
Qed.

Lemma add_race_objects e row st s :
  objects (kg (add_race e row st)) s (PROP "race")
  = if decide (s = e /\ objects (kg st) e (PROP "race") = ∅)
    then match clean_value (PyDict.get "race" row) with
         | Some v => list_to_set (map en (value_tokens v))
         | None => ∅
         end
    else objects (kg st) s (PROP "race").
Proof.
  unfold add_race, fill_gap.
  destruct (clean_value (PyDict.get "race" row)) as [v|] eqn:Ev.
  - rewrite (clean_value_truthy _ _ Ev). cbn [andb].
    destruct (decide (objects (kg st) e (PROP "race") = ∅)) as [Hempty|Hne].
    + rewrite bool_decide_true by done.
      change (kg (count_enriched _ ?x)) with (kg x).
      rewrite race_tokens_kg, objects_union, objects_list.
      fold (value_tokens v).
      destruct (decide (s = e)) as [->|Hs].
      * rewrite !decide_True by done. by rewrite Hempty, (left_id_L ∅ (∪)).
      * rewrite !decide_False by tauto. by rewrite (right_id_L ∅ (∪)).
    + rewrite bool_decide_false by done. by rewrite decide_False by tauto.
  - destruct (decide _) as [[-> ->]|]; done.
Qed.

Lemma add_realm_objects e row st s :
  objects (kg (add_realm e row st)) s (PROP "realm")
  = (if decide (s = e /\ objects (kg st) e (PROP "realm") = ∅)
     then match clean_value (PyDict.get "realm" row) with
          | Some v =>
              list_to_set
                (map (fun t => RESOURCE (PyStr.replace " " "_" t)) (value_tokens v))
          | None => ∅
          end
     else objects (kg st) s (PROP "realm")) /\
  objects (kg (add_realm e row st)) s (PROP "realmName")
  = objects (kg st) s (PROP "realmName")
    ∪ (if decide (s = e /\ objects (kg st) e (PROP "realm") = ∅)
       then match clean_value (PyDict.get "realm" row) with
            | Some v => list_to_set (map en (value_tokens v))
            | None => ∅
            end
       else ∅).
Proof.
  unfold add_realm, fill_gap.
  destruct (clean_value (PyDict.get "realm" row)) as [v|] eqn:Ev.
  - rewrite (clean_value_truthy _ _ Ev). cbn [andb].
    destruct (decide (objects (kg st) e (PROP "realm") = ∅)) as [Hempty|Hne].
    + rewrite bool_decide_true by done.
      change (kg (count_enriched _ ?x)) with (kg x).
      rewrite realm_tokens_kg, !objects_union, !objects_list.
      fold (value_tokens v).
      destruct (decide (s = e)) as [->|Hs].
      * rewrite !decide_True by done.
        rewrite (decide_False (P := _ /\ PROP "realm" = PROP "realmName"))
          by (intros [_ H]; revert H; differ).
        rewrite (decide_False (P := _ /\ PROP "realmName" = PROP "realm"))
          by (intros [_ H]; revert H; differ).
        rewrite Hempty, !(left_id_L ∅ (∪)), !(right_id_L ∅ (∪)).
        by rewrite !decide_True by done.
      * rewrite !decide_False by tauto. by rewrite !(right_id_L ∅ (∪)).
    + rewrite bool_decide_false by done. rewrite !decide_False by tauto.
      by rewrite (right_id_L ∅ (∪)).
  - destruct (decide _) as [[-> ->]|]; by rewrite (right_id_L ∅ (∪)).
Qed.

Lemma add_spouse_objects e row st s :
  objects (kg (add_spouse ratio e row st)) s (SCHEMA "spouse")
  = if decide (s = e /\ objects (kg st) e (SCHEMA "spouse") = ∅)
    then match clean_value (PyDict.get "spouse" row) with
         | Some v => {[ spouse_target ratio (entity_index st) v ]}
         | None => ∅
         end
    else objects (kg st) s (SCHEMA "spouse").
Proof.
  unfold add_spouse, fill_gap.
  destruct (clean_value (PyDict.get "spouse" row)) as [v|] eqn:Ev.
  - rewrite (clean_value_truthy _ _ Ev). cbn [andb].
    destruct (decide (objects (kg st) e (SCHEMA "spouse") = ∅)) as [Hempty|Hne].
    + rewrite bool_decide_true by done.
      change (kg (count_enriched _ ?x)) with (kg x).
      assert (Hkg : forall o, objects (kg (add (e, SCHEMA "spouse", o) st)) s
                                (SCHEMA "spouse")
                = if decide (s = e /\ objects (kg st) e (SCHEMA "spouse") = ∅)
                  then {[ o ]} else objects (kg st) s (SCHEMA "spouse")).
      { intros o. rewrite objects_add.
        destruct (decide (s = e)) as [->|Hs].
        - rewrite !decide_True by done. by rewrite Hempty, (left_id_L ∅ (∪)).
        - rewrite !decide_False by (intros [? _]; congruence). done. }
      unfold spouse_target.
      destruct (fst (find_best_match ratio (entity_index st) v (9 # 10)))
        as [m|]; [destruct (term_truthy m)|]; apply Hkg.
    + rewrite bool_decide_false by done. by rewrite decide_False by tauto.
  - destruct (decide _) as [[-> ->]|]; done.
Qed.

Ltac row_blocks :=
  unfold add_csv_character_triples; cbn [snd];
  change (add_birth ?e ?r) with (add_single "birth" (SCHEMA "birthDate") e r);
  change (add_death ?e ?r) with (add_single "death" (SCHEMA "deathDate") e r);
  change (add_gender ?e ?r) with (add_single "gender" (SCHEMA "gender") e r);
  change (add_hair ?e ?r) with (add_single "hair" (PROP "hairColor") e r);
  change (add_height ?e ?r) with (add_single "height" (SCHEMA "height") e r).

Ltac row_frames :=
  repeat first
    [ rewrite frame_add by differ
    | rewrite frame_single by differ
    | rewrite frame_race by differ
    | rewrite frame_realm by differ
    | rewrite (frame_spouse ratio) by differ
    | rewrite add_race_objects
    | rewrite (proj1 (add_realm_objects _ _ _ _))
    | rewrite (proj2 (add_realm_objects _ _ _ _))
    | rewrite add_spouse_objects ].

Ltac row_index :=
  repeat first
    [ rewrite (proj1 (add_realm_touches _ _ _))
    | rewrite (proj1 (add_race_touches _ _ _))
    | rewrite (proj1 (add_single_touches _ _ _ _ _))
    | progress change (entity_index (add ?t ?x)) with (entity_index x) ].

(** X4. Race and realm arrive as comma-separated text. When the matched
    entity has no race fact, the row's race is split at the commas, each
    token trimmed, empty tokens dropped, and each remaining token becomes
    one race literal; an entity with a race fact keeps its own. The realm
    is split the same way, under the guard of the realm predicate alone:
    each token gives a reference to the resource named after it (blanks
    turned into underscores) and a realm-name literal beside it. *)
Theorem csv_multi_valued
    (e : term) (row : list (string * string)) (score : Q) (st : enricher)
    (s : term) :
  let st' := snd (add_csv_character_triples ratio e row score st) in
  objects (kg st') s (PROP "race")
  = (if decide (s = e /\ objects (kg st) e (PROP "race") = ∅)
     then match clean_value (PyDict.get "race" row) with
          | Some v => list_to_set (map en (value_tokens v))
          | None => ∅
          end
     else objects (kg st) s (PROP "race")) /\
  objects (kg st') s (PROP "realm")
  = (if decide (s = e /\ objects (kg st) e (PROP "realm") = ∅)
     then match clean_value (PyDict.get "realm" row) with
          | Some v =>
              list_to_set
                (map (fun t => RESOURCE (PyStr.replace " " "_" t)) (value_tokens v))
          | None => ∅
          end
     else objects (kg st) s (PROP "realm")) /\
  objects (kg st') s (PROP "realmName")
  = objects (kg st) s (PROP "realmName")
    ∪ (if decide (s = e /\ objects (kg st) e (PROP "realm") = ∅)
       then match clean_value (PyDict.get "realm" row) with
            | Some v => list_to_set (map en (value_tokens v))
            | None => ∅
            end
       else ∅).
Proof.
  intros st'. subst st'. row_blocks.
  destruct (Qlt_bool score 1); (split; [|split]); row_frames; reflexivity.
Qed.

(** X5. The spouse is single-valued and resolved through the index: when
    the matched entity has no spouse fact and the row names a spouse, the
    one fact added points to the entity [find_best_match] returns for that
    name at threshold 0.9, or, without a usable match, to the resource
    named after the raw value; an entity with a spouse fact keeps it. *)
Theorem csv_spouse
    (e : term) (row : list (string * string)) (score : Q) (st : enricher)
    (s : term) :
  objects (kg (snd (add_csv_character_triples ratio e row score st))) s
    (SCHEMA "spouse")
  = if decide (s = e /\ objects (kg st) e (SCHEMA "spouse") = ∅)
    then match clean_value (PyDict.get "spouse" row) with
         | Some v => {[ spouse_target ratio (entity_index st) v ]}
         | None => ∅
         end
    else objects (kg st) s (SCHEMA "spouse").
Proof.
  row_blocks.
  destruct (Qlt_bool score 1); row_frames; row_index; reflexivity.
Qed.

End CsvRunFacts.

(** ** Python strings *)

Section StringFacts.

Lemma rstrip_cons (c : ascii) (r : string) :
  PyStr.rstrip (String c r)
  = match PyStr.rstrip r with
    | EmptyString => if PyStr.is_space c then EmptyString else String c EmptyString
    | r' => String c r'
    end.
Proof. reflexivity. Qed.

Lemma rstrip_idem (s : string) : PyStr.rstrip (PyStr.rstrip s) = PyStr.rstrip s.
Proof.
  induction s as [|c r IH]; [done|].
  rewrite (rstrip_cons c r).
  destruct (PyStr.rstrip r) as [|d r'] eqn:E.
  - destruct (PyStr.is_space c) eqn:Ec; [done|].
    rewrite rstrip_cons. simpl. by rewrite Ec.
  - rewrite rstrip_cons. by rewrite IH.
Qed.

Lemma rstrip_head (c : ascii) (r : string) :
  PyStr.is_space c = false -> exists r', PyStr.rstrip (String c r) = String c r'.
Proof.
  intros Hc. rewrite rstrip_cons. destruct (PyStr.rstrip r) as [|d r'].
  - rewrite Hc. by exists "".
  - by eexists.
Qed.

Lemma lstrip_head (s : string) :
  PyStr.lstrip s = "" \/
  exists c r, PyStr.lstrip s = String c r /\ PyStr.is_space c = false.
Proof.
  induction s as [|c r IH]; simpl; [by left|].
  destruct (PyStr.is_space c) eqn:Ec; [done|]. right. by exists c, r.
Qed.

(** [s.strip().strip() == s.strip()] *)
Lemma strip_idem (s : string) : PyStr.strip (PyStr.strip s) = PyStr.strip s.
Proof.
  unfold PyStr.strip.
  destruct (lstrip_head s) as [->|(c & r & -> & Hc)]; [done|].
  destruct (rstrip_head c r Hc) as [r' Hr]. rewrite Hr.
  simpl PyStr.lstrip. rewrite Hc. rewrite <- Hr. apply rstrip_idem.
Qed.

End StringFacts.

(** ** Step 4: cleaning, indexing and matching *)

Section IndexFacts.
Import Step4 Vocab.

Variable ratio : string -> string -> Q.
Variable float_str : Q -> string.
Variable bnode_str : nat -> string.

(** X6. [clean_value] returns the trimmed value unless the value is
    missing or its trimmed form is one of the placeholders [","], ["-"],
    [""], ["None"], ["none"]; what it returns is never a placeholder and
    is a fixed point: cleaning a cleaned value changes nothing. *)
Theorem clean_value_spec (value : option string) :
  match clean_value value with
  | Some c =>
      exists v, value = Some v /\ c = PyStr.strip v /\ (c ∉ placeholders) /\
                clean_value (Some c) = Some c
  | None =>
      value = None \/
      exists v, value = Some v /\ PyStr.strip v ∈ placeholders
  end.
Proof.
  assert (Hclean : forall v, PyStr.strip v ∉ placeholders ->
            clean_value (Some v) = Some (PyStr.strip v)).
  { intros v Hv. unfold clean_value.
    destruct (PyStr.truthy v) eqn:E1; cbn [negb orb].
    - destruct (PyStr.truthy (PyStr.strip v)) eqn:E2; cbn [negb].
      + by rewrite bool_decide_false.
      + unfold PyStr.truthy in E2. apply negb_false_iff, String.eqb_eq in E2.
        destruct Hv. rewrite E2. unfold placeholders. set_solver.
    - unfold PyStr.truthy in E1. apply negb_false_iff, String.eqb_eq in E1.
      subst v. destruct Hv. unfold placeholders. set_solver. }
  destruct value as [v|]; [|by left].
  destruct (decide (PyStr.strip v ∈ placeholders)) as [Hin|Hnin].
  - assert (clean_value (Some v) = None) as ->; [|right; by exists v].
    unfold clean_value. destruct (negb (PyStr.truthy v) || _); [done|].
    by rewrite bool_decide_true.
  - rewrite (Hclean v Hnin). exists v. split; [done|]. split; [done|].
    split; [done|]. rewrite Hclean; rewrite strip_idem; done.
Qed.

(** A key stays in a dictionary through later writes. *)
Lemma set_keeps_key {V : Type} (k k' : string) (v : V) (d : list (string * V)) :
  is_Some (PyDict.get k d) -> is_Some (PyDict.get k (PyDict.set k' v d)).
Proof.
  intros Hk. destruct (decide (k' = k)) as [->|Hne].
  - rewrite get_set_eq. by eexists.
  - by rewrite get_set_ne.
Qed.

Lemma index_row_keeps_key index row k :
  is_Some (PyDict.get k index) ->
  is_Some (PyDict.get k (index_row float_str bnode_str index row)).
Proof.
  intros Hk. destruct row as [e nm]. unfold index_row.
  by do 3 apply set_keeps_key.
Qed.

(** The three writes of one row all store the row's entity, so its
    lowercased name leads to it. *)
Lemma index_row_name index e nm :
  PyDict.get (PyStr.lower (term_str float_str bnode_str nm))
    (index_row float_str bnode_str index (e, nm)) = Some e.
Proof.
  unfold index_row.
  set (name := PyStr.lower (term_str float_str bnode_str nm)).
  set (i1 := PyDict.set name e index).
  assert (H1 : PyDict.get name i1 = Some e) by apply get_set_eq.
  set (k2 := PyStr.replace " " "" name).
  set (i2 := PyDict.set k2 e i1).
  assert (H2 : PyDict.get name i2 = Some e).
  { subst i2. destruct (decide (k2 = name)) as [->|Hne].
    - apply get_set_eq.
    - by rewrite get_set_ne. }
  set (k3 := PyStr.replace "." "" _).
  destruct (decide (k3 = name)) as [->|Hne].
  - apply get_set_eq.
  - by rewrite get_set_ne.
Qed.

(** Every entity of the index comes from a row, and every row leaves its
    key. *)
Lemma build_index_from rows index (seen : list (term * term)) :
  Forall (fun kv => exists nm, In (snd kv, nm) (seen ++ rows)%list) index ->
  (forall e nm, In (e, nm) seen ->
     is_Some (PyDict.get (PyStr.lower (term_str float_str bnode_str nm)) index)) ->
  let index' := fold_left (index_row float_str bnode_str) rows index in
  Forall (fun kv => exists nm, In (snd kv, nm) (seen ++ rows)%list) index' /\
  forall e nm, In (e, nm) (seen ++ rows)%list ->
    is_Some (PyDict.get (PyStr.lower (term_str float_str bnode_str nm)) index').
Proof.
  revert index seen. induction rows as [|row rows IH]; intros index seen Hv Hk.
  - simpl. rewrite app_nil_r in *. by split.
  - simpl. replace (seen ++ row :: rows)%list with ((seen ++ [row]) ++ rows)%list
      in * by (by rewrite <- app_assoc).
    apply IH.
    + destruct row as [e nm]. unfold index_row.
      repeat apply set_Forall; try done; exists nm;
        apply in_or_app; left; apply in_or_app; right; by left.
    + intros e nm [Hin|[->|[]]]%in_app_or.
      * apply index_row_keeps_key. by apply (Hk e).
      * rewrite index_row_name. by eexists.
Qed.

(** One row stores its entity under each of its three keys and leaves
    every other key as it was. *)
Lemma index_row_lookup (index : list (string * term)) (e nm : term) (k : string) :
  PyDict.get k (index_row float_str bnode_str index (e, nm))
  = if bool_decide (k ∈ name_keys float_str bnode_str nm) then Some e
    else PyDict.get k index.
Proof.
  unfold index_row, name_keys. cbn zeta.
  set (name := PyStr.lower (term_str float_str bnode_str nm)).
  set (k2 := PyStr.replace " " "" name).
  set (k3 := PyStr.replace "." "" _).
  destruct (decide (k = k3)) as [->|H3].
  { rewrite get_set_eq, bool_decide_true; [done|]. set_solver. }
  rewrite (get_set_ne k3 k) by done.
  destruct (decide (k = k2)) as [->|H2].
  { rewrite get_set_eq, bool_decide_true; [done|]. set_solver. }
  rewrite (get_set_ne k2 k) by done.
  destruct (decide (k = name)) as [->|H1].
  { rewrite get_set_eq, bool_decide_true; [done|]. set_solver. }
  rewrite (get_set_ne name k) by done.
  rewrite bool_decide_false; [done|]. set_solver.
Qed.

Lemma find_snoc {A : Type} (f : A -> bool) (l : list A) (x : A) :
  List.find f (l ++ [x])%list
  = match List.find f l with
    | Some y => Some y
    | None => if f x then Some x else None
    end.
Proof.
  induction l as [|y l IH]; simpl; [done|]. destruct (f y); [done|apply IH].
Qed.

(** The last row that registers a key decides what the key leads to. *)
Lemma build_index_lookup (rows : list (term * term)) :
  forall (index : list (string * term)) (k : string),
  PyDict.get k (fold_left (index_row float_str bnode_str) rows index)
  = match List.find
            (fun row => bool_decide (k ∈ name_keys float_str bnode_str (snd row)))
            (rev rows) with
    | Some row => Some (fst row)
    | None => PyDict.get k index
    end.
Proof.
  induction rows as [|[e nm] rows IH]; intros index k; [done|].
  cbn [fold_left rev]. rewrite IH, find_snoc. cbn [snd fst].
  destruct (List.find _ (rev rows)); [done|].
  rewrite index_row_lookup.
  by destruct (bool_decide (k ∈ name_keys float_str bnode_str nm)).
Qed.

Lemma find_rev_split {A : Type} (f : A -> bool) (l : list A) (x : A) :
  List.find f (rev l) = Some x ->
  exists before after,
    l = (before ++ x :: after)%list /\ f x = true /\
    forall y, In y after -> f y = false.
Proof.
  induction l as [|a l IH]; [done|].
  cbn [rev]. rewrite find_snoc.
  destruct (List.find f (rev l)) as [y|] eqn:Efind.
  - intros [= ->]. destruct (IH eq_refl) as (before & after & -> & Hx & Hafter).
    by exists (a :: before), after.
  - destruct (f a) eqn:Ea; [|done]. intros [= ->].
    exists [], l. split; [done|]. split; [done|].
    intros y Hy. apply (find_none f (rev l) Efind). by apply in_rev in Hy.
Qed.

(** X7. Every name in the graph is found again with confidence 1, and by
    the last row that registered it: looking up the text of a name [o] of
    the graph in the index built from the graph returns, by the exact-key
    route, the entity [u] of the last row of the name query one of whose
    three keys (the lowercased name, that name without blanks, or without
    hyphens, underscores and dots) is the lowercased text of [o]. That
    entity carries the registering name in the graph; it need not be the
    entity that carries [o]. *)
Theorem graph_names_match_exactly
    (g : graph) (s o : term) (threshold : Q) :
  (s, SCHEMA "name", o) ∈ g ->
  let key := PyStr.lower (term_str float_str bnode_str o) in
  exists u o' before after,
    name_rows g = (before ++ (u, o') :: after)%list /\
    key ∈ name_keys float_str bnode_str o' /\
    (forall row, In row after -> key ∉ name_keys float_str bnode_str (snd row)) /\
    (u, SCHEMA "name", o') ∈ g /\
    find_best_match ratio (build_entity_index float_str bnode_str g)
      (term_str float_str bnode_str o) threshold = (Some u, 1%Q).
Proof.
  intros Hin key.
  assert (Hrow : In (s, o) (name_rows g)).
  { apply list_elem_of_In. unfold name_rows. apply list_elem_of_omap.
    exists (s, SCHEMA "name", o). split; [by apply elem_of_elements|].
    by rewrite decide_True. }
  pose proof (build_index_lookup (name_rows g) [] key) as Hget.
  fold (build_entity_index float_str bnode_str g) in Hget.
  destruct (List.find _ (rev (name_rows g))) as [[u o']|] eqn:Efind.
  2:{ exfalso. apply in_rev in Hrow.
      pose proof (find_none _ _ Efind _ Hrow) as Hno. cbn [snd] in Hno.
      apply bool_decide_eq_false in Hno. apply Hno.
      unfold name_keys, key. set_solver. }
  apply find_rev_split in Efind as (before & after & Hrows & Hkey & Hafter).
  cbn [snd] in Hkey. apply bool_decide_eq_true in Hkey.
  exists u, o', before, after. split; [done|]. split; [done|]. split.
  { intros row Hr. specialize (Hafter row Hr).
    by apply bool_decide_eq_false in Hafter. }
  split.
  { assert (Hu : In (u, o') (name_rows g)).
    { rewrite Hrows. apply in_or_app. right. by left. }
    apply list_elem_of_In in Hu. unfold name_rows in Hu.
    apply list_elem_of_omap in Hu as ([[s' p'] o''] & Helem & Hf).
    apply elem_of_elements in Helem. cbn beta iota in Hf.
    destruct (decide (p' = SCHEMA "name")) as [->|]; [|discriminate Hf].
    by injection Hf as -> ->. }
  unfold find_best_match. fold key. by rewrite Hget.
Qed.

#[local] Abbreviation score := (similarity_score ratio).

Lemma fuzzy_step_first (name : string) (threshold : Q)
    (seen : list (string * term)) (best : option term * Q)
    (entry : string * term) :
  first_best ratio name threshold seen best ->
  first_best ratio name threshold (seen ++ [entry])
    (fuzzy_step ratio name threshold best entry).
Proof.
  destruct best as [best_match best_score], entry as [key uri].
  unfold fuzzy_step.
  destruct (Qlt_bool best_score (score name key)
            && Qle_bool threshold (score name key)) eqn:Etest.
  - apply andb_true_iff in Etest as [Hlt%Qlt_bool_iff Hthr%Qle_bool_iff].
    intros Hbest. exists seen, key, []. split; [done|]. split; [done|].
    split; [done|].
    destruct best_match as [m|]; simpl in Hbest.
    + destruct Hbest as (before & k & after & -> & -> & _ & Hpos & Hb & Ha).
      split; [lra|]. split; [|by intros k' u' []].
      intros k' u' [Hin|[[= <- <-]|Hin]]%in_app_or.
      * specialize (Hb k' u' Hin). lra.
      * done.
      * specialize (Ha k' u' Hin). lra.
    + destruct Hbest as [-> Hnone]. split; [done|].
      split; [|by intros k' u' []].
      intros k' u' Hin.
      destruct (Qlt_le_dec (score name k') (score name key)) as [|Hge]; [done|].
      destruct (Hnone k' u' Hin). split; lra.
  - apply andb_false_iff in Etest.
    assert (Hkey : ~ ((best_score < score name key)%Q
                      /\ (threshold <= score name key)%Q)).
    { intros [H1%Qlt_bool_iff H2%Qle_bool_iff]. destruct Etest; congruence. }
    destruct best_match as [m|]; simpl.
    + intros (before & k & after & -> & Hs & Hthr & Hpos & Hb & Ha).
      exists before, k, (after ++ [(key, uri)])%list.
      split; [by rewrite <- app_assoc|]. repeat split; try done.
      intros k' u' [Hin|[[= <- <-]|[]]]%in_app_or; [by eapply Ha|].
      destruct (Qlt_le_dec best_score (score name key)) as [Hgt|]; [|done].
      destruct Hkey. split; lra.
    + intros [-> Hnone]. split; [done|].
      intros k u [Hin|[[= <- <-]|[]]]%in_app_or; [by eapply Hnone|].
      intros [H1 H2]. by destruct Hkey.
Qed.

Lemma fuzzy_loop_first (name : string) (threshold : Q)
    (index seen : list (string * term)) (best : option term * Q) :
  first_best ratio name threshold seen best ->
  first_best ratio name threshold (seen ++ index)
    (fold_left (fuzzy_step ratio name threshold) index best).
Proof.
  revert seen best. induction index as [|entry index IH]; intros seen best Hbest.
  - by rewrite app_nil_r.
  - simpl. replace (seen ++ entry :: index)%list
      with ((seen ++ [entry]) ++ index)%list by (by rewrite <- app_assoc).
    by apply IH, fuzzy_step_first.
Qed.

(** X8. Ties in the fuzzy search go to the entry that comes first in the
    index: when neither exact key is present and a match is returned, the
    index splits around the returned entry so that every entry before it
    scores strictly lower and every entry after it scores at most as
    high. *)
Theorem fuzzy_match_is_first_best
    (index : list (string * term)) (name : string) (threshold : Q)
    (m : term) (sc : Q) :
  PyDict.get (PyStr.lower name) index = None ->
  PyDict.get (PyStr.replace " " "" (PyStr.lower name)) index = None ->
  find_best_match ratio index name threshold = (Some m, sc) ->
  exists before key after,
    index = (before ++ (key, m) :: after)%list /\
    sc = score name key /\ (threshold <= sc)%Q /\ (0 < sc)%Q /\
    (forall k u, In (k, u) before -> (score name k < sc)%Q) /\
    (forall k u, In (k, u) after -> (score name k <= sc)%Q).
Proof.
  intros H1 H2. unfold find_best_match. rewrite H1, H2.
  pose proof (fuzzy_loop_first name threshold index [] (None, 0%Q)) as Hbest.
  destruct (fold_left (fuzzy_step ratio name threshold) index (None, 0%Q))
    as [[best|] bs]; cbn beta iota; [|intros Heq; discriminate Heq].
  destruct Hbest as (before & k & after & Hidx & Hs & Hthr & Hpos & Hb & Ha);
    [by split|].
  destruct (term_truthy best); [|intros Heq; discriminate Heq].
  intros Heq. assert (best = m /\ bs = sc) as [<- <-] by (split; congruence).
  by exists before, k, after.
Qed.

End IndexFacts.

(** ** Step 4: the card enrichment *)

Section MetwFacts.
Import Step4 Vocab.

Variable ratio : string -> string -> Q.
Variable json_repr : json -> string.

Implicit Types (st : enricher).

Lemma add_card_property_grows card_uri st kv :
  kg st ⊆ kg (add_card_property json_repr card_uri st kv) /\
  entity_index (add_card_property json_repr card_uri st kv) = entity_index st /\
  csv (add_card_property json_repr card_uri st kv) = csv st /\
  metw (add_card_property json_repr card_uri st kv) = metw st.
Proof.
  destruct kv as [key value]. unfold add_card_property.
  destruct (negb _ && json_truthy value); [|done].
  destruct (number_lit _); (split; [rewrite kg_add; apply union_subseteq_l|done]).
Qed.

Lemma card_properties_grow card_uri fields st :
  kg st ⊆ kg (fold_left (add_card_property json_repr card_uri) fields st) /\
  entity_index (fold_left (add_card_property json_repr card_uri) fields st)
  = entity_index st /\
  csv (fold_left (add_card_property json_repr card_uri) fields st) = csv st /\
  metw (fold_left (add_card_property json_repr card_uri) fields st) = metw st.
Proof.
  revert st. induction fields as [|kv fields IH]; intros st; simpl; [done|].
  destruct (IH (add_card_property json_repr card_uri st kv)) as (Hg & Hi & Hc & Hm).
  destruct (add_card_property_grows card_uri st kv) as (Hg' & Hi' & Hc' & Hm').
  split; [by etrans|]. split; [congruence|]. split; congruence.
Qed.

(** X9. One card. A card that is a JSON object, has a non-empty name and
    finds a match is linked: the result holds the card's type and label
    facts and both link facts from the matched entity to the card, nothing
    is removed, and the count of linked cards grows by one. A card without
    a usable name, or without a match, changes nothing but the progress
    output. A card that is not a JSON object raises. *)
Theorem metw_card_links
    (threshold : Q) (i : nat) (card : json) (st : enricher) :
  match card with
  | JObj fields =>
      let card_name := card_name_of json_repr fields in
      let card_uri := card_uri_of json_repr fields in
      exists st',
        metw_card ratio json_repr threshold i card st = Ok st' /\
        kg st ⊆ kg st' /\ entity_index st' = entity_index st /\
        csv st' = csv st /\
        match (if PyStr.truthy card_name
               then fst (find_best_match ratio (entity_index st) card_name threshold)
               else None) with
        | Some entity_uri =>
            (card_uri, RDF "type", SCHEMA "Thing") ∈ kg st' /\
            (card_uri, RDFS "label", en card_name) ∈ kg st' /\
            (entity_uri, SCHEMA "subjectOf", card_uri) ∈ kg st' /\
            (entity_uri, PROP "hasCard", card_uri) ∈ kg st' /\
            linked_cards (metw st') = linked_cards (metw st) + 1
        | None => kg st' = kg st /\ metw st' = metw st
        end
  | _ => metw_card ratio json_repr threshold i card st = Raise "AttributeError"
  end.
Proof.
  destruct card as [| | | | | |fields]; try reflexivity.
  intros card_name card_uri. unfold metw_card.
  set (st_p := if ((i + 1) mod 50 =? 0)%nat then print _ st else st).
  assert (Hp : kg st_p = kg st /\ entity_index st_p = entity_index st
               /\ csv st_p = csv st /\ metw st_p = metw st).
  { subst st_p. by destruct ((i + 1) mod 50 =? 0)%nat. }
  destruct Hp as (Hkg & Hidx & Hcsv & Hmetw).
  change (PyStr.strip _) with card_name.
  destruct (PyStr.truthy card_name); cbn [negb].
  - rewrite Hidx.
    destruct (fst (find_best_match ratio (entity_index st) card_name threshold))
      as [entity_uri|].
    + change (METW _) with card_uri.
      eexists. split; [reflexivity|].
      match goal with
      | |- context [fold_left _ fields ?s] =>
          destruct (card_properties_grow card_uri fields s) as (Hg & Hi & Hc & Hm);
          set (st_f := s) in *
      end.
      assert (Hbase : forall t,
                t ∈ ({[ (card_uri, RDF "type", SCHEMA "Thing");
                        (card_uri, RDFS "label", en card_name);
                        (entity_uri, SCHEMA "subjectOf", card_uri);
                        (entity_uri, PROP "hasCard", card_uri) ]} : graph) ->
                t ∈ kg st_f).
      { intros t Ht. subst st_f.
        destruct (PyDict.get "alignment" fields), (PyDict.get "type" fields);
          rewrite ?kg_add; cbn [kg with_metw]; rewrite ?kg_add; set_solver. }
      assert (Hsub : kg st ⊆ kg st_f).
      { subst st_f. rewrite <- Hkg.
        destruct (PyDict.get "alignment" fields), (PyDict.get "type" fields);
          rewrite ?kg_add; cbn [kg with_metw]; rewrite ?kg_add; set_solver. }
      split; [by etrans|]. split.
      { rewrite Hi. subst st_f.
        by destruct (PyDict.get "alignment" fields), (PyDict.get "type" fields). }
      split.
      { rewrite Hc. subst st_f.
        by destruct (PyDict.get "alignment" fields), (PyDict.get "type" fields). }
      split; [apply Hg, Hbase; set_solver|].
      split; [apply Hg, Hbase; set_solver|].
      split; [apply Hg, Hbase; set_solver|].
      split; [apply Hg, Hbase; set_solver|].
      rewrite Hm. subst st_f.
      destruct (PyDict.get "alignment" fields), (PyDict.get "type" fields);
        cbn; by rewrite Hmetw.
    + eexists. split; [reflexivity|]. rewrite Hkg. by repeat split.
  - eexists. split; [reflexivity|]. rewrite Hkg. by repeat split.
Qed.

Lemma card_properties_subject card_uri fields st t :
  t ∈ kg (fold_left (add_card_property json_repr card_uri) fields st) ->
  t ∈ kg st \/ t.1.1 = card_uri.
Proof.
  revert st. induction fields as [|[key value] fields IH]; intros st; simpl;
    [by left|].
  intros Ht. apply IH in Ht as [Ht|Ht]; [|by right].
  destruct (negb _ && json_truthy value); [|by left].
  destruct (number_lit _); rewrite kg_add in Ht;
    apply elem_of_union in Ht as [Ht|Ht]; first [by left | idtac];
    apply elem_of_singleton in Ht; subst t; by right.
Qed.

Lemma card_step_refl st : card_step 0 st st.
Proof.
  split; [done|]. split; [done|]. split; [done|].
  split; [by intros t Ht Hn|]. split; [done|]. split; lia.
Qed.

Lemma card_step_trans n m st1 st2 st3 :
  card_step n st1 st2 -> card_step m st2 st3 -> card_step (n + m) st1 st3.
Proof.
  intros (Hi & Hc & Hg & Hn & Ht & Hl & Hu) (Hi' & Hc' & Hg' & Hn' & Ht' & Hl' & Hu').
  split; [congruence|]. split; [congruence|]. split; [by etrans|].
  split.
  { intros t H3 H1. destruct (decide (t ∈ kg st2)) as [H2|H2]; [by apply Hn|].
    rewrite <- Hi. by apply Hn'. }
  split; [congruence|]. split; lia.
Qed.

Lemma metw_card_step threshold i card st st' :
  metw_card ratio json_repr threshold i card st = Ok st' ->
  card_step 1 st st'.
Proof.
  destruct card as [| | | | | |fields]; try discriminate.
  unfold metw_card.
  set (st_p := if ((i + 1) mod 50 =? 0)%nat then print _ st else st).
  assert (Hp : kg st_p = kg st /\ entity_index st_p = entity_index st
               /\ csv st_p = csv st /\ metw st_p = metw st).
  { subst st_p. by destruct ((i + 1) mod 50 =? 0)%nat. }
  destruct Hp as (Hkg & Hidx & Hcsv & Hmetw).
  assert (Hsame : forall s, kg s = kg st -> entity_index s = entity_index st ->
                            csv s = csv st -> metw s = metw st -> card_step 1 st s).
  { intros s H1 H2 H3 H4. split; [done|]. split; [done|].
    split; [by rewrite H1|]. split; [intros t; rewrite H1; by intros ??|].
    rewrite H4. split; [done|]. split; lia. }
  change (PyStr.strip _) with (card_name_of json_repr fields).
  set (card_name := card_name_of json_repr fields).
  destruct (PyStr.truthy card_name); cbn [negb];
    [|intros [= <-]; by apply Hsame].
  rewrite Hidx.
  destruct (find_best_match ratio (entity_index st) card_name threshold)
    as [[entity_uri|] sc] eqn:Hfind; cbn [fst];
    [|intros [= <-]; by apply Hsame].
  apply find_best_match_indexed in Hfind.
  change (METW _) with (card_uri_of json_repr fields).
  set (card_uri := card_uri_of json_repr fields).
  intros [= <-].
  match goal with
  | |- context [fold_left _ fields ?s] =>
      destruct (card_properties_grow card_uri fields s) as (Hg & Hi & Hc & Hm);
      pose proof (card_properties_subject card_uri fields s) as Hs;
      set (st_f := s) in *
  end.
  assert (Hf : kg st ⊆ kg st_f /\
               (forall t, t ∈ kg st_f ->
                  t ∈ kg st \/ t.1.1 = card_uri \/
                  t = (entity_uri, SCHEMA "subjectOf", card_uri) \/
                  t = (entity_uri, PROP "hasCard", card_uri)) /\
               entity_index st_f = entity_index st /\ csv st_f = csv st /\
               total_cards (metw st_f) = total_cards (metw st) /\
               linked_cards (metw st_f) = linked_cards (metw st) + 1).
  { subst st_f. rewrite <- Hkg, <- Hidx, <- Hcsv, <- Hmetw.
    destruct (PyDict.get "alignment" fields), (PyDict.get "type" fields);
      rewrite ?kg_add; cbn [kg with_metw]; rewrite ?kg_add;
      (split; [set_solver|]); (split; [|done]);
      intros t Ht; rewrite !elem_of_union, !elem_of_singleton in Ht;
      intuition (subst; auto). }
  destruct Hf as (Hsub & Hnew & Hfi & Hfc & Hft & Hfl).
  split; [congruence|]. split; [congruence|]. split; [by etrans|].
  split.
  { intros [[s p] o] Ht Hn.
    assert (Hcard : exists x, card_uri = METW x) by (by eexists).
    destruct (Hs _ Ht) as [Hin|Heq].
    - destruct (Hnew _ Hin) as [?|[Heq|[Heq|Heq]]]; [done| | |].
      + left. simpl in Heq. by rewrite Heq.
      + injection Heq as -> -> ->. right.
        split; [done|]. split; [set_solver|done].
      + injection Heq as -> -> ->. right.
        split; [done|]. split; [set_solver|done].
    - left. simpl in Heq. by rewrite Heq. }
  rewrite Hm. split; [done|]. split; lia.
Qed.

Lemma metw_loop_step threshold cards : forall i st st',
  metw_loop ratio json_repr threshold i cards st = Ok st' ->
  card_step (length cards) st st'.
Proof.
  induction cards as [|card cards IH]; intros i st st'; simpl.
  - intros [= <-]. apply card_step_refl.
  - destruct (metw_card ratio json_repr threshold i card st) as [st1|e] eqn:H1;
      [|discriminate].
    cbn. intros H2. apply metw_card_step in H1. apply IH in H2.
    apply (card_step_trans 1 (length cards) _ _ _ H1 H2).
Qed.

Section MetwRun.
Variable file_exists : string -> bool.
Variable load_json : string -> result json.

(** X10. A run of the card enrichment that returns keeps the index and the
    CSV statistics, removes nothing from the graph, and every fact it adds
    is either about a card (its subject is in the card namespace) or one of
    the two links [schema:subjectOf] and [tgprop:hasCard] from an indexed
    entity to a card. It links at most as many cards as it read, and the
    number of added triples it records is the growth of the graph. *)
Theorem enrich_with_metw_adds_card_facts
    (cards_file : string) (threshold : Q) (st st' : enricher) :
  enrich_with_metw ratio json_repr file_exists load_json cards_file threshold st
    = Ok st' ->
  entity_index st' = entity_index st /\ csv st' = csv st /\
  kg st ⊆ kg st' /\
  (forall t, t ∈ kg st' -> t ∉ kg st -> card_fact (entity_index st) t) /\
  linked_cards (metw st) <= linked_cards (metw st') /\
  linked_cards (metw st') <= linked_cards (metw st) + total_cards (metw st') /\
  (file_exists cards_file = true ->
   metw_triples_added (metw st') = size (kg st' ∖ kg st)).
Proof.
  unfold enrich_with_metw.
  destruct (file_exists cards_file); cbn [negb].
  2:{ intros [= <-]. cbn. split; [done|]. split; [done|]. split; [done|].
      split; [by intros ???|]. split; [lia|]. split; [lia|done]. }
  destruct (load_json cards_file) as [cards_data|]; [|discriminate]. cbn.
  destruct (all_cards_of cards_data) as [cards|]; [|discriminate]. cbn.
  destruct (iter_cards cards) as [items|]; [|discriminate]. cbn.
  match goal with
  | |- context [metw_loop _ _ _ _ _ ?s] => set (st0 := s)
  end.
  destruct (metw_loop ratio json_repr threshold 0 items st0) as [st1|] eqn:Hloop;
    [|discriminate].
  cbn. intros [= <-]. cbn.
  apply metw_loop_step in Hloop.
  destruct Hloop as (Hi & Hc & Hg & Hn & Ht & Hl & Hu).
  change (entity_index st0) with (entity_index st) in *.
  change (csv st0) with (csv st) in *.
  change (kg st0) with (kg st) in *.
  change (total_cards (metw st0)) with (length items) in *.
  change (linked_cards (metw st0)) with (linked_cards (metw st)) in *.
  split; [done|]. split; [done|]. split; [done|]. split; [done|].
  split; [done|]. split; [lia|]. intros _.
  unfold graph_len. rewrite <- (size_difference _ _ Hg). done.
Qed.

End MetwRun.

End MetwFacts.

(** ** Step 2: the graph of a list of records *)

Section GraphFacts.
Import Step1 Step2 Vocab.

Lemma fold_union {A : Type} (f : A -> graph -> graph) (l : list A) :
  (forall x g, f x g = g ∪ f x ∅) ->
  forall g, fold_left (fun g x => f x g) l g
            = g ∪ fold_left (fun g x => f x g) l ∅.
Proof.
  intros Hf. induction l as [|x l IH]; intros g; simpl.
  - set_solver.
  - rewrite (IH (f x g)), (IH (f x ∅)), (Hf x g). set_solver.
Qed.

Lemma add_infobox_field_union (u : term) (f : string) (v : attribute_value) (g : graph) :
  add_infobox_field u f v g = g ∪ add_infobox_field u f v ∅.
Proof.
  unfold add_infobox_field.
  destruct (negb _ || _); [set_solver|].
  destruct (internal_links v) as [|l ls]; [unfold graph_add; set_solver|].
  rewrite !(fold_graph_add (fun link => (u, field_property f, create_uri link "resource"))).
  set_solver.
Qed.

Lemma add_infobox_triples_union (e : entity) (u : term) (g : graph) :
  add_infobox_triples e u g = g ∪ add_infobox_triples e u ∅.
Proof.
  unfold add_infobox_triples. destruct (e_infobox e) as [ib|]; [|set_solver].
  apply (fold_union (fun fv g => add_infobox_field u (fst fv) (snd fv) g)).
  intros fv g'. apply add_infobox_field_union.
Qed.

Lemma add_basic_triples_facts (e : entity) (g : graph) :
  add_basic_triples e (create_uri (entity_id e) "resource")
    (create_uri (entity_id e) "page") g
  = g ∪ list_to_set (basic_facts e).
Proof. unfold add_basic_triples, basic_facts, graph_add. set_solver. Qed.

Lemma process_entity_union (e : entity) (g : graph) :
  process_entity e g = g ∪ entity_facts e.
Proof.
  unfold entity_facts, process_entity.
  destruct (negb (PyStr.truthy (entity_id e))); [set_solver|].
  rewrite add_infobox_triples_union.
  rewrite (add_infobox_triples_union e _ (add_basic_triples _ _ _ ∅)).
  rewrite !add_basic_triples_facts. set_solver.
Qed.

Lemma generate_from (entities : list entity) (g : graph) (t : triple) :
  t ∈ fold_left (fun g e => process_entity e g) entities g
  <-> t ∈ g \/ exists e, In e entities /\ t ∈ entity_facts e.
Proof.
  revert g. induction entities as [|e es IH]; intros g; simpl.
  - split; [by left|]. intros [?|(e & [] & _)]. done.
  - rewrite IH, process_entity_union, elem_of_union. split.
    + intros [[?|?]|(e' & Hin & Ht)]; [by left| |].
      * right. exists e. by split; [left|].
      * right. exists e'. by split; [right|].
    + intros [?|(e' & [<-|Hin] & Ht)]; [by left; left|by left; right|].
      right. by exists e'.
Qed.

(** X11. The graph of a list of records is the union of the facts of each
    record: a fact is in the graph exactly when one of the records
    contributes it, and processing a record on top of any graph adds that
    record's facts and removes nothing. In particular the order of the
    records and repeated records do not change the graph. *)
Theorem generate_is_union (entities : list entity) :
  (forall t, t ∈ generate entities
             <-> exists e, In e entities /\ t ∈ entity_facts e) /\
  (forall e (g : graph), process_entity e g = g ∪ entity_facts e) /\
  (forall entities',
     (forall e, In e entities <-> In e entities') ->
     generate entities = generate entities').
Proof.
  assert (Hgen : forall es t, t ∈ generate es
                   <-> exists e, In e es /\ t ∈ entity_facts e).
  { intros es t. unfold generate. rewrite generate_from. split.
    - intros [Ht|?]; [by apply elem_of_empty in Ht|done].
    - by right. }
  split; [apply Hgen|]. split; [apply process_entity_union|].
  intros es' Hsame. apply set_eq. intros t. rewrite !Hgen.
  split; intros (e & Hin & Ht); exists e; (split; [by apply Hsame|done]).
Qed.

(** X12. Every record with a non-empty identifier has its seven basic
    facts in the graph: the class of the resource, its English label and
    name, the two links between resource and page, and the type and title
    of the page. A record with an empty identifier contributes no fact. *)
Theorem generate_basic_facts (entities : list entity) (e : entity) :
  In e entities ->
  (entity_id e <> "" ->
   forall t, In t (basic_facts e) -> t ∈ generate entities) /\
  (entity_id e = "" -> entity_facts e = ∅).
Proof.
  intros Hin. split.
  - intros Hid t Ht. unfold generate. apply generate_from. right.
    exists e. split; [done|].
    unfold entity_facts, process_entity.
    destruct (PyStr.truthy (entity_id e)) eqn:E.
    2:{ unfold PyStr.truthy in E. apply negb_false_iff, String.eqb_eq in E. done. }
    cbn [negb]. rewrite add_infobox_triples_union, add_basic_triples_facts.
    apply elem_of_union_l, elem_of_union_r, elem_of_list_to_set.
    by apply list_elem_of_In.
  - intros Hid. unfold entity_facts, process_entity. by rewrite Hid.
Qed.

Lemma find_type_mapping (s : string) :
  List.find (fun kv : string * term => PyStr.contains (fst kv) s) type_mappings
  = if PyStr.contains "character" s then Some ("character", SCHEMA "Person")
    else if PyStr.contains "infobox character" s
         then Some ("infobox character", SCHEMA "Person")
    else if PyStr.contains "place" s then Some ("place", SCHEMA "Place")
    else if PyStr.contains "location" s then Some ("location", SCHEMA "Place")
    else if PyStr.contains "artifact" s then Some ("artifact", SCHEMA "Thing")
    else if PyStr.contains "item" s then Some ("item", SCHEMA "Thing")
    else if PyStr.contains "event" s then Some ("event", SCHEMA "Event")
    else if PyStr.contains "organization" s
         then Some ("organization", SCHEMA "Organization")
    else None.
Proof.
  unfold type_mappings. cbn [List.find fst].
  repeat match goal with
         | |- context [if ?b then _ else _] => destruct b
         end; reflexivity.
Qed.

(** X13. The class of a record is one of the five classes, whatever the
    type. The table is searched in order on the lowercased type and the
    first key found inside it decides: a type that mentions ["character"]
    is always a person, even when it also mentions a place; without
    ["character"], a type that mentions ["place"] or ["location"] is a
    place; a missing or empty type, or one that mentions no key, is a
    thing. *)
Theorem determine_class_first_key (entity_type : option string) :
  In (determine_class entity_type) schema_classes /\
  (forall ty, entity_type = Some ty ->
     PyStr.contains "character" (PyStr.lower ty) = true ->
     determine_class entity_type = SCHEMA "Person") /\
  (forall ty, entity_type = Some ty ->
     PyStr.contains "character" (PyStr.lower ty) = false ->
     PyStr.contains "place" (PyStr.lower ty)
       || PyStr.contains "location" (PyStr.lower ty) = true ->
     determine_class entity_type = SCHEMA "Place") /\
  (forall ty, entity_type = Some ty ->
     (forall kv, In kv type_mappings ->
        PyStr.contains (fst kv) (PyStr.lower ty) = false) ->
     determine_class entity_type = SCHEMA "Thing") /\
  determine_class None = SCHEMA "Thing" /\
  determine_class (Some "") = SCHEMA "Thing".
Proof.
  split.
  { unfold determine_class. destruct entity_type as [ty|]; [|simpl; tauto].
    destruct (PyStr.truthy ty); [|simpl; tauto].
    rewrite find_type_mapping.
    repeat match goal with
           | |- context [if ?b then _ else _] => destruct b
           end; simpl; tauto. }
  split.
  { intros ty -> Hc. unfold determine_class.
    destruct (PyStr.truthy ty) eqn:E.
    - by rewrite find_type_mapping, Hc.
    - unfold PyStr.truthy in E. apply negb_false_iff, String.eqb_eq in E.
      subst ty. discriminate Hc. }
  split.
  { intros ty -> Hc Hp. unfold determine_class.
    destruct (PyStr.truthy ty) eqn:E.
    - rewrite find_type_mapping, Hc.
      assert (Hi : PyStr.contains "infobox character" (PyStr.lower ty) = false).
      { destruct (PyStr.contains "infobox character" (PyStr.lower ty)) eqn:Ei; [|done].
        exfalso. revert Ei Hc. generalize (PyStr.lower ty). clear.
        intros s. induction s as [|c s IH].
        - discriminate.
        - intros Hi Hc. cbn [PyStr.contains] in Hi, Hc.
          apply orb_false_iff in Hc as [Hc1 Hc2].
          apply orb_true_iff in Hi as [Hi|Hi]; [|by apply IH].
          clear IH Hc1.
          assert (Hd : PyStr.startswith "character" (PyStr.drop 8 (String c s)) = true).
          { revert Hi. generalize (String c s). intros s0.
            do 8 (destruct s0 as [|? s0]; [discriminate|];
                  cbn [PyStr.startswith]; intros [_ Hi]%andb_true_iff; revert Hi).
            cbn [PyStr.drop]. exact id. }
          revert Hd Hc2. clear. cbn [PyStr.drop].
          do 7 (destruct s as [|? s]; [discriminate|];
                cbn [PyStr.contains]; intros Hd [_ Hc2]%orb_false_iff; revert Hd Hc2).
          destruct s as [|? s]; [discriminate|].
          cbn [PyStr.contains]. intros Hd [Hc2 _]%orb_false_iff. congruence. }
      rewrite Hi. apply orb_true_iff in Hp as [->| ->]; [done|].
      by destruct (PyStr.contains "place" (PyStr.lower ty)).
    - unfold PyStr.truthy in E. apply negb_false_iff, String.eqb_eq in E.
      subst ty. discriminate Hp. }
  split.
  { intros ty -> Hno. unfold determine_class.
    destruct (PyStr.truthy ty); [|done].
    destruct (List.find _ type_mappings) as [[k c]|] eqn:Ef; [|done].
    apply find_some in Ef as [Hin Hc]. by rewrite (Hno _ Hin) in Hc. }
  split; reflexivity.
Qed.

End GraphFacts.

(** ** Step 3: the three shapes *)

Section ShapeRunFacts.
Import Step1 Step3 Vocab.

Ltac shape_graph :=
  cbv [create_thing_shape create_place_shape create_gender_list
       name_constraint_block gender_constraint_block race_constraint_block
       birth_constraint_block collection_append gender_values add fresh
       sgraph next_bnode property_usage property_datatypes snd fst graph_add].

Ltac in_graph :=
  repeat first
    [ apply elem_of_union_r, elem_of_singleton; reflexivity
    | apply elem_of_union_l ].

Ltac grows :=
  intros; shape_graph; repeat apply union_subseteq_l'; reflexivity.

Ltac keeps_no_path :=
  let c := fresh "c" in
  let Hin := fresh "Hin" in
  intros ? Hno c Hin; revert Hin; unfold no_path in Hno; shape_graph; intros Hin;
  repeat (apply elem_of_union in Hin as [Hin|Hin]);
  first [ exact (Hno c Hin)
        | apply elem_of_singleton in Hin; vm_compute in Hin; discriminate Hin ].

Lemma name_block_grows' s gen : sgraph gen ⊆ sgraph (name_constraint_block s gen).
Proof. grows. Qed.

Lemma gender_block_grows' s gen : sgraph gen ⊆ sgraph (gender_constraint_block s gen).
Proof. grows. Qed.

Lemma race_block_grows' s gen : sgraph gen ⊆ sgraph (race_constraint_block s gen).
Proof. grows. Qed.

Lemma birth_block_grows' s gen : sgraph gen ⊆ sgraph (birth_constraint_block s gen).
Proof. grows. Qed.

Lemma place_shape_grows' gen : sgraph gen ⊆ sgraph (snd (create_place_shape gen)).
Proof. grows. Qed.

Lemma thing_shape_grows' gen : sgraph gen ⊆ sgraph (snd (create_thing_shape gen)).
Proof. grows. Qed.

Ltac blocks_grow :=
  repeat match goal with
         | |- context [if ?b then _ else _] => destruct b
         end;
  repeat match goal with
         | |- sgraph ?G ⊆ sgraph ?G => reflexivity
         | |- _ ⊆ sgraph (birth_constraint_block _ _) =>
             etrans; [|apply birth_block_grows']
         | |- _ ⊆ sgraph (race_constraint_block _ _) =>
             etrans; [|apply race_block_grows']
         | |- _ ⊆ sgraph (gender_constraint_block _ _) =>
             etrans; [|apply gender_block_grows']
         end.

Lemma character_shape_grows n gen :
  sgraph gen ⊆ sgraph (snd (create_character_shape n gen)).
Proof.
  unfold create_character_shape. cbn [snd].
  set (gen1 := name_constraint_block _ _).
  assert (H1 : sgraph gen ⊆ sgraph gen1).
  { subst gen1. etrans; [|apply name_block_grows'].
    shape_graph. repeat apply union_subseteq_l'. reflexivity. }
  clearbody gen1. etrans; [exact H1|]. clear H1.
  blocks_grow.
Qed.

Lemma requires_name_mono (g g' : graph) shape cls :
  g ⊆ g' -> requires_name g shape cls -> requires_name g' shape cls.
Proof.
  intros Hsub (H1 & H2 & c & H3 & H4 & H5).
  split; [by apply Hsub|]. split; [by apply Hsub|].
  exists c. split; [by apply Hsub|]. split; by apply Hsub.
Qed.

Lemma character_shape_requires_name n gen :
  requires_name (sgraph (snd (create_character_shape n gen)))
    (SHAPE "CharacterShape") (SCHEMA "Person").
Proof.
  unfold create_character_shape. cbn [snd].
  set (gen1 := name_constraint_block _ _).
  assert (H1 : requires_name (sgraph gen1) (SHAPE "CharacterShape") (SCHEMA "Person")).
  { subst gen1. shape_graph. split; [in_graph|]. split; [in_graph|].
    eexists. split; [in_graph|]. split; in_graph. }
  clearbody gen1. eapply requires_name_mono; [|exact H1]. clear H1.
  blocks_grow.
Qed.

Lemma place_shape_requires_name gen :
  requires_name (sgraph (snd (create_place_shape gen)))
    (SHAPE "PlaceShape") (SCHEMA "Place").
Proof.
  shape_graph. split; [in_graph|]. split; [in_graph|].
  eexists. split; [in_graph|]. split; in_graph.
Qed.

Lemma thing_shape_requires_name gen :
  requires_name (sgraph (snd (create_thing_shape gen)))
    (SHAPE "ThingShape") (SCHEMA "Thing").
Proof.
  shape_graph. split; [in_graph|]. split; [in_graph|].
  eexists. split; [in_graph|]. split; in_graph.
Qed.

(** X14. Whatever the records and whatever the generator held before,
    the shape graph holds the three node shapes, for persons, places and
    things, and each asks for at least one [schema:name]; nothing that was
    in the graph is removed. *)
Theorem generate_shapes_require_name (entities : list entity) (gen : generator) :
  let g := sgraph (generate_shapes entities gen) in
  sgraph gen ⊆ g /\
  requires_name g (SHAPE "CharacterShape") (SCHEMA "Person") /\
  requires_name g (SHAPE "PlaceShape") (SCHEMA "Place") /\
  requires_name g (SHAPE "ThingShape") (SCHEMA "Thing").
Proof.
  unfold generate_shapes. cbn zeta.
  set (gen0 := analyze_entities entities gen).
  assert (Hg0 : sgraph gen0 = sgraph gen).
  { subst gen0. unfold analyze_entities. revert gen.
    induction entities as [|e es IH]; intros gen; simpl; [done|].
    rewrite IH. unfold analyze_entity. destruct (e_infobox e) as [ib|]; [|done].
    generalize (ib_parameters ib). intros ps. revert gen. clear.
    induction ps as [|fv ps IH]; intros gen; simpl; [done|].
    rewrite IH. by destruct fv. }
  set (n := length _).
  split.
  { rewrite <- Hg0. etrans; [|apply thing_shape_grows'].
    etrans; [|apply place_shape_grows']. apply character_shape_grows. }
  split.
  { eapply requires_name_mono; [|apply (character_shape_requires_name n gen0)].
    etrans; [|apply thing_shape_grows']. apply place_shape_grows'. }
  split.
  { eapply requires_name_mono; [|apply place_shape_requires_name].
    apply thing_shape_grows'. }
  apply thing_shape_requires_name.
Qed.

Lemma has_path_constraint_mono (g g' : graph) path :
  g ⊆ g' -> has_path_constraint g path -> has_path_constraint g' path.
Proof.
  intros Hsub (c & H1 & H2 & H3). exists c.
  split; [by apply Hsub|]. split; by apply Hsub.
Qed.

Lemma race_block_has gen :
  has_path_constraint (sgraph (race_constraint_block (SHAPE "CharacterShape") gen))
    (PROP "race").
Proof.
  exists (BNode (next_bnode gen)). shape_graph.
  split; [in_graph|]. split; in_graph.
Qed.

Lemma birth_block_has gen :
  has_path_constraint (sgraph (birth_constraint_block (SHAPE "CharacterShape") gen))
    (SCHEMA "birthPlace").
Proof.
  exists (BNode (next_bnode gen)). shape_graph.
  split; [in_graph|]. split; in_graph.
Qed.

Lemma add_keeps_path path (t : triple) gen :
  (t.1.2, t.2) <> (SH "path", path) ->
  no_path path (sgraph gen) -> no_path path (sgraph (add t gen)).
Proof.
  intros Hne Hno c Hin.
  change (sgraph (add t gen)) with (sgraph gen ∪ {[ t ]}) in Hin.
  apply elem_of_union in Hin as [Hin|Hin]; [by apply (Hno c)|].
  apply elem_of_singleton in Hin. subst t. by apply Hne.
Qed.

Lemma name_block_keeps_race gen :
  no_path (PROP "race") (sgraph gen) ->
  no_path (PROP "race") (sgraph (name_constraint_block (SHAPE "CharacterShape") gen)).
Proof. revert gen. keeps_no_path. Qed.

Lemma gender_block_keeps_race gen :
  no_path (PROP "race") (sgraph gen) ->
  no_path (PROP "race") (sgraph (gender_constraint_block (SHAPE "CharacterShape") gen)).
Proof. revert gen. keeps_no_path. Qed.

Lemma birth_block_keeps_race gen :
  no_path (PROP "race") (sgraph gen) ->
  no_path (PROP "race") (sgraph (birth_constraint_block (SHAPE "CharacterShape") gen)).
Proof. revert gen. keeps_no_path. Qed.

Lemma place_shape_keeps_race gen :
  no_path (PROP "race") (sgraph gen) ->
  no_path (PROP "race") (sgraph (snd (create_place_shape gen))).
Proof. revert gen. keeps_no_path. Qed.

Lemma thing_shape_keeps_race gen :
  no_path (PROP "race") (sgraph gen) ->
  no_path (PROP "race") (sgraph (snd (create_thing_shape gen))).
Proof. revert gen. keeps_no_path. Qed.

Lemma name_block_keeps_birth gen :
  no_path (SCHEMA "birthPlace") (sgraph gen) ->
  no_path (SCHEMA "birthPlace")
    (sgraph (name_constraint_block (SHAPE "CharacterShape") gen)).
Proof. revert gen. keeps_no_path. Qed.

Lemma gender_block_keeps_birth gen :
  no_path (SCHEMA "birthPlace") (sgraph gen) ->
  no_path (SCHEMA "birthPlace")
    (sgraph (gender_constraint_block (SHAPE "CharacterShape") gen)).
Proof. revert gen. keeps_no_path. Qed.

Lemma race_block_keeps_birth gen :
  no_path (SCHEMA "birthPlace") (sgraph gen) ->
  no_path (SCHEMA "birthPlace")
    (sgraph (race_constraint_block (SHAPE "CharacterShape") gen)).
Proof. revert gen. keeps_no_path. Qed.

Lemma place_shape_keeps_birth gen :
  no_path (SCHEMA "birthPlace") (sgraph gen) ->
  no_path (SCHEMA "birthPlace") (sgraph (snd (create_place_shape gen))).
Proof. revert gen. keeps_no_path. Qed.

Lemma thing_shape_keeps_birth gen :
  no_path (SCHEMA "birthPlace") (sgraph gen) ->
  no_path (SCHEMA "birthPlace") (sgraph (snd (create_thing_shape gen))).
Proof. revert gen. keeps_no_path. Qed.

(** X15. Starting from a fresh generator, the character shape constrains
    [tgprop:race] if and only if more than 100 character records carry the
    attribute ['race'], and it constrains [schema:birthPlace] if and only
    if more than 50 character records carry ['birthPlace']. Both
    constraints accept IRIs and literals. *)
Theorem race_birth_constraints_iff_count (entities : list entity) :
  Forall well_formed entities ->
  let g := sgraph (generate_shapes entities init) in
  (has_path_constraint g (PROP "race") <-> 100 < observed_count "race" entities) /\
  (has_path_constraint g (SCHEMA "birthPlace")
   <-> 50 < observed_count "birthPlace" entities).
Proof.
  intros Hwf.
  destruct (analyze_entities_usage "race" entities init Hwf) as (Hg & _ & Hr).
  destruct (analyze_entities_usage "birthPlace" entities init Hwf) as (_ & _ & Hb).
  change (usage (Some "infobox character") "race" (property_usage init)) with 0 in Hr.
  change (usage (Some "infobox character") "birthPlace" (property_usage init))
    with 0 in Hb.
  simpl in Hr, Hb. unfold generate_shapes. cbn zeta.
  set (gen0 := analyze_entities entities init) in *.
  unfold create_character_shape. cbn [snd].
  change (property_usage (add _ (add _ (add _ (add _ gen0)))))
    with (property_usage gen0).
  fold (usage (Some "infobox character") "race" (property_usage gen0)).
  fold (usage (Some "infobox character") "birthPlace" (property_usage gen0)).
  rewrite Hr, Hb.
  set (gen1 := name_constraint_block _ _).
  set (gen2 := if (100 <? _)%nat then gender_constraint_block _ gen1 else gen1).
  assert (Hrace2 : no_path (PROP "race") (sgraph gen2)).
  { assert (H1 : no_path (PROP "race") (sgraph gen1)).
    { subst gen1. apply name_block_keeps_race.
      repeat (apply add_keeps_path; [vm_compute; discriminate|]).
      rewrite Hg. intros c Hin. by apply elem_of_empty in Hin. }
    subst gen2. destruct (100 <? _)%nat; [by apply gender_block_keeps_race|done]. }
  assert (Hbirth2 : no_path (SCHEMA "birthPlace") (sgraph gen2)).
  { assert (H1 : no_path (SCHEMA "birthPlace") (sgraph gen1)).
    { subst gen1. apply name_block_keeps_birth.
      repeat (apply add_keeps_path; [vm_compute; discriminate|]).
      rewrite Hg. intros c Hin. by apply elem_of_empty in Hin. }
    subst gen2. destruct (100 <? _)%nat; [by apply gender_block_keeps_birth|done]. }
  clearbody gen2. clear gen1.
  split.
  - destruct (100 <? observed_count "race" entities)%nat eqn:Erace.
    + apply Nat.ltb_lt in Erace. split; [done|]. intros _.
      eapply has_path_constraint_mono; [|apply (race_block_has gen2)].
      etrans; [|apply thing_shape_grows']. etrans; [|apply place_shape_grows'].
      destruct (50 <? _)%nat; [apply birth_block_grows'|reflexivity].
    + apply Nat.ltb_ge in Erace. split; [|lia].
      intros (c & _ & Hpath & _). exfalso. revert c Hpath.
      apply thing_shape_keeps_race, place_shape_keeps_race.
      destruct (50 <? _)%nat; [by apply birth_block_keeps_race|done].
  - set (gen3 := if (100 <? observed_count "race" entities)%nat
                 then race_constraint_block _ gen2 else gen2).
    assert (Hbirth3 : no_path (SCHEMA "birthPlace") (sgraph gen3)).
    { subst gen3. destruct (100 <? _)%nat; [by apply race_block_keeps_birth|done]. }
    clearbody gen3.
    destruct (50 <? observed_count "birthPlace" entities)%nat eqn:Ebirth.
    + apply Nat.ltb_lt in Ebirth. split; [done|]. intros _.
      eapply has_path_constraint_mono; [|apply (birth_block_has gen3)].
      etrans; [|apply thing_shape_grows']. apply place_shape_grows'.
    + apply Nat.ltb_ge in Ebirth. split; [|lia].
      intros (c & _ & Hpath & _). exfalso. revert c Hpath.
      by apply thing_shape_keeps_birth, place_shape_keeps_birth.
Qed.

Lemma typed_count_cons ty f e es :
  typed_count ty f (e :: es)
  = (if bool_decide (etype e = ty) && has_field f e then 1 else 0)
    + typed_count ty f es.
Proof.
  unfold typed_count. cbn [List.filter].
  by destruct (bool_decide (etype e = ty) && has_field f e).
Qed.

(** X16. The usage table counts records: after the analysis, the entry of
    a type and an attribute has grown by the number of records of that
    type whose infobox carries the attribute. The analysis writes nothing
    to the shape graph and creates no blank node. *)
Theorem analyze_entities_counts
    (ty : option string) (field : string) (entities : list entity)
    (gen : generator) :
  Forall well_formed entities ->
  usage ty field (property_usage (analyze_entities entities gen))
  = usage ty field (property_usage gen) + typed_count ty field entities /\
  sgraph (analyze_entities entities gen) = sgraph gen /\
  next_bnode (analyze_entities entities gen) = next_bnode gen.
Proof.
  intros Hwf. revert gen. unfold analyze_entities.
  induction Hwf as [|e es He Hes IH]; intros gen; cbn [fold_left].
  - unfold typed_count. simpl. repeat split. lia.
  - destruct (IH (analyze_entity gen e)) as (Hu & Hg & Hn).
    rewrite Hu, Hg, Hn, typed_count_cons. clear IH Hu Hg Hn.
    unfold analyze_entity, has_field. unfold well_formed in He.
    destruct (e_infobox e) as [ib|] eqn:Eib.
    + destruct (analyze_fields_usage (etype e) ty field (ib_parameters ib) gen)
        as (Hg & Hn & Hu).
      rewrite Hu, Hg, Hn. repeat split.
      rewrite count_key_NoDup by done.
      destruct (decide (etype e = ty)) as [Hc|Hc].
      * rewrite bool_decide_true by done. simpl.
        destruct (PyDict.mem field (ib_parameters ib)); simpl; lia.
      * rewrite bool_decide_false by done. simpl. lia.
    + repeat split. rewrite andb_false_r. lia.
Qed.

Lemma infer_datatype_of_field value field :
  datatype_of_field field (infer_datatype value field).
Proof.
  unfold infer_datatype, datatype_of_field.
  destruct (PyStr.contains "date" (PyStr.lower field)); [by left|].
  destruct (String.eqb (PyStr.lower field) "age") eqn:Ea;
    destruct (String.eqb (PyStr.lower field) "height") eqn:Eh; cbn [orb].
  4:{ destruct (String.eqb (PyStr.lower field) "gender"); by left. }
  all: destruct (Step2.py_int value); [right|by left].
  all: split; [done|].
  all: first [ apply String.eqb_eq in Ea; by left
             | apply String.eqb_eq in Eh; by right ].
Qed.

(** X17. The datatype table of a fresh generator holds, after the
    analysis, only ['xsd:string'] and ['xsd:integer'], the latter only
    for an attribute whose lowercased name is ['age'] or ['height'], and
    no attribute has an empty set of datatypes. *)
Theorem analyze_entities_datatypes
    (entities : list entity) (field : string) (dts : gset string) :
  PyDict.get field (property_datatypes (analyze_entities entities init)) = Some dts ->
  dts <> ∅ /\ forall dt, dt ∈ dts -> datatype_of_field field dt.
Proof.
  set (Inv := fun gen : generator =>
    forall f d, PyDict.get f (property_datatypes gen) = Some d ->
      d <> ∅ /\ forall dt, dt ∈ d -> datatype_of_field f dt).
  assert (Hfield : forall ety gen fv, Inv gen -> Inv (analyze_field ety gen fv)).
  { intros ety gen [f0 vd] Hinv f d. cbn [analyze_field property_datatypes].
    destruct (PyStr.truthy (cleaned vd)); [|apply Hinv].
    unfold datatypes_add.
    destruct (decide (f = f0)) as [->|Hne].
    - rewrite get_set_eq. intros [= <-]. split; [set_solver|].
      intros dt [Hdt|Hdt]%elem_of_union.
      + destruct (PyDict.get f0 (property_datatypes gen)) as [d0|] eqn:E0;
          simpl in Hdt; [by apply (Hinv f0 d0)|by apply elem_of_empty in Hdt].
      + apply elem_of_singleton in Hdt. subst dt. apply infer_datatype_of_field.
    - rewrite get_set_ne by done. apply Hinv. }
  assert (Hfields : forall ety ps gen,
            Inv gen -> Inv (fold_left (analyze_field ety) ps gen)).
  { intros ety ps. induction ps as [|fv ps IH]; intros gen Hinv; simpl; [done|].
    by apply IH, Hfield. }
  assert (Hall : forall es gen, Inv gen -> Inv (analyze_entities es gen)).
  { unfold analyze_entities.
    intros es. induction es as [|e es IH]; intros gen Hinv; simpl; [done|].
    apply IH. unfold analyze_entity. destruct (e_infobox e); [|done].
    by apply Hfields. }
  apply (Hall entities init). intros f d. discriminate.
Qed.

End ShapeRunFacts.

(** ** Step 1: keys, links and cleaned values *)

Section TextFacts.
Import Step1.

Lemma all_chars_app f (a b : string) :
  PyStr.all_chars f (a ++ b) = PyStr.all_chars f a && PyStr.all_chars f b.
Proof.
  induction a as [|c a IH]; simpl; [done|]. by rewrite IH, andb_assoc.
Qed.

Lemma all_chars_impl (f g : ascii -> bool) (s : string) :
  (forall c, f c = true -> g c = true) ->
  PyStr.all_chars f s = true -> PyStr.all_chars g s = true.
Proof.
  intros Hfg. induction s as [|c s IH]; simpl; [done|].
  intros [Hc Hs]%andb_true_iff. by rewrite (Hfg c Hc), IH.
Qed.

(** Membership of a one-character string. *)
Lemma contains_char (a : ascii) (s : string) :
  PyStr.contains (String a "") s = false
  <-> PyStr.all_chars (fun c => negb (Ascii.eqb a c)) s = true.
Proof.
  induction s as [|c s IH]; simpl; [done|].
  rewrite andb_true_r, orb_false_iff, andb_true_iff, negb_true_iff, IH. done.
Qed.

Lemma all_chars_lstrip f (s : string) :
  PyStr.all_chars f s = true -> PyStr.all_chars f (PyStr.lstrip s) = true.
Proof.
  induction s as [|c s IH]; simpl; [done|].
  intros [Hc Hs]%andb_true_iff.
  destruct (PyStr.is_space c); [by apply IH|]. simpl. by rewrite Hc, Hs.
Qed.

Lemma all_chars_rstrip f (s : string) :
  PyStr.all_chars f s = true -> PyStr.all_chars f (PyStr.rstrip s) = true.
Proof.
  induction s as [|c s IH]; [done|].
  cbn [PyStr.all_chars]. intros [Hc Hs]%andb_true_iff.
  rewrite rstrip_cons. specialize (IH Hs).
  destruct (PyStr.rstrip s) as [|d r'].
  - destruct (PyStr.is_space c); [done|]. simpl. by rewrite Hc.
  - cbn [PyStr.all_chars] in *. by rewrite Hc, IH.
Qed.

Lemma all_chars_strip f (s : string) :
  PyStr.all_chars f s = true -> PyStr.all_chars f (PyStr.strip s) = true.
Proof. intros Hs. by apply all_chars_rstrip, all_chars_lstrip. Qed.

Lemma all_chars_take_span f (s : string) :
  PyStr.all_chars f (PyStr.take (PyStr.span_len f s) s) = true.
Proof.
  induction s as [|c s IH]; simpl; [done|].
  destruct (f c) eqn:Hc; simpl; [by rewrite Hc|done].
Qed.

(** *** The key normalizer *)

Lemma key_char_split (s : string) :
  PyStr.all_chars key_char s = true
  <-> PyStr.all_chars (fun c => negb (Ascii.eqb " " c)) s = true /\
      PyStr.all_chars (fun c => negb (Ascii.eqb "_" c)) s = true.
Proof.
  induction s as [|c s IH]; simpl; [done|].
  unfold key_char at 1. rewrite !andb_true_iff, IH. tauto.
Qed.

Lemma replace_blank_free (s : string) :
  PyStr.all_chars (fun c => negb (Ascii.eqb " " c))
    (PyStr.replace " " "_" s) = true.
Proof.
  change (PyStr.replace " " "_" s) with (PyStr.replace_aux " " "_" s 0).
  induction s as [|c s IH]; [done|].
  change (PyStr.replace_aux " " "_" (String c s) 0)
    with (if Ascii.eqb " " c && true
          then String "_" (PyStr.replace_aux " " "_" s 0)
          else String c (PyStr.replace_aux " " "_" s 0)).
  rewrite andb_true_r.
  destruct (Ascii.eqb " " c) eqn:Ec.
  - cbn [PyStr.all_chars]. by rewrite IH.
  - cbn [PyStr.all_chars]. by rewrite Ec, IH.
Qed.

Lemma split_aux_parts (g : ascii -> bool) (sep : ascii) (s cur : string) :
  PyStr.all_chars g s = true -> PyStr.all_chars g cur = true ->
  Forall (fun p => PyStr.all_chars g p = true) (PyStr.split_aux sep s cur).
Proof.
  revert cur. induction s as [|c s IH]; intros cur; simpl.
  - intros _ Hcur. by constructor.
  - intros [Hc Hs]%andb_true_iff Hcur.
    destruct (Ascii.eqb c sep).
    + constructor; [done|]. by apply IH.
    + apply IH; [done|]. rewrite all_chars_app. simpl. by rewrite Hcur, Hc.
Qed.

Lemma split_aux_sep_free (sep : ascii) (s cur : string) :
  PyStr.all_chars (fun c => negb (Ascii.eqb sep c)) cur = true ->
  Forall (fun p => PyStr.all_chars (fun c => negb (Ascii.eqb sep c)) p = true)
    (PyStr.split_aux sep s cur).
Proof.
  revert cur. induction s as [|c s IH]; intros cur; simpl.
  - intros Hcur. by constructor.
  - intros Hcur. destruct (Ascii.eqb c sep) eqn:Ec.
    + constructor; [done|]. by apply IH.
    + apply IH. rewrite all_chars_app. simpl.
      rewrite Ascii.eqb_sym, Ec. by rewrite Hcur.
Qed.

Lemma split_aux_nonempty (sep : ascii) (s cur : string) :
  PyStr.split_aux sep s cur <> [].
Proof.
  revert cur. induction s as [|c s IH]; intros cur; simpl; [done|].
  destruct (Ascii.eqb c sep); [done|apply IH].
Qed.

Lemma split_aux_single (sep : ascii) (s cur p : string) :
  PyStr.split_aux sep s cur = [p] ->
  PyStr.all_chars (fun c => negb (Ascii.eqb sep c)) s = true.
Proof.
  revert cur. induction s as [|c s IH]; intros cur; simpl; [done|].
  destruct (Ascii.eqb c sep) eqn:Ec.
  - intros [= _ Hrest]. by apply split_aux_nonempty in Hrest.
  - intros Hs. rewrite Ascii.eqb_sym, Ec. simpl. by apply (IH _ Hs).
Qed.

Lemma key_char_case (c : ascii) :
  key_char c = true ->
  key_char (PyStr.upper_char c) = true /\ key_char (PyStr.lower_char c) = true.
Proof.
  destruct c as [[] [] [] [] [] [] [] []]; vm_compute; intros H; done.
Qed.

Lemma key_chars_lower (s : string) :
  PyStr.all_chars key_char s = true ->
  PyStr.all_chars key_char (PyStr.lower s) = true.
Proof.
  induction s as [|c s IH]; [done|]. cbn [PyStr.all_chars PyStr.lower PyStr.map_chars].
  intros [Hc Hs]%andb_true_iff. apply andb_true_iff.
  split; [by apply key_char_case|by apply IH].
Qed.

Lemma key_chars_capitalize (s : string) :
  PyStr.all_chars key_char s = true ->
  PyStr.all_chars key_char (PyStr.capitalize s) = true.
Proof.
  destruct s as [|c s]; [done|]. cbn [PyStr.all_chars PyStr.capitalize].
  intros [Hc Hs]%andb_true_iff. apply andb_true_iff.
  split; [by apply key_char_case|by apply key_chars_lower].
Qed.

Lemma key_chars_join (l : list string) :
  Forall (fun p => PyStr.all_chars key_char p = true) l ->
  PyStr.all_chars key_char (PyStr.join l) = true.
Proof.
  induction 1 as [|p l Hp Hl IH]; [done|].
  cbn [PyStr.join fold_right]. rewrite all_chars_app.
  apply andb_true_iff. by split.
Qed.

(** X18. A normalized key holds neither a blank nor an underscore,
    whatever the raw key: blanks have become underscores, and the
    underscores either select an entry of the override table, whose values
    hold none, or are removed when the parts are joined in camel case. *)
Theorem normalize_key_no_separator (key : string) :
  PyStr.contains " " (normalize_key key) = false /\
  PyStr.contains "_" (normalize_key key) = false.
Proof.
  rewrite !contains_char. apply key_char_split.
  unfold normalize_key.
  destruct (PyDict.get (key_form key) key_normalizations) as [v|] eqn:Eget.
  { apply get_Some_In in Eget.
    assert (Htable : Forall (fun kv => PyStr.all_chars key_char (snd kv) = true)
                       key_normalizations).
    { unfold key_normalizations. repeat constructor. }
    rewrite Forall_forall in Htable.
    apply (Htable (key_form key, v)). by apply list_elem_of_In. }
  assert (Hblank : PyStr.all_chars (fun c => negb (Ascii.eqb " " c)) (key_form key)
                   = true) by apply replace_blank_free.
  pose proof (split_aux_parts _ "_" (key_form key) "" Hblank eq_refl) as Hp1.
  pose proof (split_aux_sep_free "_" (key_form key) "" eq_refl) as Hp2.
  assert (Hparts : Forall (fun p => PyStr.all_chars key_char p = true)
                     (PyStr.split "_" (key_form key))).
  { unfold PyStr.split. rewrite Forall_forall in *. intros p Hp.
    apply key_char_split. split; [by apply Hp1|by apply Hp2]. }
  destruct (PyStr.split "_" (key_form key)) as [|p0 [|p1 rest]] eqn:Esplit.
  - by apply split_aux_nonempty in Esplit.
  - apply key_char_split. split; [done|]. by apply split_aux_single in Esplit.
  - apply Forall_cons in Hparts as [H0 Hrest].
    rewrite all_chars_app. apply andb_true_iff. split; [done|].
    apply key_chars_join. rewrite Forall_forall in *.
    intros p (q & -> & Hq)%list_elem_of_fmap.
    by apply key_chars_capitalize, Hrest.
Qed.

(** *** Links *)

Lemma match_link_target (s target : string) (n : nat) :
  match_link s = Some (target, n) ->
  PyStr.all_chars not_close_or_bar target = true.
Proof.
  unfold match_link.
  destruct (PyStr.startswith "[[" s); [|done].
  set (r0 := PyStr.drop 2 s).
  destruct (PyStr.span_len not_close_or_bar r0 =? 0)%nat; [done|].
  destruct (PyStr.startswith "]]" _).
  { intros [= <- _]. apply all_chars_take_span. }
  destruct (PyStr.startswith "|" _); [|done].
  destruct (_ =? 0)%nat; [done|].
  destruct (PyStr.startswith "]]" _); [|done].
  intros [= <- _]. apply all_chars_take_span.
Qed.

Lemma findall_links_targets (s : string) : forall skip,
  Forall (fun t => PyStr.all_chars not_close_or_bar t = true)
    (findall_links s skip).
Proof.
  induction s as [|c s IH]; intros skip; [by constructor|].
  cbn [findall_links]. destruct skip as [|k]; [|apply IH].
  destruct (match_link (String c s)) as [[target n]|] eqn:Em; [|apply IH].
  constructor; [exact (match_link_target _ _ _ Em)|apply IH].
Qed.

(** X19. Every link [extract_internal_links] returns is trimmed, holds
    neither a closing bracket nor a bar (the label after a bar is never
    part of the target), and holds a colon only when it starts with
    [http]: targets in a namespace, such as [File:] or [Category:], are
    left out. *)
Theorem extract_internal_links_plain (text : string) :
  Forall plain_link (extract_internal_links text).
Proof.
  unfold extract_internal_links. rewrite Forall_forall.
  intros link Hin. apply list_elem_of_In, filter_In in Hin as [Hin Hkeep].
  apply in_map_iff in Hin as (t & <- & Hin).
  pose proof (findall_links_targets text 0) as Ht.
  rewrite Forall_forall in Ht. apply list_elem_of_In, Ht in Hin.
  apply all_chars_strip in Hin.
  split; [apply strip_idem|].
  split.
  { apply contains_char. revert Hin. apply all_chars_impl.
    intros c. unfold not_close_or_bar. rewrite (Ascii.eqb_sym c "]").
    by intros [? _]%andb_true_iff. }
  split.
  { apply contains_char. revert Hin. apply all_chars_impl.
    intros c. unfold not_close_or_bar. rewrite (Ascii.eqb_sym c "|").
    by intros [_ ?]%andb_true_iff. }
  intros Hcolon. rewrite Hcolon in Hkeep. simpl in Hkeep.
  by apply negb_true_iff, negb_false_iff in Hkeep.
Qed.

(** *** Cleaned values *)

Lemma single_spaced_head (c : ascii) (r : string) :
  PyStr.single_spaced (String c r) = true -> PyStr.single_spaced r = true.
Proof. cbn [PyStr.single_spaced]. by intros [_ ?]%andb_true_iff. Qed.

Lemma collapse_spaces_single (s : string) : forall in_run,
  PyStr.single_spaced (collapse_spaces s in_run) = true /\
  (in_run = true ->
   match collapse_spaces s in_run with
   | String d _ => PyStr.is_space d = false
   | EmptyString => True
   end).
Proof.
  induction s as [|c s IH]; intros in_run; [done|].
  cbn [collapse_spaces].
  destruct (PyStr.is_space c) eqn:Ec.
  - destruct in_run.
    + apply IH.
    + split; [|done]. destruct (IH true) as [Hs Hh]. specialize (Hh eq_refl).
      cbn [PyStr.single_spaced]. rewrite Hs.
      destruct (collapse_spaces s true) as [|d r]; [done|].
      by rewrite Hh.
  - split; [|by rewrite Ec]. destruct (IH false) as [Hs _].
    cbn [PyStr.single_spaced]. rewrite Hs, Ec. simpl.
    by destruct (collapse_spaces s false).
Qed.

Lemma single_spaced_lstrip (s : string) :
  PyStr.single_spaced s = true -> PyStr.single_spaced (PyStr.lstrip s) = true.
Proof.
  induction s as [|c s IH]; [done|]. intros Hs. cbn [PyStr.lstrip].
  destruct (PyStr.is_space c); [|done]. by apply IH, (single_spaced_head c).
Qed.

Lemma rstrip_first (c : ascii) (s : string) :
  match PyStr.rstrip (String c s) with
  | String d r' =>
      d = c /\ match r', s with
               | String e _, String e' _ => e = e'
               | String _ _, EmptyString => False
               | EmptyString, _ => True
               end
  | EmptyString => True
  end.
Proof.
  rewrite rstrip_cons.
  destruct s as [|e' s'].
  - simpl. by destruct (PyStr.is_space c).
  - rewrite rstrip_cons.
    destruct (PyStr.rstrip s') as [|x y].
    + destruct (PyStr.is_space e'); [by destruct (PyStr.is_space c)|done].
    + done.
Qed.

Lemma single_spaced_rstrip (s : string) :
  PyStr.single_spaced s = true -> PyStr.single_spaced (PyStr.rstrip s) = true.
Proof.
  induction s as [|c s IH]; [done|]. intros Hs.
  pose proof (rstrip_first c s) as Hf.
  pose proof (IH (single_spaced_head c s Hs)) as IH'.
  rewrite rstrip_cons in *.
  destruct (PyStr.rstrip s) as [|d r'] eqn:Er.
  - destruct (PyStr.is_space c) eqn:Ec; [done|]. simpl. by rewrite Ec.
  - destruct Hf as [_ Hf].
    cbn [PyStr.single_spaced] in Hs |- *.
    apply andb_true_iff in Hs as [[H1 H2]%andb_true_iff _].
    change (PyStr.single_spaced (String d r')) with
      ((negb (PyStr.is_space d) || Ascii.eqb d " ")
       && match r' with
          | String d0 _ => negb (PyStr.is_space d && PyStr.is_space d0)
          | EmptyString => true
          end && PyStr.single_spaced r') in IH'.
    rewrite H1, IH'. destruct s as [|e' s']; [done|]. subst e'.
    by rewrite H2.
Qed.

Section Cleaner.
Variable mw_strip_code : string -> option string.

(** X20. A cleaned value has no leading and no trailing whitespace,
    whatever the markup library does. When the library strips the markup
    without raising, every whitespace character left is a blank and no
    two are adjacent; when it raises, the cleaned value is the trimmed
    raw value. *)
Theorem clean_wikitext_value_trimmed (value : string) :
  PyStr.strip (clean_wikitext_value mw_strip_code value)
  = clean_wikitext_value mw_strip_code value /\
  match mw_strip_code value with
  | Some _ =>
      PyStr.single_spaced (clean_wikitext_value mw_strip_code value) = true
  | None => clean_wikitext_value mw_strip_code value = PyStr.strip value
  end.
Proof.
  unfold clean_wikitext_value.
  destruct (mw_strip_code value) as [cleaned|]; (split; [apply strip_idem|]).
  - unfold PyStr.strip. apply single_spaced_rstrip, single_spaced_lstrip.
    apply collapse_spaces_single.
  - reflexivity.
Qed.

End Cleaner.

(** *** Records *)

Section RecordFacts.
Variable mw_strip_code : string -> option string.
Variable mw_filter_templates : string -> option (list template).
Variable mw_filter_wikilinks : string -> option (list string).

Lemma parse_params_NoDup (ps : list (string * string))
    (params : list (string * attribute_value)) :
  NoDup (map fst params) ->
  NoDup (map fst (parse_params mw_strip_code ps params)).
Proof.
  revert params. induction ps as [|[name value] ps IH]; intros params Hnd; simpl.
  - done.
  - destruct (PyStr.truthy (PyStr.strip value)); simpl; [|by apply IH].
    by apply IH, set_NoDup.
Qed.

Lemma parse_params_last_wins (ps : list (string * string)) :
  forall (params : list (string * attribute_value)) key,
  PyDict.get key (parse_params mw_strip_code ps params)
  = match List.find
            (fun nv => PyStr.truthy (PyStr.strip (snd nv))
                       && bool_decide (normalize_key (PyStr.strip (fst nv)) = key))
            (rev ps) with
    | Some (_, value) =>
        Some {| raw := PyStr.strip value;
                cleaned := clean_wikitext_value mw_strip_code (PyStr.strip value);
                internal_links := extract_internal_links (PyStr.strip value) |}
    | None => PyDict.get key params
    end.
Proof.
  induction ps as [|[name value] ps IH]; intros params key; [done|].
  cbn [parse_params rev].
  assert (Hfind : forall (f : string * string -> bool) l x,
            List.find f (l ++ [x])%list
            = match List.find f l with
              | Some y => Some y
              | None => if f x then Some x else None
              end).
  { intros f l x. induction l as [|y l IHl]; simpl; [done|].
    destruct (f y); [done|apply IHl]. }
  rewrite Hfind. cbn [fst snd].
  destruct (PyStr.truthy (PyStr.strip value)) eqn:Ev; cbn [negb andb].
  - rewrite IH. destruct (List.find _ (rev ps)) as [[n v]|]; [done|].
    destruct (decide (normalize_key (PyStr.strip name) = key)) as [<-|Hne].
    + by rewrite bool_decide_true, get_set_eq.
    + by rewrite bool_decide_false, get_set_ne.
  - rewrite IH. by destruct (List.find _ (rev ps)) as [[n v]|].
Qed.

(** X21. The record of a page. An empty wikitext gives no record, every
    other wikitext gives one. The record's attribute map is a dictionary
    (one entry per normalized key), it has a type exactly when it has an
    infobox, and its identifier and title are the page title. When two
    parameters of the infobox normalize to the same key, the last one with
    a non-empty value is the one recorded. *)
Theorem parse_page_text_record
    (title wikitext : string) (pageid : option Z) (cats : list string) :
  let parsed :=
    parse_page_text mw_strip_code mw_filter_templates mw_filter_wikilinks
      title wikitext pageid cats in
  (parsed = None <-> wikitext = "") /\
  (forall e, parsed = Some e ->
     well_formed e /\
     entity_id e = title /\ Step1.title e = title /\
     (etype e = None <-> e_infobox e = None) /\
     raw_wikitext_length e = String.length wikitext) /\
  (forall (ps : list (string * string)) key,
     PyDict.get key (parse_params mw_strip_code ps [])
     = option_map
         (fun nv => {| raw := PyStr.strip (snd nv);
                       cleaned := clean_wikitext_value mw_strip_code
                                    (PyStr.strip (snd nv));
                       internal_links := extract_internal_links
                                           (PyStr.strip (snd nv)) |})
         (List.find
            (fun nv => PyStr.truthy (PyStr.strip (snd nv))
                       && bool_decide (normalize_key (PyStr.strip (fst nv)) = key))
            (rev ps))).
Proof.
  cbn zeta. unfold parse_page_text. split; [|split].
  - unfold PyStr.truthy. rewrite negb_involutive.
    destruct (String.eqb wikitext "") eqn:E.
    + apply String.eqb_eq in E. by split.
    + apply String.eqb_neq in E. by split.
  - intros e. destruct (negb (PyStr.truthy wikitext)); [done|].
    intros [= <-]. unfold well_formed. cbn.
    destruct (parse_infobox_template _ _ wikitext) as [res|] eqn:Hres; cbn.
    + split; [|by repeat split]. revert Hres. unfold parse_infobox_template.
      destruct (mw_filter_templates wikitext) as [ts|]; [|done].
      destruct (List.find is_infobox ts) as [t|]; [|done].
      intros [= <-]. cbn. apply parse_params_NoDup. constructor.
    + by repeat split.
  - intros ps key. rewrite parse_params_last_wins.
    by destruct (List.find _ (rev ps)) as [[n v]|].
Qed.

End RecordFacts.

End TextFacts.

(** ** Step 1: the batch run *)

Section BatchFacts.
Import Step1 Batch.

Lemma count_type_same ty (types : list (option string * nat)) :
  default 0 (PyDict.get ty (count_type ty types))
  = default 0 (PyDict.get ty types) + 1.
Proof. unfold count_type. by rewrite get_set_eq. Qed.

Lemma count_type_other ty ty' (types : list (option string * nat)) :
  ty <> ty' ->
  PyDict.get ty' (count_type ty types) = PyDict.get ty' types.
Proof. intros Hne. unfold count_type. by rewrite get_set_ne. Qed.

Lemma count_type_sum ty (types : list (option string * nat)) :
  list_sum (map snd (count_type ty types)) = list_sum (map snd types) + 1.
Proof.
  unfold count_type. induction types as [|[k v] r IH]; simpl; [done|].
  destruct (decide (ty = k)) as [->|Hne]; simpl; [lia|].
  rewrite IH. lia.
Qed.

Section BatchRun.
Variable parse_page : json -> result (option entity).
Variable load_json : string -> result json.

Lemma filter_snoc {A : Type} (f : A -> bool) (l : list A) (x : A) :
  List.filter f (l ++ [x])%list
  = (List.filter f l ++ if f x then [x] else [])%list.
Proof.
  induction l as [|y l IH]; simpl; [done|].
  rewrite IH. by destruct (f y).
Qed.

Lemma count_failed_consistent n title stats entities :
  consistent parse_page n (stats, entities) ->
  consistent parse_page (S n) (count_failed title stats, entities).
Proof.
  intros (H1 & H2 & H3 & H4 & H5 & H6 & H7 & H8). cbn.
  rewrite length_app. simpl.
  split; [lia|]. split; [done|]. split; [done|]. split; [lia|].
  by repeat split.
Qed.

Lemma count_successful_consistent n page e stats entities :
  parse_page page = Ok (Some e) ->
  consistent parse_page n (stats, entities) ->
  consistent parse_page (S n) (count_successful e stats, (entities ++ [e])%list).
Proof.
  intros Hpage (H1 & H2 & H3 & H4 & H5 & H6 & H7 & H8).
  assert (H8' : Forall (fun e => exists page, parse_page page = Ok (Some e))
                  (entities ++ [e])%list).
  { apply Forall_app. split; [done|]. constructor; [by exists page|constructor]. }
  unfold count_successful.
  destruct (has_infobox e) eqn:Eib; cbn;
    rewrite !length_app, !filter_snoc, ?Eib; simpl; rewrite ?length_app; simpl.
  - split; [lia|]. split; [lia|]. split; [lia|]. split; [done|].
    split; [lia|]. split; [rewrite count_type_sum; lia|]. split; [|done].
    intros ty. rewrite filter_snoc, length_app, Eib. cbn [andb].
    destruct (of_type ty e) eqn:Eo.
    + apply bool_decide_eq_true in Eo. subst ty.
      rewrite count_type_same, H7. simpl. lia.
    + apply bool_decide_eq_false in Eo.
      rewrite count_type_other by done. rewrite H7. simpl. lia.
  - split; [lia|]. split; [lia|]. split; [lia|]. split; [done|].
    split; [lia|]. split; [done|]. split; [|done].
    intros ty. rewrite filter_snoc, length_app, Eib. cbn [andb].
    rewrite H7. simpl. lia.
Qed.

Lemma page_step_consistent n i page acc acc' :
  page_step parse_page i page acc = Ok acc' ->
  consistent parse_page n acc ->
  is_object page /\ consistent parse_page (S n) acc' /\
  total_pages (fst acc') = total_pages (fst acc).
Proof.
  destruct acc as [stats entities]. unfold page_step.
  destruct page as [| | | | | |kv]; try discriminate.
  intros Hstep Hc. split; [by eexists|].
  destruct (parse_page (JObj kv)) as [[e|]|exn] eqn:Hpage;
    injection Hstep as <-.
  - split; [by apply (count_successful_consistent n (JObj kv))|].
    unfold count_successful. by destruct (has_infobox e).
  - split; [by apply count_failed_consistent|done].
  - split; [by apply count_failed_consistent|done].
Qed.

Lemma pages_loop_consistent pages : forall n i acc acc',
  pages_loop parse_page i pages acc = Ok acc' ->
  consistent parse_page n acc ->
  Forall is_object pages /\ consistent parse_page (n + length pages) acc' /\
  total_pages (fst acc') = total_pages (fst acc).
Proof.
  induction pages as [|page pages IH]; intros n i acc acc'; simpl.
  - intros [= <-] Hc. rewrite Nat.add_0_r. by repeat split.
  - destruct (page_step parse_page i page acc) as [acc1|] eqn:Hstep; [|discriminate].
    cbn. intros Hloop Hc.
    destruct (page_step_consistent n i page acc acc1 Hstep Hc) as (Ho & Hc1 & Ht1).
    destruct (IH (S n) (S i) acc1 acc' Hloop Hc1) as (Hos & Hc' & Ht').
    split; [by constructor|]. split; [|congruence].
    by replace (n + S (length pages)) with (S n + length pages) by lia.
Qed.

(** X22. A batch run that returns read a list of pages that are all JSON
    objects, and its statistics add up: every page is counted once, as
    successful or as failed; the successful ones are exactly the records
    written, with or without an infobox; the failed titles are as many as
    the failures; and the count kept for each type is the number of
    written records of that type that have an infobox, so the counts sum
    to the number of records with an infobox. Every record written was
    returned by [parse_page] for some page. *)
Theorem parse_all_pages_statistics
    (input_file : string) (stats : statistics) (entities : list entity) :
  parse_all_pages parse_page load_json input_file = Ok (stats, entities) ->
  consistent parse_page (total_pages stats) (stats, entities) /\
  exists pages_data pages,
    load_json input_file = Ok pages_data /\
    iter_pages (pages_list_of pages_data) = Ok pages /\
    total_pages stats = length pages /\
    Forall is_object pages.
Proof.
  unfold parse_all_pages.
  destruct (load_json input_file) as [pages_data|] eqn:Hload; [|discriminate].
  cbn.
  destruct (iter_pages (pages_list_of pages_data)) as [pages|] eqn:Hiter;
    [|discriminate].
  cbn. intros Hloop.
  assert (H0 : consistent parse_page 0 (initial_statistics (length pages), [])).
  { cbn. by repeat split. }
  destruct (pages_loop_consistent pages 0 0 _ _ Hloop H0) as (Ho & Hc & Ht).
  cbn in Ht. rewrite Ht. split; [exact Hc|].
  exists pages_data, pages. split; [done|]. split; [done|]. split; [done|exact Ho].
Qed.

End BatchRun.

Lemma index_entity_lookup (es : list entity) :
  forall (index : list (option string * list index_entry)) ty,
  PyDict.get ty (fold_left index_entity es index)
  = match List.filter (of_type ty) es with
    | [] => PyDict.get ty index
    | l => Some (default [] (PyDict.get ty index) ++ map entry_of l)%list
    end.
Proof.
  induction es as [|e es IH]; intros index ty; [done|].
  cbn [fold_left List.filter]. rewrite IH. unfold of_type at 2, index_entity.
  destruct (decide (etype e = ty)) as [<-|Hne].
  - rewrite bool_decide_true by done. rewrite get_set_eq. cbn [default].
    fold (entry_of e).
    destruct (List.filter (of_type (etype e)) es) as [|x l]; [done|].
    unfold id. by rewrite <- app_assoc.
  - rewrite bool_decide_false by done. by rewrite get_set_ne.
Qed.

Lemma index_entity_NoDup (es : list entity) :
  forall (index : list (option string * list index_entry)),
  NoDup (map fst index) -> NoDup (map fst (fold_left index_entity es index)).
Proof.
  induction es as [|e es IH]; intros index Hnd; [done|].
  cbn [fold_left]. by apply IH, set_NoDup.
Qed.

(** X23. The entity index groups the records by type: under a type it
    lists the identifier, title and page id of exactly the records of that
    type, in the order of the input; a type no record has is no key of the
    index, and no key is listed twice. *)
Theorem create_entity_index_groups (normalized_entities : list entity)
    (ty : option string) :
  PyDict.get ty (create_entity_index normalized_entities)
  = match List.filter (of_type ty) normalized_entities with
    | [] => None
    | l => Some (map entry_of l)
    end /\
  NoDup (map fst (create_entity_index normalized_entities)).
Proof.
  unfold create_entity_index. split.
  - rewrite index_entity_lookup. by destruct (List.filter _ _).
  - apply index_entity_NoDup. constructor.
Qed.

End BatchFacts.

(** ** Step 4: the whole pipeline *)

Section PipelineFacts.
Import Step4 Vocab.

Variable ratio : string -> string -> Q.
Variable float_str : Q -> string.
Variable bnode_str : nat -> string.
Variable json_repr : json -> string.
Variable file_exists : string -> bool.
Variable read_csv : string -> result (list (list (string * string))).
Variable load_json : string -> result json.
Variable parse_turtle : string -> result graph.

Lemma enrich_with_metw_grows (path : string) (threshold : Q) (st st' : enricher) :
  enrich_with_metw ratio json_repr file_exists load_json path threshold st = Ok st' ->
  entity_index st' = entity_index st /\ kg st ⊆ kg st' /\
  forall t, t ∈ kg st' -> t ∉ kg st -> card_fact (entity_index st) t.
Proof.
  unfold enrich_with_metw.
  destruct (file_exists path); cbn [negb].
  2:{ intros [= <-]. cbn. split; [done|]. split; [done|]. by intros ???. }
  destruct (load_json path) as [cards_data|]; [|discriminate]. cbn.
  destruct (all_cards_of cards_data) as [cards|]; [|discriminate]. cbn.
  destruct (iter_cards cards) as [items|]; [|discriminate]. cbn.
  match goal with
  | |- context [metw_loop _ _ _ _ _ ?s] => set (st0 := s)
  end.
  destruct (metw_loop ratio json_repr threshold 0 items st0) as [st1|] eqn:Hloop;
    [|discriminate].
  cbn. intros [= <-]. cbn.
  apply metw_loop_step in Hloop. destruct Hloop as (Hi & _ & Hg & Hn & _).
  by split.
Qed.

Lemma enrich_with_csv_grown (path : string) (threshold : Q) (st st' : enricher) :
  enrich_with_csv ratio float_str file_exists read_csv path threshold st = Ok st' ->
  grown (indexed (entity_index st)) csv_predicates st st'.
Proof.
  unfold enrich_with_csv. destruct (negb (file_exists path)).
  - intros [= <-]. apply (grown_refl (indexed (entity_index st)) csv_predicates st).
  - destruct (read_csv path) as [rows|exn]; [|done].
    cbn [mbind result_bind]. intros [= <-].
    exact (csv_loop_grown ratio (length rows) threshold rows 0 _).
Qed.

Lemma name_rows_in (g : graph) (e nm : term) :
  In (e, nm) (name_rows g) -> (e, SCHEMA "name", nm) ∈ g.
Proof.
  intros Hin. apply list_elem_of_In in Hin. unfold name_rows in Hin.
  apply list_elem_of_omap in Hin as ([[s p] o] & Hin & Hrow).
  apply elem_of_elements in Hin.
  cbn beta iota in Hrow.
  destruct (decide (p = SCHEMA "name")) as [->|Hne]; [|discriminate Hrow].
  by injection Hrow as -> ->.
Qed.

Lemma indexed_named (g : graph) (s : term) :
  indexed (build_entity_index float_str bnode_str g) s -> named_in g s.
Proof.
  intros [k Hin]. unfold build_entity_index in Hin.
  destruct (build_index_from float_str bnode_str (name_rows g) [] [])
    as [Hall _]; [constructor|by intros ?? []|].
  cbn zeta in Hall. rewrite Forall_forall in Hall.
  apply list_elem_of_In, Hall in Hin as [nm Hnm].
  exists nm. by apply name_rows_in.
Qed.

(** X24. The whole enrichment. When the base graph is there and [main]
    returns, it has run every stage and written the final graph to the
    output file. The written graph holds every fact of the base graph,
    and each fact it adds is either about a card, or about an entity that
    carries a [schema:name] in the base graph, under one of the two card
    link predicates or one of the eleven CSV predicates. *)
Theorem main_only_enriches (g : graph) (out : outcome) :
  file_exists kg_file = true ->
  parse_turtle kg_file = Ok g ->
  main ratio float_str bnode_str json_repr file_exists read_csv load_json
       parse_turtle = Ok out ->
  exists st,
    out = Completed st (output_file, kg st) /\
    entity_index st = build_entity_index float_str bnode_str g /\
    g ⊆ kg st /\
    forall s p o, (s, p, o) ∈ kg st -> (s, p, o) ∉ g ->
      (exists x, s = METW x) \/
      (named_in g s /\ (p ∈ card_link_predicates \/ p ∈ csv_predicates)).
Proof.
  intros Hkg Hparse. unfold main, init. rewrite Hkg, Hparse.
  cbn [negb mbind result_bind].
  match goal with
  | |- context [enrich_with_metw _ _ _ _ _ _ ?s] => set (st0 := s)
  end.
  destruct (enrich_with_metw _ _ _ _ _ _ st0) as [st1|] eqn:Hmetw; [|discriminate].
  cbn [mbind result_bind].
  destruct (enrich_with_csv _ _ _ _ _ _ st1) as [st2|] eqn:Hcsv; [|discriminate].
  cbn [mbind result_bind save_graph]. intros [= <-].
  apply enrich_with_metw_grows in Hmetw as (Hi1 & Hg1 & Hn1).
  apply enrich_with_csv_grown in Hcsv. destruct Hcsv as (Hi2 & Hg2 & Hn2).
  change (kg st0) with g in *.
  change (entity_index st0) with (build_entity_index float_str bnode_str g) in *.
  match goal with
  | |- exists st, Completed ?X _ = _ /\ _ => exists X
  end.
  split; [reflexivity|].
  change (kg (print _ _)) with (kg st2).
  change (entity_index (print _ _)) with (entity_index st2).
  split; [congruence|]. split; [by etrans|].
  intros s p o Hin Hnew.
  destruct (decide ((s, p, o) ∈ kg st1)) as [H1|H1].
  - destruct (Hn1 _ H1 Hnew) as [Hcard|(Hidx & Hp & _)]; [by left|].
    right. split; [by apply indexed_named|by left].
  - destruct (Hn2 s p o Hin H1) as [Hidx Hp].
    right. rewrite Hi1 in Hidx. split; [by apply indexed_named|by right].
Qed.

End PipelineFacts.

(** ** The further properties on sample data *)

Section FurtherExamples.
Import Step1 Step2 Step3 Step4 Batch Vocab.

Lemma enrich_with_csv_writes_indexed_witness :
  exists st',
    enrich_with_csv exact_ratio (fun _ => "") (fun _ => true)
      (fun _ => Ok [frodo_birth_row]) csv_file (85 # 100) frodo_enricher = Ok st' /\
    entity_index st' = entity_index frodo_enricher /\
    kg frodo_enricher ⊆ kg st'.
Proof.
  eexists. split; [reflexivity|].
  destruct (enrich_with_csv_writes_indexed exact_ratio (fun _ => "")
              (fun _ => true) (fun _ => Ok [frodo_birth_row]) csv_file (85 # 100)
              frodo_enricher _ eq_refl) as (Hidx & Hsub & _).
  split; [exact Hidx|exact Hsub].
Defined.

Lemma enrich_with_csv_accounts_rows_witness :
  exists st',
    enrich_with_csv exact_ratio (fun _ => "") (fun _ => true)
      (fun _ => Ok [frodo_birth_row]) csv_file (85 # 100) frodo_enricher = Ok st' /\
    total_characters (csv st') = 1 /\
    accounted (csv st') = 1.
Proof.
  eexists. split; [reflexivity|].
  exact (enrich_with_csv_accounts_rows exact_ratio (fun _ => "")
           (fun _ => true) (fun _ => Ok [frodo_birth_row]) csv_file (85 # 100)
           frodo_enricher _ [frodo_birth_row] eq_refl eq_refl eq_refl).
Defined.

Lemma frodo_is_named : (frodo, SCHEMA "name", en "Frodo Baggins") ∈ frodo_graph.
Proof. apply elem_of_singleton. reflexivity. Defined.

Lemma graph_names_match_exactly_witness :
  find_best_match exact_ratio
    (build_entity_index (fun _ => "") (fun _ => "") frodo_graph)
    "Frodo Baggins" (85 # 100) = (Some frodo, 1%Q).
Proof.
  destruct (graph_names_match_exactly exact_ratio (fun _ => "") (fun _ => "")
              frodo_graph frodo (en "Frodo Baggins") (85 # 100) frodo_is_named)
    as (u & o' & before & after & Hrows & _ & _ & _ & Hfind).
  assert (Hone : name_rows frodo_graph = [(frodo, en "Frodo Baggins")]).
  { unfold name_rows, frodo_graph. rewrite elements_singleton. reflexivity. }
  rewrite Hone in Hrows.
  assert (u = frodo) as <-.
  { destruct before as [|b [|b' before]].
    - by injection Hrows as <- _.
    - injection Hrows as _ Hnil. discriminate Hnil.
    - injection Hrows as _ Hnil. discriminate Hnil. }
  exact Hfind.
Defined.

Lemma fuzzy_match_is_first_best_witness :
  exists before key after,
    entity_index frodo_enricher = (before ++ (key, frodo) :: after)%list /\
    (forall k u, In (k, u) before ->
       (similarity_score frodo_ratio "Frodo" k < 9 # 10)%Q).
Proof.
  destruct (fuzzy_match_is_first_best frodo_ratio (entity_index frodo_enricher)
              "Frodo" (85 # 100) frodo (9 # 10) eq_refl eq_refl eq_refl)
    as (before & key & after & Hidx & _ & _ & _ & Hbefore & _).
  exists before, key, after. split; [exact Hidx|exact Hbefore].
Defined.

Lemma enrich_with_metw_adds_card_facts_witness :
  exists st',
    enrich_with_metw exact_ratio (fun _ => "") (fun _ => true)
      (fun _ => Ok (JArr [frodo_card])) cards_file (85 # 100) frodo_enricher
    = Ok st' /\
    kg frodo_enricher ⊆ kg st' /\
    linked_cards (metw st') <= linked_cards (metw frodo_enricher) + total_cards (metw st').
Proof.
  assert (Hok : match enrich_with_metw exact_ratio (fun _ => "") (fun _ => true)
                        (fun _ => Ok (JArr [frodo_card])) cards_file (85 # 100)
                        frodo_enricher with
                | Ok _ => true
                | Raise _ => false
                end = true) by reflexivity.
  destruct (enrich_with_metw exact_ratio (fun _ => "") (fun _ => true)
              (fun _ => Ok (JArr [frodo_card])) cards_file (85 # 100)
              frodo_enricher) as [st'|exn] eqn:Hrun; [|discriminate Hok].
  exists st'. split; [reflexivity|].
  destruct (enrich_with_metw_adds_card_facts exact_ratio (fun _ => "")
              (fun _ => true) (fun _ => Ok (JArr [frodo_card])) cards_file
              (85 # 100) frodo_enricher st' Hrun)
    as (_ & _ & Hsub & _ & _ & Hlinked & _).
  split; [exact Hsub|exact Hlinked].
Defined.

Lemma generate_basic_facts_witness :
  (create_uri "Frodo" "resource", RDF "type", SCHEMA "Person")
    ∈ generate [gendered_character].
Proof.
  apply (proj1 (generate_basic_facts [gendered_character] gendered_character
                  (or_introl eq_refl))).
  - discriminate.
  - left. reflexivity.
Defined.

Lemma gendered_character_well_formed : Forall well_formed [gendered_character].
Proof. constructor; [apply NoDup_singleton|constructor]. Defined.

Lemma race_birth_constraints_iff_count_witness :
  ~ has_path_constraint (sgraph (generate_shapes [gendered_character] Step3.init))
      (PROP "race").
Proof.
  intros Hrace.
  apply (proj1 (proj1 (race_birth_constraints_iff_count [gendered_character]
                         gendered_character_well_formed))) in Hrace.
  vm_compute in Hrace. lia.
Defined.

Lemma analyze_entities_counts_witness :
  usage (Some "infobox character") "gender"
    (property_usage (analyze_entities [gendered_character] Step3.init)) = 1.
Proof.
  exact (proj1 (analyze_entities_counts (Some "infobox character") "gender"
                  [gendered_character] Step3.init gendered_character_well_formed)).
Defined.

Lemma analyze_entities_datatypes_witness :
  exists dts,
    PyDict.get "gender"
      (property_datatypes (analyze_entities [gendered_character] Step3.init)) = Some dts /\
    dts <> ∅.
Proof.
  eexists. split; [reflexivity|].
  exact (proj1 (analyze_entities_datatypes [gendered_character] "gender" _ eq_refl)).
Defined.

Lemma parse_all_pages_statistics_witness :
  exists stats entities,
    parse_all_pages (fun _ => Ok (Some gendered_character))
      (fun _ => Ok (JArr [JObj []])) "pages.json" = Ok (stats, entities) /\
    successful stats + failed stats = total_pages stats /\
    length entities = successful stats.
Proof.
  eexists _, _. split; [reflexivity|].
  destruct (parse_all_pages_statistics (fun _ => Ok (Some gendered_character))
              (fun _ => Ok (JArr [JObj []])) "pages.json" _ _ eq_refl)
    as [Hc _].
  destruct Hc as (H1 & _ & H3 & _). split; [exact H1|exact H3].
Defined.

Lemma main_only_enriches_witness :
  exists st,
    main exact_ratio (fun _ => "") (fun _ => "") (fun _ => "") only_base_graph
      (fun _ => Raise "missing") (fun _ => Raise "missing")
      (fun _ => Ok frodo_graph)
    = Ok (Completed st (output_file, kg st)) /\
    frodo_graph ⊆ kg st.
Proof.
  destruct (main_only_enriches exact_ratio (fun _ => "") (fun _ => "")
              (fun _ => "") only_base_graph (fun _ => Raise "missing")
              (fun _ => Raise "missing") (fun _ => Ok frodo_graph)
              frodo_graph _ eq_refl eq_refl eq_refl)
    as (st & Hout & _ & Hsub & _).
  exists st. split; [|exact Hsub].
  rewrite <- Hout. reflexivity.
Defined.

End FurtherExamples.
